(** * Slashing protection and attestation aggregation of the validator client

    A shallow embedding of [validator/client/attest_protect.go] and of the
    attestation aggregator exercised by
    [beacon-chain/core/helpers/attaggregation/aggregate_test.go].

    Epochs are Go [uint64] values: they are modelled as [Z] with the
    wrap-around of [i++] written out.  Byte slices are lists of [Z] in
    [0, 256).  Errors are returned, never raised: fallible functions
    return a [result]. *)

From Stdlib Require Import ZArith Lia List Bool.
From stdpp Require Import base option list gmap strings.

Local Open Scope Z_scope.

(** ** Machine integers *)

Module u64.

Definition MaxUint64 : Z := 2 ^ 64 - 1.

(** A [uint64] result is reduced modulo [2^64]. *)
Definition wrap (z : Z) : Z := z mod 2 ^ 64.

(** [i++] on a [uint64] counter. *)
Definition incr (i : Z) : Z := wrap (i + 1).

(** [a - b] on [uint64] operands. *)
Definition sub (a b : Z) : Z := wrap (a - b).

End u64.

(** ** Errors and results *)

(** Go [error] values: [errors.New], and [errors.Wrap] / [errors.Wrapf]
    around a cause (the formatted argument of [Wrapf] is kept as [arg]). *)
Inductive error : Type :=
| ErrNew (msg : string)
| ErrWrap (cause : error) (msg : string)
| ErrWrapf (cause : error) (msg : string) (arg : Z).

(** The pair [(value, error)] returned by a fallible Go function. *)
Inductive result (A : Type) : Type :=
| Ok (a : A)
| Err (e : error).
Arguments Ok {A} a.
Arguments Err {A} e.

(** ** Bounded loops over a [uint64] counter *)

(** What one execution of a loop body does: fall through to the next
    iteration ([continue] or the end of the body), or [return]. *)
Inductive step (A : Type) : Type :=
| Continue
| Return (a : A).
Arguments Continue {A}.
Arguments Return {A} a.

(** [for i := lo; i <= hi; i++ { body }].  [fuel] bounds the number of
    executions of the body; testing the loop condition costs nothing.
    The result is [None] when the fuel runs out, [Some None] when the loop
    condition fails (the loop is left normally) and [Some (Some a)] when
    the body returns [a]. *)
Fixpoint forU64 {A : Type} (fuel : nat) (hi : Z) (body : Z -> step A) (i : Z)
  : option (option A) :=
  if hi <? i then Some None
  else match fuel with
       | O => None
       | S fuel' =>
           match body i with
           | Return a => Some (Some a)
           | Continue => forU64 fuel' hi body (u64.incr i)
           end
       end.

(** ** The attesting history ([validator/db/kv]) *)

Module kv.

(** [kv.HistoryData]: the record stored for one target epoch.  The two
    fields are the ones [attest_protect.go] builds and reads. *)
Record HistoryData : Type := mkHistoryData {
  Source : Z;
  SigningRoot : list Z
}.

#[global] Instance HistoryData_eq_dec : EqDecision HistoryData.
Proof. solve_decision. Defined.

(** Modelled from the spec: [params.BeaconConfig().FarFutureEpoch], the
    source epoch of the empty sentinel, is the largest [uint64]. *)
Definition FarFutureEpoch : Z := u64.MaxUint64.

(** Modelled from the spec: the decoded attesting history, whose encoding
    ([kv.EncHistoryData], a byte slice) is not part of the sources.  It
    holds [latestEpochWritten] and a ring of records indexed by
    [epoch mod WeakSubjectivityPeriod]; a slot that was never written is
    absent from [slots]. *)
Record AttestingHistory : Type := mkHistory {
  latestEpochWritten : Z;
  slots : gmap Z HistoryData
}.

(** Modelled from the spec: the value of type [kv.EncHistoryData] handed
    to the protector: the [nil] slice, a payload that cannot be decoded
    ([DataCorruption]), or an encoded history. *)
Inductive EncHistoryData : Type :=
| Nil
| Corrupt
| Enc (h : AttestingHistory).

(** Modelled from the spec: the method [IsEmpty] of a [HistoryData]
    pointer, not part of the sources.  A [nil] record is empty, and so is
    the sentinel whose source epoch is the largest [uint64]. *)
Definition IsEmpty (hd : option HistoryData) : bool :=
  match hd with
  | None => true
  | Some d => Source d =? FarFutureEpoch
  end.

(** Modelled from the spec: the sentinel record written into a cleared
    slot. *)
Definition emptyRecord : HistoryData :=
  {| Source := FarFutureEpoch; SigningRoot := [] |}.

(** Modelled from the spec: the history created lazily for a key that has
    none, with nothing written and every slot empty. *)
Definition emptyHistory : AttestingHistory :=
  {| latestEpochWritten := 0; slots := ∅ |}.

(** Modelled from the spec: the error of a payload that cannot be read. *)
Definition errDataCorruption : error :=
  ErrNew "encapsulated data cannot be decoded".

Section ring.

(** [params.BeaconConfig().WeakSubjectivityPeriod]: the constant is not
    part of the sources and is taken as a parameter. *)
Variable wsPeriod : Z.

(** Modelled from the spec: [EncHistoryData.GetLatestEpochWritten], not
    part of the sources. *)
Definition GetLatestEpochWritten (hd : EncHistoryData) : result Z :=
  match hd with
  | Enc h => Ok (latestEpochWritten h)
  | Nil | Corrupt => Err errDataCorruption
  end.

(** Modelled from the spec: [EncHistoryData.GetTargetData], not part of
    the sources, reads the record at slot
    [target mod WeakSubjectivityPeriod]; the result is the [nil] record
    when the slot was never written. *)
Definition GetTargetData (hd : EncHistoryData) (target : Z)
  : result (option HistoryData) :=
  match hd with
  | Enc h => Ok (slots h !! (target mod wsPeriod))
  | Nil | Corrupt => Err errDataCorruption
  end.

(** Modelled from the spec: the empty sentinel is written into the slots
    of the [n] epochs [e, e+1, ...]. *)
Fixpoint clearEpochs (n : nat) (e : Z) (s : gmap Z HistoryData)
  : gmap Z HistoryData :=
  match n with
  | O => s
  | S n' => clearEpochs n' (e + 1) (<[e mod wsPeriod := emptyRecord]> s)
  end.

(** Modelled from the spec: step 6 of the check.  Every epoch strictly
    between [latestEpochWritten] and the target gets the empty sentinel,
    the vote is written at the target's slot, and [latestEpochWritten]
    becomes the larger of the two. *)
Definition markHistory (h : AttestingHistory) (incomingTarget : Z)
    (incomingAtt : HistoryData) : AttestingHistory :=
  let latest := latestEpochWritten h in
  let cleared :=
    clearEpochs (Z.to_nat (incomingTarget - latest - 1)) (latest + 1) (slots h) in
  {| latestEpochWritten := Z.max latest incomingTarget;
     slots := <[incomingTarget mod wsPeriod := incomingAtt]> cleared |}.

(** Modelled from the spec: [kv.MarkAllAsAttestedSinceLatestWrittenEpoch],
    not part of the sources.  A [nil] history and a payload that cannot be
    read are errors, as they are for [GetLatestEpochWritten]: the empty
    history of a key is created when the history is loaded, not when it
    is marked. *)
Definition MarkAllAsAttestedSinceLatestWrittenEpoch (hist : EncHistoryData)
    (incomingTarget : Z) (incomingAtt : HistoryData) : result EncHistoryData :=
  match hist with
  | Enc h => Ok (Enc (markHistory h incomingTarget incomingAtt))
  | Nil | Corrupt => Err errDataCorruption
  end.

End ring.

End kv.


(** ** Protobuf messages ([ethpb]) *)

Module ethpb.

Record Checkpoint : Type := mkCheckpoint {
  Epoch : Z;
  Root : list Z
}.

Record AttestationData : Type := mkAttestationData {
  Slot : Z;
  CommitteeIndex : Z;
  BeaconBlockRoot : list Z;
  Source : Checkpoint;
  Target : Checkpoint
}.

Record IndexedAttestation : Type := mkIndexedAttestation {
  AttestingIndices : list Z;
  Data : AttestationData;
  Signature : list Z
}.

End ethpb.

(** ** The slashing protector ([validator/client/attest_protect.go]) *)

Module client.

Definition failedAttLocalProtectionErr : string :=
  "attempted to make slashable attestation, rejected by local slashing protection".
Definition failedPreAttSignExternalErr : string :=
  "attempted to make slashable attestation, rejected by external slasher service".
Definition failedPostAttSignExternalErr : string :=
  "external slasher service detected a submitted slashable attestation".

(** The lines written to the log.  The three warnings are the only place
    where the code tells a double vote, a surrounding vote and a surrounded
    vote apart: all three return [true]. *)
Inductive LogEntry : Type :=
| ErrorLatestEpochWritten (err : error)
| WarnDoubleVote (signingRoot : list Z) (targetEpoch : Z)
    (previouslyAttestedSigningRoot : list Z)
| WarnSurrounding (targetEpoch sourceEpoch
    previouslyAttestedTargetEpoch previouslyAttestedSourceEpoch : Z)
| WarnSurrounded (targetEpoch sourceEpoch
    previouslyAttestedTargetEpoch previouslyAttestedSourceEpoch : Z).

(** [bytes.Equal]. *)
Definition bytesEqual (a b : list Z) : bool := bool_decide (a = b).

Definition surroundedByPrevAttestation (prevSource prevTarget newSource newTarget : Z)
  : bool :=
  (prevSource <? newSource) && (newTarget <? prevTarget).

Definition surroundingPrevAttestation (prevSource prevTarget newSource newTarget : Z)
  : bool :=
  (newSource <? prevSource) && (prevTarget <? newTarget).

Section protector.

(** [params.BeaconConfig().WeakSubjectivityPeriod], a positive constant of
    the configuration: [targetEpoch % wsPeriod] panics in Go when it is 0,
    so the properties below are stated for a positive period. *)
Variable wsPeriod : Z.

(** The subtraction is only evaluated when the left conjunct holds
    ([&&] is short-circuit in Go, and [andb] gives [false] there too). *)
Definition differenceOutsideWeakSubjectivityBounds (latestEpochWritten targetEpoch : Z)
  : bool :=
  (wsPeriod <=? latestEpochWritten)
  && (targetEpoch <=? u64.sub latestEpochWritten wsPeriod).

Definition checkHistoryAtTargetEpoch (history : kv.EncHistoryData)
    (latestEpochWritten targetEpoch : Z) : result (option kv.HistoryData) :=
  if differenceOutsideWeakSubjectivityBounds latestEpochWritten targetEpoch
  then Ok None
  else if latestEpochWritten <? targetEpoch then Ok None
  else
    match kv.GetTargetData wsPeriod history (targetEpoch mod wsPeriod) with
    | Err err =>
        Err (ErrWrapf err "could not get target data for target epoch: %d" targetEpoch)
    | Ok historicalAtt => Ok historicalAtt
    end.

(** The body of the first loop of [isSurroundVote]. *)
Definition surroundingBody (history : kv.EncHistoryData)
    (latestEpochWritten sourceEpoch targetEpoch : Z) (i : Z)
  : step (list LogEntry * result bool) :=
  match checkHistoryAtTargetEpoch history latestEpochWritten i with
  | Err err =>
      Return ([], Err (ErrWrapf err
        "could not check historical attestation at target epoch: %d" i))
  | Ok historicalAtt =>
      match historicalAtt with
      | None => Continue
      | Some hd =>
          if kv.IsEmpty (Some hd) then Continue
          else
            let prevTarget := i in
            let prevSource := kv.Source hd in
            if surroundingPrevAttestation prevSource prevTarget sourceEpoch targetEpoch
            then Return ([WarnSurrounding targetEpoch sourceEpoch prevTarget prevSource],
                         Ok true)
            else Continue
      end
  end.

(** The body of the second loop of [isSurroundVote]. *)
Definition surroundedBody (history : kv.EncHistoryData)
    (latestEpochWritten sourceEpoch targetEpoch : Z) (i : Z)
  : step (list LogEntry * result bool) :=
  match checkHistoryAtTargetEpoch history latestEpochWritten i with
  | Err err =>
      Return ([], Err (ErrWrapf err
        "could not check historical attestation at target epoch: %d" i))
  | Ok historicalAtt =>
      match historicalAtt with
      | None => Continue
      | Some hd =>
          if kv.IsEmpty (Some hd) then Continue
          else
            let prevTarget := i in
            let prevSource := kv.Source hd in
            if surroundedByPrevAttestation prevSource prevTarget sourceEpoch targetEpoch
            then Return ([WarnSurrounded targetEpoch sourceEpoch prevTarget prevSource],
                         Ok true)
            else Continue
      end
  end.

(** [isSurroundVote]: the scan of [sourceEpoch..targetEpoch] for a vote
    that the new one surrounds, then the scan of
    [targetEpoch..latestEpochWritten] for a vote that surrounds the new
    one.  Each loop may run its body [fuel] times. *)
Definition isSurroundVote (fuel : nat) (history : kv.EncHistoryData)
    (latestEpochWritten sourceEpoch targetEpoch : Z)
  : option (list LogEntry * result bool) :=
  match forU64 fuel targetEpoch
          (surroundingBody history latestEpochWritten sourceEpoch targetEpoch)
          sourceEpoch with
  | None => None
  | Some (Some r) => Some r
  | Some None =>
      match forU64 fuel latestEpochWritten
              (surroundedBody history latestEpochWritten sourceEpoch targetEpoch)
              targetEpoch with
      | None => None
      | Some (Some r) => Some r
      | Some None => Some ([], Ok false)
      end
  end.

(** [isNewAttSlashable]. *)
Definition isNewAttSlashable (fuel : nat) (history : kv.EncHistoryData)
    (sourceEpoch targetEpoch : Z) (signingRoot : list Z)
  : option (list LogEntry * result bool) :=
  match history with
  | kv.Nil => Some ([], Ok false)
  | _ =>
      match kv.GetLatestEpochWritten history with
      | Err err => Some ([ErrorLatestEpochWritten err], Err err)
      | Ok latestEpochWritten =>
          if (wsPeriod <=? latestEpochWritten)
             && (targetEpoch <=? u64.sub latestEpochWritten wsPeriod)
          then Some ([], Ok false)
          else
            match kv.GetTargetData wsPeriod history targetEpoch with
            | Err err =>
                Some ([], Err (ErrWrapf err
                  "could not get target data for epoch: %d" targetEpoch))
            | Ok hd =>
                if negb (kv.IsEmpty hd)
                   && negb (bytesEqual signingRoot
                              (from_option kv.SigningRoot [] hd))
                then Some ([WarnDoubleVote signingRoot targetEpoch
                              (from_option kv.SigningRoot [] hd)], Ok true)
                else
                  match isSurroundVote fuel history latestEpochWritten
                          sourceEpoch targetEpoch with
                  | None => None
                  | Some (lg, Err err) =>
                      Some (lg, Err (ErrWrap err
                        "could not check if attestation is surround vote"))
                  | Some (lg, Ok isSurround) => Some (lg, Ok isSurround)
                  end
            end
      end
  end.

End protector.

(** *** The validator, its database and its collaborators *)

(** Modelled from the spec: the external slasher client ([v.protector]),
    an interface whose declaration is not part of the sources, as the
    answers of its two calls. *)
Record Protector : Type := mkProtector {
  CheckAttestationSafety : ethpb.IndexedAttestation -> bool;
  CommitAttestation : ethpb.IndexedAttestation -> bool
}.

(** The fields of [validator] that the check reads, with the feature flag
    [featureconfig.Get().SlasherProtection]. *)
Record validator : Type := mkValidator {
  emitAccountMetrics : bool;
  protector : option Protector;
  SlasherProtection : bool
}.

(** Modelled from the spec: the epoch history store behind [v.db].  A read
    or a write may fail with a storage error. *)
Record DB : Type := mkDB {
  contents : gmap (list Z) kv.EncHistoryData;
  readFault : option error;
  writeFault : option error
}.

(** What the check does to the outside, in the order it happens. *)
Inductive Event : Type :=
| EvLog (entry : LogEntry)
| EvAttestFailInc (pubKey : list Z)
| EvAttestFailSlasherInc (pubKey : list Z)
| EvSaveHistory (pubKey : list Z) (history : kv.EncHistoryData)
| EvCheckAttestationSafety (att : ethpb.IndexedAttestation)
| EvCommitAttestation (att : ethpb.IndexedAttestation).

Record State : Type := mkState {
  db : DB;
  trace : list Event
}.

(** Modelled from the spec: [AttestationHistoryForPubKeyV2] returns the
    all-empty history for a key that has none. *)
Definition AttestationHistoryForPubKeyV2 (d : DB) (pubKey : list Z)
  : result kv.EncHistoryData :=
  match readFault d with
  | Some err => Err err
  | None => Ok (default (kv.Enc kv.emptyHistory) (contents d !! pubKey))
  end.

(** Modelled from the spec: [SaveAttestationHistoryForPubKeyV2] replaces
    the whole history of the key. *)
Definition SaveAttestationHistoryForPubKeyV2 (d : DB) (pubKey : list Z)
    (history : kv.EncHistoryData) : result DB :=
  match writeFault d with
  | Some err => Err err
  | None =>
      Ok {| contents := <[pubKey := history]> (contents d);
            readFault := readFault d;
            writeFault := writeFault d |}
  end.

Definition emit (st : State) (evs : list Event) : State :=
  {| db := db st; trace := trace st ++ evs |}.

(** The part of [slashableAttestationCheck] that talks to the external
    slasher, after the history has been saved. *)
Definition externalCheck (v : validator) (st : State)
    (indexedAtt : ethpb.IndexedAttestation) (pubKey : list Z)
  : State * result unit :=
  match (if SlasherProtection v then protector v else None) with
  | None => (st, Ok tt)
  | Some p =>
      let st := emit st [EvCheckAttestationSafety indexedAtt] in
      if negb (CheckAttestationSafety p indexedAtt) then
        (emit st (if emitAccountMetrics v then [EvAttestFailSlasherInc pubKey] else []),
         Err (ErrNew failedPreAttSignExternalErr))
      else
        let st := emit st [EvCommitAttestation indexedAtt] in
        if negb (CommitAttestation p indexedAtt) then
          (emit st (if emitAccountMetrics v then [EvAttestFailSlasherInc pubKey] else []),
           Err (ErrNew failedPostAttSignExternalErr))
        else (st, Ok tt)
  end.

(** [slashableAttestationCheck].  The returned [result unit] is the Go
    [error]: [Ok tt] is [nil]. *)
Definition slashableAttestationCheck (wsPeriod : Z) (fuel : nat)
    (v : validator) (st : State) (indexedAtt : ethpb.IndexedAttestation)
    (pubKey signingRoot : list Z) : option (State * result unit) :=
  let sourceEpoch := ethpb.Epoch (ethpb.Source (ethpb.Data indexedAtt)) in
  let targetEpoch := ethpb.Epoch (ethpb.Target (ethpb.Data indexedAtt)) in
  match AttestationHistoryForPubKeyV2 (db st) pubKey with
  | Err err => Some (st, Err (ErrWrap err "could not get attester history"))
  | Ok attesterHistory =>
      match isNewAttSlashable wsPeriod fuel attesterHistory
              sourceEpoch targetEpoch signingRoot with
      | None => None
      | Some (lg, r) =>
          let st := emit st (EvLog <$> lg) in
          match r with
          | Err err =>
              Some (st, Err (ErrWrap err "could not check if attestation is slashable"))
          | Ok true =>
              Some (emit st (if emitAccountMetrics v then [EvAttestFailInc pubKey] else []),
                    Err (ErrNew failedAttLocalProtectionErr))
          | Ok false =>
              match kv.MarkAllAsAttestedSinceLatestWrittenEpoch wsPeriod
                      attesterHistory targetEpoch
                      {| kv.Source := sourceEpoch; kv.SigningRoot := signingRoot |} with
              | Err err =>
                  Some (st, Err (ErrWrapf err "could not mark epoch %d as attested"
                                   targetEpoch))
              | Ok newHistory =>
                  match SaveAttestationHistoryForPubKeyV2 (db st) pubKey newHistory with
                  | Err err =>
                      Some (st, Err (ErrWrap err
                        "could not save attestation history for public key"))
                  | Ok db' =>
                      let st := {| db := db';
                                   trace := trace st ++ [EvSaveHistory pubKey newHistory] |} in
                      Some (externalCheck v st indexedAtt pubKey)
                  end
              end
          end
      end
  end.

End client.

(** ** Bit vectors with a sentinel ([bitfield.Bitlist]) *)

Module bitfield.

(** The value of a byte slice read as a little-endian number: bit [i] of
    the bit vector is bit [i mod 8] of byte [i / 8].  Only the eight low
    bits of a byte count. *)
Fixpoint toZ (bs : list Z) : Z :=
  match bs with
  | [] => 0
  | b :: rest => Z.lor (Z.land b 255) (Z.shiftl (toZ rest) 8)
  end.

(** The [n] low bytes of a number. *)
Fixpoint ofZ (n : nat) (z : Z) : list Z :=
  match n with
  | O => []
  | S n' => Z.land z 255 :: ofZ n' (Z.shiftr z 8)
  end.

(** Modelled from the spec: the logical length of a bit vector is the
    index of its highest set bit, the sentinel (0 when no bit is set). *)
Definition Len (bs : list Z) : Z := Z.log2 (toZ bs).

(** Modelled from the spec: the flag bits, the sentinel masked out. *)
Definition flags (bs : list Z) : Z := Z.clearbit (toZ bs) (Len bs).

(** Modelled from the spec: the flag of committee member [i]. *)
Definition BitAt (bs : list Z) (i : Z) : bool := Z.testbit (flags bs) i.

(** Modelled from the spec: two vectors overlap when the intersection of
    their flag bits is not empty. *)
Definition Overlaps (a b : list Z) : bool :=
  negb (Z.land (flags a) (flags b) =? 0).

(** Modelled from the spec: [a] contains [b] when every flag bit of [b]
    is a flag bit of [a]. *)
Definition Contains (a b : list Z) : bool :=
  Z.land (flags a) (flags b) =? flags b.

(** Modelled from the spec: the union of the flag bits, with the sentinel
    set again at the length of [a], in as many bytes as [a] has. *)
Definition Or (a b : list Z) : list Z :=
  ofZ (length a) (Z.setbit (Z.lor (flags a) (flags b)) (Len a)).

End bitfield.

(** ** The attestation aggregator ([attaggregation]) *)

Module attaggregation.

(** Modelled from the spec: the vote content of an attestation. *)
Record Attestation : Type := mkAttestation {
  AggregationBits : list Z;
  sourceEpoch : Z;
  targetEpoch : Z;
  signingRoot : list Z
}.

#[global] Instance Attestation_eq_dec : EqDecision Attestation.
Proof. solve_decision. Defined.

(** The two errors that the tests compare with. *)
Definition ErrBitsDifferentLen : error :=
  ErrNew "different bitlist lengths".
Definition ErrBitsOverlap : error :=
  ErrNew "overlapping aggregation bits".

(** Modelled from the spec: [AggregatePair] (the spec's PairwiseMerge),
    whose code is not part of the sources.  The result carries the vote
    content of the first attestation. *)
Definition AggregatePair (a1 a2 : Attestation) : result Attestation :=
  if negb (bitfield.Len (AggregationBits a1) =? bitfield.Len (AggregationBits a2))
  then Err ErrBitsDifferentLen
  else if bitfield.Overlaps (AggregationBits a1) (AggregationBits a2)
  then Err ErrBitsOverlap
  else Ok {| AggregationBits := bitfield.Or (AggregationBits a1) (AggregationBits a2);
             sourceEpoch := sourceEpoch a1;
             targetEpoch := targetEpoch a1;
             signingRoot := signingRoot a1 |}.

(** Modelled from the spec: the attestation is merged into the first
    group it does not overlap, whose bits are replaced by the union; when
    it overlaps every group it starts a group of its own. *)
Fixpoint mergeIntoGroups (att : Attestation) (groups : list Attestation)
  : result (list Attestation) :=
  match groups with
  | [] => Ok [att]
  | g :: rest =>
      if bitfield.Overlaps (AggregationBits g) (AggregationBits att) then
        match mergeIntoGroups att rest with
        | Ok rest' => Ok (g :: rest')
        | Err err => Err err
        end
      else
        match AggregatePair g att with
        | Ok merged => Ok (merged :: rest)
        | Err err => Err err
        end
  end.

(** Modelled from the spec: the attestations of a class are processed in
    input order, starting from no group, each one going through
    [mergeIntoGroups].  The tests of the sources settle one point against
    the wording of the spec: an attestation whose bits a group already
    contains is not set aside when it is processed.  In the test "some
    attestations overlap" the third vector is contained in the union of
    the first two and is still merged with the fourth.  What another
    group contains is left out at the end, by [absorb]. *)
Fixpoint aggregateFrom (groups : list Attestation) (atts : list Attestation)
  : result (list Attestation) :=
  match atts with
  | [] => Ok groups
  | att :: rest =>
      match mergeIntoGroups att groups with
      | Ok groups' => aggregateFrom groups' rest
      | Err err => Err err
      end
  end.

(** Modelled from the spec: a group is put with the groups kept so far,
    unless one of them contains its bits (a duplicate or subsumed union is
    not emitted again); the groups kept so far that it contains are left
    out. *)
Definition absorbInto (kept : list Attestation) (g : Attestation)
  : list Attestation :=
  if existsb (fun k => bitfield.Contains (AggregationBits k) (AggregationBits g)) kept
  then kept
  else List.filter
         (fun k => negb (bitfield.Contains (AggregationBits g) (AggregationBits k)))
         kept ++ [g].

(** Modelled from the spec: duplicate elimination and subset absorption
    over the groups of a class, in the order of the groups. *)
Definition absorb (groups : list Attestation) : list Attestation :=
  fold_left absorbInto groups [].

(** Modelled from the spec: the aggregation of one length class: the
    groups that no other group contains. *)
Definition aggregateClass (atts : list Attestation) : result (list Attestation) :=
  match aggregateFrom [] atts with
  | Ok groups => Ok (absorb groups)
  | Err err => Err err
  end.

(** Modelled from the spec: the attestation belongs to the class of
    length [n]. *)
Definition hasLen (n : Z) (att : Attestation) : bool :=
  bitfield.Len (AggregationBits att) =? n.

(** Modelled from the spec: the logical lengths that occur in the input,
    each once, in the order of their first occurrence. *)
Fixpoint lengthClasses (atts : list Attestation) : list Z :=
  match atts with
  | [] => []
  | att :: rest =>
      let n := bitfield.Len (AggregationBits att) in
      n :: List.filter (fun m => negb (m =? n)) (lengthClasses rest)
  end.

(** Modelled from the spec: the outputs of the classes, one class after
    the other. *)
Fixpoint aggregateClasses (classes : list Z) (atts : list Attestation)
  : result (list Attestation) :=
  match classes with
  | [] => Ok []
  | n :: rest =>
      match aggregateClass (List.filter (hasLen n) atts) with
      | Err err => Err err
      | Ok out =>
          match aggregateClasses rest atts with
          | Err err => Err err
          | Ok outs => Ok (out ++ outs)
          end
      end
  end.

(** Modelled from the spec: [Aggregate] (the spec's FullAggregate), whose
    code is not part of the sources.  The input is partitioned by logical
    length and every class is aggregated on its own. *)
Definition Aggregate (atts : list Attestation) : result (list Attestation) :=
  aggregateClasses (lengthClasses atts) atts.

(** The inputs of the tests: an attestation for each bit vector. *)
Definition ofBits (b : list Z) : Attestation :=
  {| AggregationBits := b; sourceEpoch := 0; targetEpoch := 0; signingRoot := [] |}.

Definition makeAttestationsFromBitlists (bl : list (list Z)) : list Attestation :=
  map ofBits bl.

(** Modelled from the spec: a bit vector of logical length [n] with the
    flags of the number [fl], in [n / 8 + 1] bytes. *)
Definition bitlistOf (n : Z) (fl : Z) : list Z :=
  bitfield.ofZ (Z.to_nat (n / 8 + 1)) (Z.setbit fl n).

(** Modelled from the spec: the helper of the tests, not part of the
    sources, that gives the [n] bit vectors of length [n] with a single
    flag set. *)
Definition bitlistsWithSingleBitSet (n : nat) : list (list Z) :=
  map (fun i => bitlistOf (Z.of_nat n) (Z.setbit 0 (Z.of_nat i))) (seq 0 n).

(** Modelled from the spec: the helper of the tests, not part of the
    sources, that gives the bit vector of length [n] with every flag
    set. *)
Definition bitlistWithAllBitsSet (n : nat) : list Z :=
  bitlistOf (Z.of_nat n) (Z.ones (Z.of_nat n)).

(** *** Notions used in the statements *)

Definition lenOf (att : Attestation) : Z := bitfield.Len (AggregationBits att).
Definition flagsOf (att : Attestation) : Z := bitfield.flags (AggregationBits att).

(** Every flag bit of [a] is a flag bit of [g], a vector of the same
    length. *)
Definition covers (g a : Attestation) : Prop :=
  lenOf g = lenOf a /\ Z.land (flagsOf g) (flagsOf a) = flagsOf a.

(** No two of the attestations share a flag bit. *)
Definition disjointMembers (ms : list Attestation) : Prop :=
  ForallOrdPairs (fun x y => Z.land (flagsOf x) (flagsOf y) = 0) ms.

(** The union of the flag bits of the attestations. *)
Definition unionOf (ms : list Attestation) : Z :=
  fold_right (fun a acc => Z.lor (flagsOf a) acc) 0 ms.

(** The group [g] is the union of inputs of its own length, no two of
    which overlap. *)
Definition builtFrom (atts : list Attestation) (g : Attestation) : Prop :=
  exists ms, ms <> []
    /\ (forall m, In m ms -> In m atts /\ lenOf m = lenOf g)
    /\ disjointMembers ms
    /\ flagsOf g = unionOf ms.

(** The groups of a class of length [n] after the attestations [seen]:
    every group has length [n] and is the union of non-overlapping
    attestations that were seen, and every attestation seen has length [n]
    and is covered by a group. *)
Definition classInvariant (n : Z) (seen groups : list Attestation) : Prop :=
  (forall g, In g groups -> lenOf g = n /\ builtFrom seen g)
  /\ (forall a, In a seen -> lenOf a = n /\ exists g, In g groups /\ covers g a).

(** The groups of a result, none for an error. *)
Definition outputsOf (r : result (list Attestation)) : list Attestation :=
  match r with
  | Ok out => out
  | Err _ => []
  end.

(** No group of the list is covered by another one. *)
Definition noneSubsumed (out : list Attestation) : Prop :=
  ForallOrdPairs (fun x y => ~ covers x y /\ ~ covers y x) out.

End attaggregation.

(** ** Notions used in the statements about the protector *)

Module protect.

(** The epoch [i] lies inside the window of one weak-subjectivity period
    that ends at [latest]. *)
Definition inWindow (wsPeriod latest i : Z) : Prop :=
  ~ (wsPeriod <= latest /\ i <= latest - wsPeriod).

(** The history holds the non-empty record [hd] for the target epoch [i]:
    [i] is not after the latest written epoch, lies inside the window, and
    its slot is not empty. *)
Definition holdsRecord (wsPeriod : Z) (h : kv.AttestingHistory) (i : Z)
    (hd : kv.HistoryData) : Prop :=
  i <= kv.latestEpochWritten h
  /\ inWindow wsPeriod (kv.latestEpochWritten h) i
  /\ kv.slots h !! (i mod wsPeriod) = Some hd
  /\ kv.IsEmpty (Some hd) = false.

(** Some recorded vote with a target in [sourceEpoch..targetEpoch] is
    surrounded by the new vote. *)
Definition surroundsRecorded (wsPeriod : Z) (h : kv.AttestingHistory)
    (sourceEpoch targetEpoch : Z) : Prop :=
  exists i hd, sourceEpoch <= i <= targetEpoch
    /\ holdsRecord wsPeriod h i hd
    /\ sourceEpoch < kv.Source hd /\ i < targetEpoch.

(** Some recorded vote with a target in
    [targetEpoch..latestEpochWritten] surrounds the new vote. *)
Definition surroundedByRecorded (wsPeriod : Z) (h : kv.AttestingHistory)
    (sourceEpoch targetEpoch : Z) : Prop :=
  exists i hd, targetEpoch <= i <= kv.latestEpochWritten h
    /\ holdsRecord wsPeriod h i hd
    /\ kv.Source hd < sourceEpoch /\ targetEpoch < i.

(** [isSurroundVote] rejects the vote and logs a surrounding vote. *)
Definition rejectedSurrounding (wsPeriod : Z) (h : kv.AttestingHistory)
    (sourceEpoch targetEpoch : Z) : Prop :=
  exists fuel prevTarget prevSource,
    client.isSurroundVote wsPeriod fuel (kv.Enc h) (kv.latestEpochWritten h)
      sourceEpoch targetEpoch
    = Some ([client.WarnSurrounding targetEpoch sourceEpoch prevTarget prevSource],
            Ok true).

(** [isSurroundVote] rejects the vote and logs a surrounded vote. *)
Definition rejectedSurrounded (wsPeriod : Z) (h : kv.AttestingHistory)
    (sourceEpoch targetEpoch : Z) : Prop :=
  exists fuel prevTarget prevSource,
    client.isSurroundVote wsPeriod fuel (kv.Enc h) (kv.latestEpochWritten h)
      sourceEpoch targetEpoch
    = Some ([client.WarnSurrounded targetEpoch sourceEpoch prevTarget prevSource],
            Ok true).

(** [isNewAttSlashable] rejects the vote and logs a double vote. *)
Definition rejectedDoubleVote (wsPeriod : Z) (h : kv.AttestingHistory)
    (sourceEpoch targetEpoch : Z) (signingRoot : list Z) : Prop :=
  exists fuel previousRoot,
    client.isNewAttSlashable wsPeriod fuel (kv.Enc h) sourceEpoch targetEpoch signingRoot
    = Some ([client.WarnDoubleVote signingRoot targetEpoch previousRoot], Ok true).

(** The target epoch of the vote that the slot of [epoch] holds: the
    latest epoch that is not after [latest] and falls into the same slot. *)
Definition storedTargetEpoch (wsPeriod latest epoch : Z) : Z :=
  latest - (latest - epoch) mod wsPeriod.

(** The events that write the history, and those that call the external
    slasher. *)
Definition isHistoryWrite (ev : client.Event) : bool :=
  match ev with
  | client.EvSaveHistory _ _ => true
  | _ => false
  end.

Definition isSlasherCall (ev : client.Event) : bool :=
  match ev with
  | client.EvCheckAttestationSafety _ | client.EvCommitAttestation _ => true
  | _ => false
  end.

Definition isCommitCall (ev : client.Event) : bool :=
  match ev with
  | client.EvCommitAttestation _ => true
  | _ => false
  end.

(** The external slasher is consulted: the feature is on and a client is
    configured. *)
Definition slasherOf (v : client.validator) : option client.Protector :=
  if client.SlasherProtection v then client.protector v else None.

End protect.

(** ** Sample data *)

Module sample.

(** A vote with the given source and target epochs. *)
Definition vote (sourceEpoch targetEpoch : Z) : ethpb.IndexedAttestation :=
  {| ethpb.AttestingIndices := [];
     ethpb.Data :=
       {| ethpb.Slot := 0; ethpb.CommitteeIndex := 0; ethpb.BeaconBlockRoot := [];
          ethpb.Source := {| ethpb.Epoch := sourceEpoch; ethpb.Root := [] |};
          ethpb.Target := {| ethpb.Epoch := targetEpoch; ethpb.Root := [] |} |};
     ethpb.Signature := [] |}.

Definition pubKey : list Z := [1].
Definition rootA : list Z := [7].
Definition rootB : list Z := [9].

(** A history that has recorded the vote [(4, 5)] with root [rootA]. *)
Definition history5 : kv.AttestingHistory :=
  {| kv.latestEpochWritten := 5;
     kv.slots := {[ 5 := {| kv.Source := 4; kv.SigningRoot := rootA |} ]} |}.

(** With a period of 8: the records of the target epochs 16 (source 15)
    and 20 (source 3). *)
Definition historyBoth : kv.AttestingHistory :=
  {| kv.latestEpochWritten := 20;
     kv.slots := {[ 0 := {| kv.Source := 15; kv.SigningRoot := rootA |};
                    4 := {| kv.Source := 3; kv.SigningRoot := rootB |} ]} |}.

(** With a period of 8: the record of the target epoch 20 (source 3). *)
Definition historySurrounded : kv.AttestingHistory :=
  {| kv.latestEpochWritten := 20;
     kv.slots := {[ 4 := {| kv.Source := 3; kv.SigningRoot := rootB |} ]} |}.

(** With a period of 8: a record at slot 3 whose source epoch is 7, the
    latest written epoch being 10. *)
Definition historyWrap : kv.AttestingHistory :=
  {| kv.latestEpochWritten := 10;
     kv.slots := {[ 3 := {| kv.Source := 7; kv.SigningRoot := rootA |} ]} |}.

(** A database without any history. *)
Definition freshState : client.State :=
  {| client.db := {| client.contents := ∅;
                     client.readFault := None;
                     client.writeFault := None |};
     client.trace := [] |}.

Definition stateOf (hist : kv.EncHistoryData) : client.State :=
  {| client.db := {| client.contents := {[ pubKey := hist ]};
                     client.readFault := None;
                     client.writeFault := None |};
     client.trace := [] |}.

(** A validator without an external slasher. *)
Definition localOnly : client.validator :=
  {| client.emitAccountMetrics := true;
     client.protector := None;
     client.SlasherProtection := false |}.

(** A validator whose external slasher refuses every vote. *)
Definition refusing : client.validator :=
  {| client.emitAccountMetrics := true;
     client.protector :=
       Some {| client.CheckAttestationSafety := fun _ => false;
               client.CommitAttestation := fun _ => false |};
     client.SlasherProtection := true |}.

End sample.

(** The epochs and the record of a vote. *)
Definition sourceOf (att : ethpb.IndexedAttestation) : Z :=
  ethpb.Epoch (ethpb.Source (ethpb.Data att)).
Definition targetOf (att : ethpb.IndexedAttestation) : Z :=
  ethpb.Epoch (ethpb.Target (ethpb.Data att)).
Definition voteOf (att : ethpb.IndexedAttestation) (signingRoot : list Z)
  : kv.HistoryData :=
  {| kv.Source := sourceOf att; kv.SigningRoot := signingRoot |}.

(** The state after a successful save of [newHistory]. *)
Definition saved (st : client.State) (pubKey : list Z)
    (newHistory : kv.EncHistoryData) : client.State :=
  {| client.db :=
       {| client.contents := <[pubKey := newHistory]> (client.contents (client.db st));
          client.readFault := client.readFault (client.db st);
          client.writeFault := client.writeFault (client.db st) |};
     client.trace := client.trace st ++ [client.EvSaveHistory pubKey newHistory] |}.

(** ** Notions used in the statements about the verdict of the local check *)

Module verdict.

(** The slot of [targetEpoch] holds a non-empty record with another
    signing root. *)
Definition conflictingRoot (wsPeriod : Z) (h : kv.AttestingHistory)
    (targetEpoch : Z) (signingRoot : list Z) : Prop :=
  exists hd, kv.slots h !! (targetEpoch mod wsPeriod) = Some hd
    /\ kv.IsEmpty (Some hd) = false
    /\ kv.SigningRoot hd <> signingRoot.

(** One of the three tests of the local check fires on the vote. *)
Definition slashableAgainst (wsPeriod : Z) (h : kv.AttestingHistory)
    (sourceEpoch targetEpoch : Z) (signingRoot : list Z) : Prop :=
  conflictingRoot wsPeriod h targetEpoch signingRoot
  \/ protect.surroundsRecorded wsPeriod h sourceEpoch targetEpoch
  \/ protect.surroundedByRecorded wsPeriod h sourceEpoch targetEpoch.

(** [isNewAttSlashable] returns [b] with no error. *)
Definition answers (wsPeriod : Z) (h : kv.AttestingHistory)
    (sourceEpoch targetEpoch : Z) (signingRoot : list Z) (b : bool) : Prop :=
  exists fuel lg,
    client.isNewAttSlashable wsPeriod fuel (kv.Enc h) sourceEpoch targetEpoch signingRoot
    = Some (lg, Ok b).

(** [isSurroundVote] returns [false] with no error and an empty log. *)
Definition passesSurround (wsPeriod : Z) (h : kv.AttestingHistory)
    (sourceEpoch targetEpoch : Z) : Prop :=
  exists fuel,
    client.isSurroundVote wsPeriod fuel (kv.Enc h) (kv.latestEpochWritten h)
      sourceEpoch targetEpoch = Some ([], Ok false).

(** No slot of the history holds a vote. *)
Definition unvoted (h : kv.AttestingHistory) : Prop :=
  forall k hd, kv.slots h !! k = Some hd -> kv.IsEmpty (Some hd) = true.

End verdict.

(** ** Notions used in the statements about the effects of the check *)

Module effects.

(** The counters that a rejection increments. *)
Definition failCount (v : client.validator) (pubKey : list Z) : list client.Event :=
  if client.emitAccountMetrics v then [client.EvAttestFailInc pubKey] else [].

Definition slasherFailCount (v : client.validator) (pubKey : list Z)
  : list client.Event :=
  if client.emitAccountMetrics v then [client.EvAttestFailSlasherInc pubKey] else [].

(** The calls to the external slasher that an accepted vote makes. *)
Definition slasherCalls (v : client.validator) (att : ethpb.IndexedAttestation)
  : list client.Event :=
  match protect.slasherOf v with
  | Some _ => [client.EvCheckAttestationSafety att; client.EvCommitAttestation att]
  | None => []
  end.

(** The ways [slashableAttestationCheck] ends, one for each [return] of
    the function, the last one standing for the three of the external
    part. *)
Inductive ending (wsPeriod : Z) (fuel : nat) (v : client.validator)
    (st : client.State) (att : ethpb.IndexedAttestation)
    (pubKey signingRoot : list Z) : client.State -> result unit -> Prop :=
| EndReadFault err :
    client.readFault (client.db st) = Some err ->
    ending wsPeriod fuel v st att pubKey signingRoot
      st (Err (ErrWrap err "could not get attester history"))
| EndCheckFailed hist lg err :
    client.AttestationHistoryForPubKeyV2 (client.db st) pubKey = Ok hist ->
    client.isNewAttSlashable wsPeriod fuel hist (sourceOf att) (targetOf att)
      signingRoot = Some (lg, Err err) ->
    ending wsPeriod fuel v st att pubKey signingRoot
      (client.emit st (client.EvLog <$> lg))
      (Err (ErrWrap err "could not check if attestation is slashable"))
| EndSlashable hist lg :
    client.AttestationHistoryForPubKeyV2 (client.db st) pubKey = Ok hist ->
    client.isNewAttSlashable wsPeriod fuel hist (sourceOf att) (targetOf att)
      signingRoot = Some (lg, Ok true) ->
    ending wsPeriod fuel v st att pubKey signingRoot
      (client.emit st ((client.EvLog <$> lg) ++ failCount v pubKey))
      (Err (ErrNew client.failedAttLocalProtectionErr))
| EndMarkFailed hist lg err :
    client.AttestationHistoryForPubKeyV2 (client.db st) pubKey = Ok hist ->
    client.isNewAttSlashable wsPeriod fuel hist (sourceOf att) (targetOf att)
      signingRoot = Some (lg, Ok false) ->
    kv.MarkAllAsAttestedSinceLatestWrittenEpoch wsPeriod hist (targetOf att)
      (voteOf att signingRoot) = Err err ->
    ending wsPeriod fuel v st att pubKey signingRoot
      (client.emit st (client.EvLog <$> lg))
      (Err (ErrWrapf err "could not mark epoch %d as attested" (targetOf att)))
| EndWriteFault hist lg newHistory err msg :
    client.AttestationHistoryForPubKeyV2 (client.db st) pubKey = Ok hist ->
    client.isNewAttSlashable wsPeriod fuel hist (sourceOf att) (targetOf att)
      signingRoot = Some (lg, Ok false) ->
    kv.MarkAllAsAttestedSinceLatestWrittenEpoch wsPeriod hist (targetOf att)
      (voteOf att signingRoot) = Ok newHistory ->
    client.writeFault (client.db st) = Some err ->
    ending wsPeriod fuel v st att pubKey signingRoot
      (client.emit st (client.EvLog <$> lg))
      (Err (ErrWrap err msg))
| EndSaved hist lg newHistory st' res :
    client.AttestationHistoryForPubKeyV2 (client.db st) pubKey = Ok hist ->
    client.isNewAttSlashable wsPeriod fuel hist (sourceOf att) (targetOf att)
      signingRoot = Some (lg, Ok false) ->
    kv.MarkAllAsAttestedSinceLatestWrittenEpoch wsPeriod hist (targetOf att)
      (voteOf att signingRoot) = Ok newHistory ->
    client.writeFault (client.db st) = None ->
    client.externalCheck v
      (saved (client.emit st (client.EvLog <$> lg)) pubKey newHistory) att pubKey
      = (st', res) ->
    ending wsPeriod fuel v st att pubKey signingRoot st' res.

End effects.

(** ** More sample data *)

Module fixture.

(** A validator whose external slasher agrees with every vote. *)
Definition agreeing : client.validator :=
  {| client.emitAccountMetrics := true;
     client.protector :=
       Some {| client.CheckAttestationSafety := fun _ => true;
               client.CommitAttestation := fun _ => true |};
     client.SlasherProtection := true |}.

(** A validator whose external slasher passes the pre-check and refuses
    the commit. *)
Definition commitRefusing : client.validator :=
  {| client.emitAccountMetrics := true;
     client.protector :=
       Some {| client.CheckAttestationSafety := fun _ => true;
               client.CommitAttestation := fun _ => false |};
     client.SlasherProtection := true |}.

Definition ioError : error := ErrNew "input/output error".

(** A database that cannot be read, and one that cannot be written. *)
Definition unreadable (hist : kv.EncHistoryData) : client.State :=
  {| client.db := {| client.contents := {[ sample.pubKey := hist ]};
                     client.readFault := Some ioError;
                     client.writeFault := None |};
     client.trace := [] |}.

Definition readOnly (hist : kv.EncHistoryData) : client.State :=
  {| client.db := {| client.contents := {[ sample.pubKey := hist ]};
                     client.readFault := None;
                     client.writeFault := Some ioError |};
     client.trace := [] |}.

(** With a period of 8: a fresh database after the vote [(4, 5)] with
    root [rootA] was accepted. *)
Definition afterVote45 : client.State :=
  saved sample.freshState sample.pubKey
    (kv.Enc (kv.markHistory 8 kv.emptyHistory 5
               {| kv.Source := 4; kv.SigningRoot := sample.rootA |})).

End fixture.

(** * Properties of the slashing protector *)

(** ** The loop combinator *)

Section loops.

Context {A : Type}.
Implicit Types (body : Z -> step A) (fuel : nat) (hi i : Z).

Lemma forU64_exit fuel hi body i :
  hi < i -> forU64 fuel hi body i = Some None.
Proof.
  intros Hlt. destruct fuel; simpl; destruct (Z.ltb_spec hi i); auto; lia.
Qed.

Lemma forU64_unfold fuel hi body i :
  i <= hi ->
  forU64 (S fuel) hi body i =
    match body i with
    | Return a => Some (Some a)
    | Continue => forU64 fuel hi body (u64.incr i)
    end.
Proof.
  intros Hle. simpl. destruct (Z.ltb_spec hi i); [lia | reflexivity].
Qed.

Lemma incr_small i : 0 <= i < u64.MaxUint64 -> u64.incr i = i + 1.
Proof.
  unfold u64.incr, u64.wrap, u64.MaxUint64. intros Hi.
  apply Z.mod_small. lia.
Qed.

Lemma incr_max : u64.incr u64.MaxUint64 = 0.
Proof. reflexivity. Qed.

(** More fuel never changes the result of a loop that has finished. *)
Lemma forU64_fuel_mono fuel hi body i r :
  forU64 fuel hi body i = Some r ->
  forall fuel', (fuel <= fuel')%nat -> forU64 fuel' hi body i = Some r.
Proof.
  revert i. induction fuel as [|fuel IH]; intros i Hrun fuel' Hle.
  - simpl in Hrun. destruct (Z.ltb_spec hi i); [|discriminate].
    rewrite forU64_exit by assumption. assumption.
  - destruct fuel' as [|fuel']; [lia|].
    simpl in *. destruct (hi <? i); [assumption|].
    destruct (body i); [|assumption].
    apply IH; [assumption | lia].
Qed.

(** The loop runs over [lo..hi] without wrapping when [hi] is not the
    largest [uint64]: [hi - lo + 1] executions of the body are enough. *)
Lemma forU64_terminates hi body :
  hi < u64.MaxUint64 ->
  forall (n : nat) lo, 0 <= lo -> hi - lo + 1 <= Z.of_nat n ->
  exists r, forU64 n hi body lo = Some r.
Proof.
  intros Hhi. induction n as [|n IH]; intros lo Hlo Hn.
  - exists None. apply forU64_exit. lia.
  - destruct (Z.lt_ge_cases hi lo) as [Hout|Hin].
    + exists None. apply forU64_exit. assumption.
    + rewrite forU64_unfold by assumption.
      destruct (body lo) as [|a]; [|eauto].
      rewrite incr_small by lia. apply IH; lia.
Qed.

(** While the body falls through and the counter does not wrap, the loop
    moves on. *)
Lemma forU64_skip hi body (n : nat) :
  forall i fuel,
  0 <= i -> i + Z.of_nat n <= u64.MaxUint64 -> i + Z.of_nat n <= hi + 1 ->
  (forall j, i <= j < i + Z.of_nat n -> body j = Continue) ->
  forU64 (n + fuel) hi body i = forU64 fuel hi body (i + Z.of_nat n).
Proof.
  induction n as [|n IH]; intros i fuel Hi Hmax Hhi Hskip.
  - simpl (0 + fuel)%nat. f_equal. lia.
  - change (S n + fuel)%nat with (S (n + fuel)).
    rewrite forU64_unfold by lia.
    rewrite Hskip by lia.
    rewrite incr_small by lia.
    rewrite IH; try lia.
    + f_equal. lia.
    + intros j Hj. apply Hskip. lia.
Qed.

(** A loop that returns does so at the first index of its range where the
    body returns. *)
Lemma forU64_returns_inv hi body :
  hi < u64.MaxUint64 ->
  forall fuel lo a, 0 <= lo ->
  forU64 fuel hi body lo = Some (Some a) ->
  exists i, lo <= i <= hi /\ body i = Return a
            /\ forall j, lo <= j < i -> body j = Continue.
Proof.
  intros Hhi. induction fuel as [|fuel IH]; intros lo a Hlo Hrun.
  - simpl in Hrun. destruct (hi <? lo); discriminate.
  - destruct (Z.lt_ge_cases hi lo) as [Hout|Hin].
    + rewrite forU64_exit in Hrun by assumption. discriminate.
    + rewrite forU64_unfold in Hrun by assumption.
      destruct (body lo) as [|b] eqn:Hb.
      * rewrite incr_small in Hrun by lia.
        destruct (IH (lo + 1) a ltac:(lia) Hrun) as (i & Hi & Hret & Hbefore).
        exists i. split; [lia|]. split; [assumption|].
        intros j Hj. destruct (Z.eq_dec j lo) as [->|Hne]; [assumption|].
        apply Hbefore. lia.
      * injection Hrun as ->. exists lo. split; [lia|]. split; [assumption|].
        intros j Hj. lia.
Qed.

(** A loop that is left normally met no returning body in its range. *)
Lemma forU64_falls_through_inv hi body :
  hi < u64.MaxUint64 ->
  forall fuel lo, 0 <= lo ->
  forU64 fuel hi body lo = Some None ->
  forall j, lo <= j <= hi -> body j = Continue.
Proof.
  intros Hhi. induction fuel as [|fuel IH]; intros lo Hlo Hrun j Hj.
  - simpl in Hrun. destruct (Z.ltb_spec hi lo); [lia | discriminate].
  - rewrite forU64_unfold in Hrun by lia.
    destruct (body lo) as [|b] eqn:Hb; [|discriminate].
    rewrite incr_small in Hrun by lia.
    destruct (Z.eq_dec j lo) as [->|Hne]; [assumption|].
    apply (IH (lo + 1)); [lia | assumption | lia].
Qed.

(** The loop returns at the first index where the body does. *)
Lemma forU64_returns hi body lo i a :
  0 <= lo -> lo <= i <= hi -> i <= u64.MaxUint64 ->
  body i = Return a ->
  (forall j, lo <= j < i -> body j = Continue) ->
  forU64 (Z.to_nat (i - lo + 1)) hi body lo = Some (Some a).
Proof.
  intros Hlo Hi Hmax Hret Hbefore.
  replace (Z.to_nat (i - lo + 1)) with (Z.to_nat (i - lo) + 1)%nat by lia.
  rewrite forU64_skip; rewrite ?Z2Nat.id; try lia.
  - replace (lo + (i - lo)) with i by lia.
    rewrite forU64_unfold by lia. rewrite Hret. reflexivity.
  - intros j Hj. apply Hbefore. lia.
Qed.

(** The loop is left normally when no body in its range returns. *)
Lemma forU64_falls_through hi body lo :
  hi < u64.MaxUint64 -> 0 <= lo ->
  (forall j, lo <= j <= hi -> body j = Continue) ->
  forU64 (Z.to_nat (hi - lo + 1)) hi body lo = Some None.
Proof.
  intros Hhi Hlo Hall.
  destruct (Z.lt_ge_cases hi lo) as [Hout|Hin].
  - apply forU64_exit. assumption.
  - replace (Z.to_nat (hi - lo + 1)) with (Z.to_nat (hi - lo + 1) + 0)%nat by lia.
    rewrite forU64_skip; rewrite ?Z2Nat.id; try lia.
    + apply forU64_exit. lia.
    + intros j Hj. apply Hall. lia.
Qed.

End loops.

(** ** Termination of the surround scans *)

Section protector_termination.

Variable wsPeriod : Z.

(** C10.  When [targetEpoch] and [latestEpochWritten] are below the
    largest [uint64], [isSurroundVote] terminates, for every history: the
    first scan ends within [targetEpoch - sourceEpoch + 1] executions of
    its body, the second within [latestEpochWritten - targetEpoch + 1],
    none at all when the lower bound exceeds the upper one, and the
    function returns once both bounds are allowed. *)
Theorem isSurroundVote_terminates (history : kv.EncHistoryData)
    (latestEpochWritten sourceEpoch targetEpoch : Z) :
  0 < wsPeriod ->
  0 <= sourceEpoch ->
  0 <= targetEpoch < u64.MaxUint64 ->
  latestEpochWritten < u64.MaxUint64 ->
  (targetEpoch < sourceEpoch ->
   forU64 0 targetEpoch
     (client.surroundingBody wsPeriod history latestEpochWritten
        sourceEpoch targetEpoch) sourceEpoch = Some None)
  /\ (latestEpochWritten < targetEpoch ->
      forU64 0 latestEpochWritten
        (client.surroundedBody wsPeriod history latestEpochWritten
           sourceEpoch targetEpoch) targetEpoch = Some None)
  /\ (exists r, forU64 (Z.to_nat (targetEpoch - sourceEpoch + 1)) targetEpoch
               (client.surroundingBody wsPeriod history latestEpochWritten
                  sourceEpoch targetEpoch) sourceEpoch = Some r)
  /\ (exists r, forU64 (Z.to_nat (latestEpochWritten - targetEpoch + 1))
                  latestEpochWritten
                  (client.surroundedBody wsPeriod history latestEpochWritten
                     sourceEpoch targetEpoch) targetEpoch = Some r)
  /\ (exists r, client.isSurroundVote wsPeriod
                  (Z.to_nat (Z.max (targetEpoch - sourceEpoch + 1)
                                   (latestEpochWritten - targetEpoch + 1)))
                  history latestEpochWritten sourceEpoch targetEpoch = Some r).
Proof.
  intros _ Hs Ht Hl.
  split; [intros Hempty; apply forU64_exit; assumption|].
  split; [intros Hempty; apply forU64_exit; assumption|].
  set (n1 := Z.to_nat (targetEpoch - sourceEpoch + 1)).
  set (n2 := Z.to_nat (latestEpochWritten - targetEpoch + 1)).
  set (n := Z.to_nat (Z.max (targetEpoch - sourceEpoch + 1)
                            (latestEpochWritten - targetEpoch + 1))).
  destruct (forU64_terminates targetEpoch
              (client.surroundingBody wsPeriod history latestEpochWritten
                 sourceEpoch targetEpoch) ltac:(lia) n1 sourceEpoch Hs ltac:(lia))
    as [r1 Hr1].
  destruct (forU64_terminates latestEpochWritten
              (client.surroundedBody wsPeriod history latestEpochWritten
                 sourceEpoch targetEpoch) Hl n2 targetEpoch ltac:(lia) ltac:(lia))
    as [r2 Hr2].
  split; [eauto|]. split; [eauto|].
  unfold client.isSurroundVote.
  rewrite (forU64_fuel_mono _ _ _ _ _ Hr1 n) by lia.
  destruct r1 as [r|]; [eauto|].
  rewrite (forU64_fuel_mono _ _ _ _ _ Hr2 n) by lia.
  destruct r2 as [r|]; eauto.
Qed.

End protector_termination.

Lemma isSurroundVote_terminates_witness :
  (9 < 4 ->
   forU64 0 9 (client.surroundingBody 8 (kv.Enc kv.emptyHistory) 12 4 9) 4 = Some None)
  /\ (12 < 9 ->
      forU64 0 12 (client.surroundedBody 8 (kv.Enc kv.emptyHistory) 12 4 9) 9 = Some None)
  /\ (exists r, forU64 (Z.to_nat (9 - 4 + 1)) 9
               (client.surroundingBody 8 (kv.Enc kv.emptyHistory) 12 4 9) 4 = Some r)
  /\ (exists r, forU64 (Z.to_nat (12 - 9 + 1)) 12
                  (client.surroundedBody 8 (kv.Enc kv.emptyHistory) 12 4 9) 9 = Some r)
  /\ (exists r, client.isSurroundVote 8 (Z.to_nat (Z.max (9 - 4 + 1) (12 - 9 + 1)))
                  (kv.Enc kv.emptyHistory) 12 4 9 = Some r).
Proof.
  apply (isSurroundVote_terminates 8 (kv.Enc kv.emptyHistory) 12 4 9);
    unfold u64.MaxUint64; lia.
Defined.

(** ** The stale rule and the absent history *)

Lemma sub_exact a b :
  0 <= b <= a -> a <= u64.MaxUint64 -> u64.sub a b = a - b.
Proof.
  unfold u64.sub, u64.wrap, u64.MaxUint64. intros Hb Ha.
  apply Z.mod_small. lia.
Qed.

Lemma differenceOutside_true wsPeriod latest target :
  0 <= wsPeriod -> latest <= u64.MaxUint64 ->
  client.differenceOutsideWeakSubjectivityBounds wsPeriod latest target = true
  <-> wsPeriod <= latest /\ target <= latest - wsPeriod.
Proof.
  intros Hp Hl. unfold client.differenceOutsideWeakSubjectivityBounds.
  rewrite andb_true_iff, Z.leb_le. split.
  - intros [Hge Hle]. rewrite sub_exact in Hle by lia.
    apply Z.leb_le in Hle. lia.
  - intros [Hge Hle]. split; [assumption|].
    rewrite sub_exact by lia. apply Z.leb_le. lia.
Qed.

Lemma differenceOutside_false wsPeriod latest target :
  0 <= wsPeriod -> latest <= u64.MaxUint64 ->
  client.differenceOutsideWeakSubjectivityBounds wsPeriod latest target = false
  <-> protect.inWindow wsPeriod latest target.
Proof.
  intros Hp Hl. unfold protect.inWindow.
  rewrite <- (differenceOutside_true wsPeriod latest target Hp Hl).
  destruct (client.differenceOutsideWeakSubjectivityBounds wsPeriod latest target);
    split; intros H; congruence.
Qed.

Section protector_stale.

Variable wsPeriod : Z.

(** C3.  A vote whose target is at least one weak-subjectivity period
    behind the latest written epoch is not slashable: the stale test of
    [differenceOutsideWeakSubjectivityBounds] holds, and [isNewAttSlashable]
    returns [false] with no error and an empty log whatever the source
    epoch, the signing root and the stored records are, without running a
    single iteration of the surround scans (any [fuel], also none, will
    do). *)
Theorem stale_vote_not_slashable (fuel : nat) (h : kv.AttestingHistory)
    (sourceEpoch targetEpoch : Z) (signingRoot : list Z) :
  0 <= wsPeriod ->
  kv.latestEpochWritten h <= u64.MaxUint64 ->
  wsPeriod <= kv.latestEpochWritten h ->
  targetEpoch <= kv.latestEpochWritten h - wsPeriod ->
  client.differenceOutsideWeakSubjectivityBounds wsPeriod
    (kv.latestEpochWritten h) targetEpoch = true
  /\ client.isNewAttSlashable wsPeriod fuel (kv.Enc h)
       sourceEpoch targetEpoch signingRoot = Some ([], Ok false)
  /\ forall slots',
       client.isNewAttSlashable wsPeriod 0
         (kv.Enc {| kv.latestEpochWritten := kv.latestEpochWritten h;
                    kv.slots := slots' |})
         sourceEpoch targetEpoch signingRoot = Some ([], Ok false).
Proof.
  intros Hp Hmax Hge Hle.
  assert (Hstale : client.differenceOutsideWeakSubjectivityBounds wsPeriod
                     (kv.latestEpochWritten h) targetEpoch = true)
    by (apply differenceOutside_true; auto).
  split; [assumption|].
  unfold client.differenceOutsideWeakSubjectivityBounds in Hstale.
  split.
  - unfold client.isNewAttSlashable, kv.GetLatestEpochWritten.
    cbv beta iota. rewrite Hstale. reflexivity.
  - intros slots'. unfold client.isNewAttSlashable, kv.GetLatestEpochWritten.
    cbv beta iota. simpl kv.latestEpochWritten in *.
    rewrite Hstale. reflexivity.
Qed.

End protector_stale.

(** A history that has written epoch 20 with a period of 8: a vote for
    target 12 is stale. *)
Lemma stale_vote_not_slashable_witness :
  client.differenceOutsideWeakSubjectivityBounds 8 20 12 = true
  /\ client.isNewAttSlashable 8 0
       (kv.Enc {| kv.latestEpochWritten := 20;
                  kv.slots := {[ 4 := {| kv.Source := 11; kv.SigningRoot := [1] |} ]} |})
       3 12 [2] = Some ([], Ok false)
  /\ forall slots',
       client.isNewAttSlashable 8 0
         (kv.Enc {| kv.latestEpochWritten := 20; kv.slots := slots' |})
         3 12 [2] = Some ([], Ok false).
Proof.
  apply (stale_vote_not_slashable 8 0
           {| kv.latestEpochWritten := 20;
              kv.slots := {[ 4 := {| kv.Source := 11; kv.SigningRoot := [1] |} ]} |}
           3 12 [2]); simpl; unfold u64.MaxUint64; lia.
Defined.

(** ** Effects of the check on the database and on the external slasher *)

Section protector_effects.

Variable wsPeriod : Z.

Implicit Types (v : client.validator) (st : client.State)
  (att : ethpb.IndexedAttestation) (pubKey signingRoot : list Z).

(** A history marked with a vote holds that vote at the target's slot. *)
Lemma marked_history_records_vote (hist newHistory : kv.EncHistoryData)
    (target : Z) (vote : kv.HistoryData) :
  kv.MarkAllAsAttestedSinceLatestWrittenEpoch wsPeriod hist target vote = Ok newHistory ->
  kv.GetTargetData wsPeriod newHistory target = Ok (Some vote).
Proof.
  destruct hist as [| |h]; simpl; intros Hmark; try discriminate;
    injection Hmark as <-; simpl; rewrite lookup_insert_eq; reflexivity.
Qed.

Lemma filter_app_nil {B : Type} (f : B -> bool) (l extra : list B) :
  List.filter f extra = [] -> List.filter f (l ++ extra) = List.filter f l.
Proof.
  intros Hnil. rewrite List.filter_app, Hnil. apply app_nil_r.
Qed.

Lemma filter_logs (f : client.Event -> bool) (lg : list client.LogEntry) :
  (forall entry, f (client.EvLog entry) = false) ->
  List.filter f (client.EvLog <$> lg) = [].
Proof.
  intros Hf. induction lg as [|entry lg IH]; simpl; [reflexivity|].
  rewrite Hf. exact IH.
Qed.

(** The external part returns [nil] only when every configured check
    agreed. *)
Lemma externalCheck_accepts v st att pubKey st' :
  client.externalCheck v st att pubKey = (st', Ok tt) ->
  forall p, protect.slasherOf v = Some p ->
  client.CheckAttestationSafety p att = true /\ client.CommitAttestation p att = true.
Proof.
  unfold client.externalCheck, protect.slasherOf. intros Hres p Hp.
  rewrite Hp in Hres.
  destruct (client.CheckAttestationSafety p att); simpl in Hres; [|discriminate].
  destruct (client.CommitAttestation p att); simpl in Hres; [|discriminate].
  split; reflexivity.
Qed.

(** C4.  Take the history that the database returns for the key and the
    verdict of the local check on it.
    - When the vote is slashable, the check returns the local-protection
      error; the database is unchanged, and the trace grows by the log
      lines and the failure counter only: no history write, no call to the
      external slasher.
    - When the vote passes locally, is marked and saved, and the external
      pre-check refuses it, the check returns the pre-check error; the
      database already holds the marked history for the key, that history
      records the vote at the target's slot, the save comes before the
      pre-check in the trace, and the commit call is not made.
    - The check returns [nil] only when the local check did not find the
      vote slashable and every configured external check agreed: every
      rejection returns an error. *)
Theorem slashableAttestationCheck_effects (fuel : nat) v st att pubKey signingRoot
    (hist : kv.EncHistoryData) (lg : list client.LogEntry) (r : result bool) :
  0 < wsPeriod ->
  client.AttestationHistoryForPubKeyV2 (client.db st) pubKey = Ok hist ->
  client.isNewAttSlashable wsPeriod fuel hist (sourceOf att) (targetOf att) signingRoot
    = Some (lg, r) ->
  exists st' res,
    client.slashableAttestationCheck wsPeriod fuel v st att pubKey signingRoot
      = Some (st', res)
    /\ (r = Ok true ->
        res = Err (ErrNew client.failedAttLocalProtectionErr)
        /\ client.db st' = client.db st
        /\ client.trace st' =
             client.trace st ++ (client.EvLog <$> lg)
               ++ (if client.emitAccountMetrics v
                   then [client.EvAttestFailInc pubKey] else [])
        /\ List.filter protect.isHistoryWrite (client.trace st')
           = List.filter protect.isHistoryWrite (client.trace st)
        /\ List.filter protect.isSlasherCall (client.trace st')
           = List.filter protect.isSlasherCall (client.trace st))
    /\ (r = Ok false ->
        forall newHistory p,
        kv.MarkAllAsAttestedSinceLatestWrittenEpoch wsPeriod hist (targetOf att)
          (voteOf att signingRoot) = Ok newHistory ->
        client.writeFault (client.db st) = None ->
        protect.slasherOf v = Some p ->
        client.CheckAttestationSafety p att = false ->
        res = Err (ErrNew client.failedPreAttSignExternalErr)
        /\ client.contents (client.db st') !! pubKey = Some newHistory
        /\ kv.GetTargetData wsPeriod newHistory (targetOf att)
           = Ok (Some (voteOf att signingRoot))
        /\ client.trace st' =
             client.trace st ++ (client.EvLog <$> lg)
               ++ [client.EvSaveHistory pubKey newHistory;
                   client.EvCheckAttestationSafety att]
               ++ (if client.emitAccountMetrics v
                   then [client.EvAttestFailSlasherInc pubKey] else [])
        /\ List.filter protect.isCommitCall (client.trace st')
           = List.filter protect.isCommitCall (client.trace st))
    /\ (res = Ok tt ->
        r = Ok false
        /\ forall p, protect.slasherOf v = Some p ->
           client.CheckAttestationSafety p att = true
           /\ client.CommitAttestation p att = true).
Proof.
  intros _ Hload Hcheck.
  unfold client.slashableAttestationCheck.
  fold (sourceOf att) (targetOf att). rewrite Hload, Hcheck.
  destruct r as [[|]|err].
  - (* slashable *)
    eexists _, _. split; [reflexivity|].
    split; [|split; [discriminate | discriminate]].
    intros _. split; [reflexivity|]. split; [reflexivity|].
    simpl. rewrite <- app_assoc. split; [reflexivity|].
    split; apply filter_app_nil; rewrite List.filter_app, filter_logs by reflexivity;
      destruct (client.emitAccountMetrics v); reflexivity.
  - (* not slashable *)
    fold (voteOf att signingRoot).
    destruct (kv.MarkAllAsAttestedSinceLatestWrittenEpoch wsPeriod hist (targetOf att)
                (voteOf att signingRoot)) as [newHistory|err] eqn:Hmark.
    + unfold client.SaveAttestationHistoryForPubKeyV2.
      cbn [client.db client.emit client.trace].
      destruct (client.writeFault (client.db st)) as [err|] eqn:Hwrite.
      * eexists _, _. split; [reflexivity|].
        split; [discriminate|]. split; [|discriminate].
        intros _ newHistory' p _ Hnofault. discriminate.
      * simpl client.db. simpl client.trace.
        destruct (client.externalCheck v _ att pubKey) as [st' res] eqn:Hext.
        exists st', res. split; [reflexivity|].
        split; [discriminate|]. split.
        -- intros _ newHistory' p Hmark' _ Hp Hunsafe.
           injection Hmark' as <-.
           unfold client.externalCheck in Hext. unfold protect.slasherOf in Hp.
           rewrite Hp, Hunsafe in Hext. simpl in Hext.
           injection Hext as <- <-. simpl.
           split; [reflexivity|].
           split; [apply lookup_insert_eq|].
           split; [eapply marked_history_records_vote; eassumption|].
           split.
           ++ rewrite <- !app_assoc. reflexivity.
           ++ rewrite <- !app_assoc. apply filter_app_nil.
              rewrite List.filter_app, filter_logs by reflexivity.
              destruct (client.emitAccountMetrics v); reflexivity.
        -- intros ->. split; [reflexivity|].
           eapply externalCheck_accepts; eassumption.
    + eexists _, _. split; [reflexivity|].
      split; [discriminate|]. split; [|discriminate].
      intros _ newHistory p Hmark'. discriminate.
  - (* the local check failed *)
    eexists _, _. split; [reflexivity|].
    split; [discriminate|]. split; discriminate.
Qed.


End protector_effects.

(** With a period of 8 and the vote [(4, 5)] on record: a second vote for
    target 5 with another root is refused locally and touches nothing; the
    vote [(5, 6)] is saved before the external slasher refuses it. *)
Lemma slashableAttestationCheck_effects_witness :
  (exists st',
     client.slashableAttestationCheck 8 0 sample.refusing
       (sample.stateOf (kv.Enc sample.history5)) (sample.vote 4 5)
       sample.pubKey sample.rootB
     = Some (st', Err (ErrNew client.failedAttLocalProtectionErr))
     /\ client.db st' = client.db (sample.stateOf (kv.Enc sample.history5))
     /\ List.filter protect.isHistoryWrite (client.trace st') = []
     /\ List.filter protect.isSlasherCall (client.trace st') = [])
  /\ (exists st' newHistory,
        client.slashableAttestationCheck 8 2 sample.refusing
          (sample.stateOf (kv.Enc sample.history5)) (sample.vote 5 6)
          sample.pubKey sample.rootB
        = Some (st', Err (ErrNew client.failedPreAttSignExternalErr))
        /\ client.contents (client.db st') !! sample.pubKey = Some newHistory
        /\ kv.GetTargetData 8 newHistory 6
           = Ok (Some {| kv.Source := 5; kv.SigningRoot := sample.rootB |})
        /\ List.filter protect.isCommitCall (client.trace st') = []).
Proof.
  split.
  - destruct (slashableAttestationCheck_effects 8 0 sample.refusing
                (sample.stateOf (kv.Enc sample.history5)) (sample.vote 4 5)
                sample.pubKey sample.rootB (kv.Enc sample.history5)
                [client.WarnDoubleVote sample.rootB 5 sample.rootA] (Ok true)
                ltac:(lia) eq_refl eq_refl)
      as (st' & res & Hrun & Hlocal & _ & _).
    destruct (Hlocal eq_refl) as (-> & Hdb & _ & Hwrites & Hcalls).
    exists st'. split; [exact Hrun|]. split; [exact Hdb|].
    split; [exact Hwrites | exact Hcalls].
  - destruct (slashableAttestationCheck_effects 8 2 sample.refusing
                (sample.stateOf (kv.Enc sample.history5)) (sample.vote 5 6)
                sample.pubKey sample.rootB (kv.Enc sample.history5)
                [] (Ok false) ltac:(lia) eq_refl eq_refl)
      as (st' & res & Hrun & _ & Hpre & _).
    destruct (Hpre eq_refl _ _ eq_refl eq_refl eq_refl eq_refl)
      as (-> & Hdb & Hvote & _ & Hcommit).
    exists st'. eexists. split; [exact Hrun|]. split; [exact Hdb|].
    split; [exact Hvote | exact Hcommit].
Defined.



(** ** The surround scans *)

Section loops_more.

Context {A : Type}.
Implicit Types (body : Z -> step A) (fuel : nat) (hi i : Z).

(** Whatever a loop returns was returned by its body at some index. *)
Lemma forU64_returns_somewhere hi body :
  forall fuel lo a,
  forU64 fuel hi body lo = Some (Some a) -> exists i, body i = Return a.
Proof.
  induction fuel as [|fuel IH]; intros lo a Hrun; simpl in Hrun.
  - destruct (hi <? lo); discriminate.
  - destruct (hi <? lo); [discriminate|].
    destruct (body lo) as [|b] eqn:Hb.
    + eapply IH. eassumption.
    + injection Hrun as ->. eauto.
Qed.

(** When the body returns at an index of the range, the loop returns at
    that index or before it. *)
Lemma forU64_returns_exists hi body :
  forall (n : nat) lo i a,
  0 <= lo -> lo <= i <= hi -> i <= u64.MaxUint64 ->
  i - lo <= Z.of_nat n ->
  body i = Return a ->
  exists a', forU64 (S n) hi body lo = Some (Some a').
Proof.
  induction n as [|n IH]; intros lo i a Hlo Hi Hmax Hn Hret.
  - assert (i = lo) as -> by lia.
    rewrite forU64_unfold by lia. rewrite Hret. eauto.
  - rewrite forU64_unfold by lia.
    destruct (body lo) as [|b] eqn:Hb; [|eauto].
    destruct (Z.eq_dec i lo) as [->|Hne]; [congruence|].
    rewrite incr_small by lia.
    apply (IH (lo + 1) i a); try lia. assumption.
Qed.

End loops_more.

Section protector_scans.

Variable wsPeriod : Z.
Hypothesis wsPeriod_nonneg : 0 <= wsPeriod.

Variable h : kv.AttestingHistory.
Hypothesis latest_uint64 : kv.latestEpochWritten h <= u64.MaxUint64.

Variables sourceEpoch targetEpoch : Z.

Local Abbreviation latest := (kv.latestEpochWritten h).
Local Abbreviation body1 :=
  (client.surroundingBody wsPeriod (kv.Enc h) latest sourceEpoch targetEpoch).
Local Abbreviation body2 :=
  (client.surroundedBody wsPeriod (kv.Enc h) latest sourceEpoch targetEpoch).

(** What [checkHistoryAtTargetEpoch] finds for an epoch. *)
Lemma checkHistory_holds i hd :
  protect.holdsRecord wsPeriod h i hd ->
  client.checkHistoryAtTargetEpoch wsPeriod (kv.Enc h) latest i = Ok (Some hd).
Proof.
  intros (Hle & Hwin & Hslot & _).
  unfold client.checkHistoryAtTargetEpoch.
  apply differenceOutside_false in Hwin; [|assumption..]. rewrite Hwin.
  destruct (Z.ltb_spec latest i); [lia|].
  simpl. rewrite Zmod_mod. rewrite Hslot. reflexivity.
Qed.

Lemma checkHistory_found i hd :
  client.checkHistoryAtTargetEpoch wsPeriod (kv.Enc h) latest i = Ok (Some hd) ->
  kv.IsEmpty (Some hd) = false ->
  protect.holdsRecord wsPeriod h i hd.
Proof.
  unfold client.checkHistoryAtTargetEpoch. intros Hfound Hfull.
  destruct (client.differenceOutsideWeakSubjectivityBounds wsPeriod latest i) eqn:Hwin;
    [discriminate|].
  destruct (Z.ltb_spec latest i); [discriminate|].
  simpl in Hfound. rewrite Zmod_mod in Hfound.
  injection Hfound as Hslot.
  apply differenceOutside_false in Hwin; [|assumption..].
  repeat split; assumption.
Qed.

Lemma surroundingBody_returns i hd :
  protect.holdsRecord wsPeriod h i hd ->
  sourceEpoch < kv.Source hd -> i < targetEpoch ->
  body1 i = Return ([client.WarnSurrounding targetEpoch sourceEpoch i (kv.Source hd)],
                    Ok true).
Proof.
  intros Hrec Hsrc Htgt. unfold client.surroundingBody.
  rewrite (checkHistory_holds i hd Hrec).
  destruct Hrec as (_ & _ & _ & ->).
  unfold client.surroundingPrevAttestation.
  destruct (Z.ltb_spec sourceEpoch (kv.Source hd)); [|lia].
  destruct (Z.ltb_spec i targetEpoch); [|lia]. reflexivity.
Qed.

Lemma surroundingBody_returns_inv i a :
  body1 i = Return a ->
  exists hd, protect.holdsRecord wsPeriod h i hd
    /\ sourceEpoch < kv.Source hd /\ i < targetEpoch
    /\ a = ([client.WarnSurrounding targetEpoch sourceEpoch i (kv.Source hd)], Ok true).
Proof.
  unfold client.surroundingBody. intros Hret.
  destruct (client.checkHistoryAtTargetEpoch wsPeriod (kv.Enc h) latest i)
    as [[hd|]|err] eqn:Hfound; try discriminate.
  - destruct (kv.IsEmpty (Some hd)) eqn:Hfull; [discriminate|].
    unfold client.surroundingPrevAttestation in Hret.
    destruct (Z.ltb_spec sourceEpoch (kv.Source hd)); [|discriminate].
    destruct (Z.ltb_spec i targetEpoch); [|discriminate].
    injection Hret as <-. exists hd.
    split; [apply checkHistory_found; assumption|]. auto.
  - unfold client.checkHistoryAtTargetEpoch in Hfound.
    destruct (client.differenceOutsideWeakSubjectivityBounds _ _ _); [discriminate|].
    destruct (latest <? i); discriminate.
Qed.

Lemma surroundedBody_returns i hd :
  protect.holdsRecord wsPeriod h i hd ->
  kv.Source hd < sourceEpoch -> targetEpoch < i ->
  body2 i = Return ([client.WarnSurrounded targetEpoch sourceEpoch i (kv.Source hd)],
                    Ok true).
Proof.
  intros Hrec Hsrc Htgt. unfold client.surroundedBody.
  rewrite (checkHistory_holds i hd Hrec).
  destruct Hrec as (_ & _ & _ & ->).
  unfold client.surroundedByPrevAttestation.
  destruct (Z.ltb_spec (kv.Source hd) sourceEpoch); [|lia].
  destruct (Z.ltb_spec targetEpoch i); [|lia]. reflexivity.
Qed.

Lemma surroundedBody_returns_inv i a :
  body2 i = Return a ->
  exists hd, protect.holdsRecord wsPeriod h i hd
    /\ kv.Source hd < sourceEpoch /\ targetEpoch < i
    /\ a = ([client.WarnSurrounded targetEpoch sourceEpoch i (kv.Source hd)], Ok true).
Proof.
  unfold client.surroundedBody. intros Hret.
  destruct (client.checkHistoryAtTargetEpoch wsPeriod (kv.Enc h) latest i)
    as [[hd|]|err] eqn:Hfound; try discriminate.
  - destruct (kv.IsEmpty (Some hd)) eqn:Hfull; [discriminate|].
    unfold client.surroundedByPrevAttestation in Hret.
    destruct (Z.ltb_spec (kv.Source hd) sourceEpoch); [|discriminate].
    destruct (Z.ltb_spec targetEpoch i); [|discriminate].
    injection Hret as <-. exists hd.
    split; [apply checkHistory_found; assumption|]. auto.
  - unfold client.checkHistoryAtTargetEpoch in Hfound.
    destruct (client.differenceOutsideWeakSubjectivityBounds _ _ _); [discriminate|].
    destruct (latest <? i); discriminate.
Qed.

(** The first scan is left normally exactly when the new vote surrounds
    no recorded vote. *)
Lemma surroundingBody_quiet :
  ~ protect.surroundsRecorded wsPeriod h sourceEpoch targetEpoch ->
  forall j, sourceEpoch <= j <= targetEpoch -> body1 j = Continue.
Proof.
  intros Hnone j Hj. destruct (body1 j) as [|a] eqn:Hb; [reflexivity|].
  exfalso. apply Hnone.
  destruct (surroundingBody_returns_inv j a Hb) as (hd & Hrec & Hsrc & Htgt & _).
  exists j, hd. auto.
Qed.

Lemma isSurroundVote_fuel_mono fuel r :
  client.isSurroundVote wsPeriod fuel (kv.Enc h) latest sourceEpoch targetEpoch = Some r ->
  forall fuel', (fuel <= fuel')%nat ->
  client.isSurroundVote wsPeriod fuel' (kv.Enc h) latest sourceEpoch targetEpoch = Some r.
Proof.
  unfold client.isSurroundVote. intros Hrun fuel' Hle.
  destruct (forU64 fuel targetEpoch body1 sourceEpoch) as [r1|] eqn:H1; [|discriminate].
  rewrite (forU64_fuel_mono _ _ _ _ _ H1 fuel' Hle).
  destruct r1 as [a|]; [assumption|].
  destruct (forU64 fuel latest body2 targetEpoch) as [r2|] eqn:H2; [|discriminate].
  rewrite (forU64_fuel_mono _ _ _ _ _ H2 fuel' Hle). assumption.
Qed.

(** Two runs that finish agree, whatever their fuel. *)
Lemma isSurroundVote_deterministic fuel1 fuel2 r1 r2 :
  client.isSurroundVote wsPeriod fuel1 (kv.Enc h) latest sourceEpoch targetEpoch = Some r1 ->
  client.isSurroundVote wsPeriod fuel2 (kv.Enc h) latest sourceEpoch targetEpoch = Some r2 ->
  r1 = r2.
Proof.
  intros H1 H2.
  apply isSurroundVote_fuel_mono with (fuel' := Nat.max fuel1 fuel2) in H1; [|lia].
  apply isSurroundVote_fuel_mono with (fuel' := Nat.max fuel1 fuel2) in H2; [|lia].
  congruence.
Qed.

Hypothesis source_uint64 : 0 <= sourceEpoch.
Hypothesis target_uint64 : 0 <= targetEpoch < u64.MaxUint64.

Lemma rejectedSurrounding_iff :
  protect.rejectedSurrounding wsPeriod h sourceEpoch targetEpoch
  <-> protect.surroundsRecorded wsPeriod h sourceEpoch targetEpoch.
Proof.
  split.
  - intros (fuel & pt & ps & Hrun). unfold client.isSurroundVote in Hrun.
    destruct (forU64 fuel targetEpoch body1 sourceEpoch) as [[a|]|] eqn:H1;
      [| |discriminate].
    + injection Hrun as ->.
      apply forU64_returns_inv in H1; [|lia..].
      destruct H1 as (i & Hi & Hret & _).
      destruct (surroundingBody_returns_inv i _ Hret) as (hd & Hrec & Hsrc & Htgt & _).
      exists i, hd. auto.
    + destruct (forU64 fuel latest body2 targetEpoch) as [[a|]|] eqn:H2;
        [| discriminate | discriminate].
      injection Hrun as ->.
      apply forU64_returns_somewhere in H2. destruct H2 as (i & Hret).
      destruct (surroundedBody_returns_inv i _ Hret) as (hd & _ & _ & _ & Habs).
      discriminate.
  - intros (i & hd & Hi & Hrec & Hsrc & Htgt).
    pose proof (surroundingBody_returns i hd Hrec Hsrc Htgt) as Hret.
    destruct (forU64_returns_exists targetEpoch body1
                (Z.to_nat (i - sourceEpoch)) sourceEpoch i _
                source_uint64 Hi ltac:(lia) ltac:(lia) Hret) as (a & Hrun).
    pose proof Hrun as Hfirst.
    apply forU64_returns_somewhere in Hfirst. destruct Hfirst as (i' & Hret').
    destruct (surroundingBody_returns_inv i' a Hret') as (hd' & _ & _ & _ & ->).
    exists (S (Z.to_nat (i - sourceEpoch))), i', (kv.Source hd').
    unfold client.isSurroundVote. rewrite Hrun. reflexivity.
Qed.

Lemma rejectedSurrounded_iff :
  protect.rejectedSurrounded wsPeriod h sourceEpoch targetEpoch
  <-> ~ protect.surroundsRecorded wsPeriod h sourceEpoch targetEpoch
      /\ protect.surroundedByRecorded wsPeriod h sourceEpoch targetEpoch.
Proof.
  split.
  - intros (fuel & pt & ps & Hrun). unfold client.isSurroundVote in Hrun.
    destruct (forU64 fuel targetEpoch body1 sourceEpoch) as [[a|]|] eqn:H1;
      [| |discriminate].
    + injection Hrun as ->.
      apply forU64_returns_somewhere in H1. destruct H1 as (i & Hret).
      destruct (surroundingBody_returns_inv i _ Hret) as (hd & _ & _ & _ & Habs).
      discriminate.
    + destruct (forU64 fuel latest body2 targetEpoch) as [[a|]|] eqn:H2;
        [| discriminate | discriminate].
      injection Hrun as ->. split.
      * intros (i & hd & Hi & Hrec & Hsrc & Htgt).
        pose proof (forU64_falls_through_inv targetEpoch body1 ltac:(lia) fuel
                      sourceEpoch source_uint64 H1 i Hi) as Hquiet.
        rewrite (surroundingBody_returns i hd Hrec Hsrc Htgt) in Hquiet.
        discriminate.
      * apply forU64_returns_somewhere in H2. destruct H2 as (i & Hret).
        destruct (surroundedBody_returns_inv i _ Hret) as (hd & Hrec & Hsrc & Htgt & _).
        exists i, hd. destruct Hrec as (Hle & Hrest).
        split; [lia|]. split; [split; assumption|]. auto.
  - intros (Hnone & i & hd & Hi & Hrec & Hsrc & Htgt).
    pose proof (forU64_falls_through targetEpoch body1 sourceEpoch ltac:(lia)
                  source_uint64 (surroundingBody_quiet Hnone)) as Hquiet.
    pose proof (surroundedBody_returns i hd Hrec Hsrc Htgt) as Hret.
    destruct (forU64_returns_exists latest body2
                (Z.to_nat (i - targetEpoch)) targetEpoch i _
                ltac:(lia) Hi ltac:(lia) ltac:(lia) Hret) as (a & Hrun).
    pose proof Hrun as Hfirst.
    apply forU64_returns_somewhere in Hfirst. destruct Hfirst as (i' & Hret').
    destruct (surroundedBody_returns_inv i' a Hret') as (hd' & _ & _ & _ & ->).
    set (n1 := Z.to_nat (targetEpoch - sourceEpoch + 1)) in *.
    set (n2 := S (Z.to_nat (i - targetEpoch))) in *.
    exists (Nat.max n1 n2), i', (kv.Source hd').
    unfold client.isSurroundVote.
    rewrite (forU64_fuel_mono _ _ _ _ _ Hquiet (Nat.max n1 n2)) by lia.
    rewrite (forU64_fuel_mono _ _ _ _ _ Hrun (Nat.max n1 n2)) by lia.
    reflexivity.
Qed.

End protector_scans.

(** C2, as amended.  For a history whose latest written epoch is a
    [uint64] and a vote whose target is below the largest [uint64]:
    [isSurroundVote] rejects the vote as surrounding exactly when some
    epoch of [sourceEpoch..targetEpoch], not after the latest written epoch
    and inside the window, holds a non-empty record whose source is above
    the new source and whose target is below the new target; it rejects the
    vote as surrounded exactly when there is no such record and some epoch
    of [targetEpoch..latestEpochWritten] holds a non-empty record whose
    source is below the new source and whose target is above the new
    target. *)
Theorem surround_rejections (wsPeriod : Z) (h : kv.AttestingHistory)
    (sourceEpoch targetEpoch : Z) :
  0 < wsPeriod ->
  kv.latestEpochWritten h <= u64.MaxUint64 ->
  0 <= sourceEpoch ->
  0 <= targetEpoch < u64.MaxUint64 ->
  (protect.rejectedSurrounding wsPeriod h sourceEpoch targetEpoch
   <-> protect.surroundsRecorded wsPeriod h sourceEpoch targetEpoch)
  /\ (protect.rejectedSurrounded wsPeriod h sourceEpoch targetEpoch
      <-> ~ protect.surroundsRecorded wsPeriod h sourceEpoch targetEpoch
          /\ protect.surroundedByRecorded wsPeriod h sourceEpoch targetEpoch).
Proof.
  intros Hp Hl Hs Ht. apply Z.lt_le_incl in Hp. split.
  - apply rejectedSurrounding_iff; assumption.
  - apply rejectedSurrounded_iff; assumption.
Qed.

(** The vote [(10, 18)] surrounds the recorded vote for target 16 and is
    surrounded by the one for target 20: it is rejected as surrounding.
    Without the record for target 16 it is rejected as surrounded. *)
Lemma surroundsRecorded_historyBoth :
  protect.surroundsRecorded 8 sample.historyBoth 10 18.
Proof.
  exists 16, {| kv.Source := 15; kv.SigningRoot := sample.rootA |}.
  split; [lia|]. split.
  - split; [simpl; lia|]. split; [unfold protect.inWindow; simpl; lia|].
    split; reflexivity.
  - simpl. lia.
Qed.

Lemma surroundedByRecorded_both :
  protect.surroundedByRecorded 8 sample.historyBoth 10 18.
Proof.
  exists 20, {| kv.Source := 3; kv.SigningRoot := sample.rootB |}.
  split; [simpl; lia|]. split.
  - split; [simpl; lia|]. split; [unfold protect.inWindow; simpl; lia|].
    split; reflexivity.
  - simpl. lia.
Qed.

Lemma surroundedByRecorded_single :
  protect.surroundedByRecorded 8 sample.historySurrounded 10 18.
Proof.
  exists 20, {| kv.Source := 3; kv.SigningRoot := sample.rootB |}.
  split; [simpl; lia|]. split.
  - split; [simpl; lia|]. split; [unfold protect.inWindow; simpl; lia|].
    split; reflexivity.
  - simpl. lia.
Qed.

Lemma not_surroundsRecorded_single :
  ~ protect.surroundsRecorded 8 sample.historySurrounded 10 18.
Proof.
  intros (i & hd & Hi & (Hle & Hwin & Hslot & _) & _).
  unfold protect.inWindow in Hwin. simpl in Hle, Hwin, Hslot.
  assert (i = 13 \/ i = 14 \/ i = 15 \/ i = 16 \/ i = 17 \/ i = 18) as Hcases by lia.
  destruct Hcases as [E|[E|[E|[E|[E|E]]]]]; subst i; vm_compute in Hslot; discriminate.
Qed.

Lemma surround_rejections_witness :
  protect.rejectedSurrounding 8 sample.historyBoth 10 18
  /\ protect.rejectedSurrounded 8 sample.historySurrounded 10 18.
Proof.
  split.
  - apply (proj1 (surround_rejections 8 sample.historyBoth 10 18
                    ltac:(lia) ltac:(simpl; unfold u64.MaxUint64; lia)
                    ltac:(lia) ltac:(unfold u64.MaxUint64; lia))).
    exact surroundsRecorded_historyBoth.
  - apply (proj2 (surround_rejections 8 sample.historySurrounded 10 18
                    ltac:(lia) ltac:(simpl; unfold u64.MaxUint64; lia)
                    ltac:(lia) ltac:(unfold u64.MaxUint64; lia))).
    split; [exact not_surroundsRecorded_single | exact surroundedByRecorded_single].
Defined.

(** The first scan over [5..MaxUint64] wraps: after the largest [uint64]
    the counter is 0 again, and the scan reaches epoch 3. *)
Lemma surroundingBody_wrap_quiet j :
  5 <= j < u64.MaxUint64 ->
  client.surroundingBody 8 (kv.Enc sample.historyWrap) 10 5 u64.MaxUint64 j = Continue.
Proof.
  intros Hj. unfold client.surroundingBody, client.checkHistoryAtTargetEpoch,
    client.differenceOutsideWeakSubjectivityBounds.
  change (u64.sub 10 8) with 2. change (8 <=? 10) with true.
  destruct (Z.leb_spec j 2); [lia|]. cbv [andb].
  destruct (Z.ltb_spec 10 j); [reflexivity|].
  assert (j = 5 \/ j = 6 \/ j = 7 \/ j = 8 \/ j = 9 \/ j = 10) as Hcases by lia.
  destruct Hcases as [E|[E|[E|[E|[E|E]]]]]; subst j; reflexivity.
Qed.

Lemma rejectedSurrounding_wrap :
  protect.rejectedSurrounding 8 sample.historyWrap 5 u64.MaxUint64.
Proof.
  exists (Z.to_nat (u64.MaxUint64 - 5) + 5)%nat, 3, 7.
  unfold client.isSurroundVote.
  change (kv.latestEpochWritten sample.historyWrap) with 10.
  rewrite forU64_skip.
  - rewrite Z2Nat.id by (unfold u64.MaxUint64; lia).
    replace (5 + (u64.MaxUint64 - 5)) with u64.MaxUint64 by lia.
    vm_compute. reflexivity.
  - lia.
  - rewrite Z2Nat.id by (unfold u64.MaxUint64; lia). lia.
  - rewrite Z2Nat.id by (unfold u64.MaxUint64; lia). lia.
  - intros j Hj. rewrite Z2Nat.id in Hj by (unfold u64.MaxUint64; lia).
    apply surroundingBody_wrap_quiet. lia.
Qed.

Lemma not_surroundsRecorded_wrap :
  ~ protect.surroundsRecorded 8 sample.historyWrap 5 u64.MaxUint64.
Proof.
  intros (i & hd & Hi & (Hle & _ & Hslot & _) & _).
  simpl in Hle, Hslot.
  assert (i = 5 \/ i = 6 \/ i = 7 \/ i = 8 \/ i = 9 \/ i = 10) as Hcases by lia.
  destruct Hcases as [E|[E|[E|[E|[E|E]]]]]; subst i; vm_compute in Hslot; discriminate.
Qed.

(** C2 as stated fails twice.  With the records of the targets 16 and 20,
    the vote [(10, 18)] is surrounded by a recorded vote, yet it is never
    rejected as surrounded: the first scan rejects it as surrounding.
    With a target equal to the largest [uint64], the first scan wraps
    around and rejects the vote [(5, MaxUint64)] as surrounding because of
    a record at epoch 3, outside [sourceEpoch..targetEpoch]. *)
Lemma surround_rejections_counterexample :
  (protect.surroundedByRecorded 8 sample.historyBoth 10 18
   /\ ~ protect.rejectedSurrounded 8 sample.historyBoth 10 18)
  /\ (protect.rejectedSurrounding 8 sample.historyWrap 5 u64.MaxUint64
      /\ ~ protect.surroundsRecorded 8 sample.historyWrap 5 u64.MaxUint64).
Proof.
  split; split.
  - exact surroundedByRecorded_both.
  - intros Hrej.
    apply (rejectedSurrounded_iff 8 ltac:(lia) sample.historyBoth
             ltac:(simpl; unfold u64.MaxUint64; lia) 10 18 ltac:(lia)
             ltac:(unfold u64.MaxUint64; lia)) in Hrej.
    destruct Hrej as [Hnone _]. apply Hnone. exact surroundsRecorded_historyBoth.
  - exact rejectedSurrounding_wrap.
  - exact not_surroundsRecorded_wrap.
Qed.

(** ** The double-vote check *)

Section protector_double_vote.

Variable wsPeriod : Z.
Hypothesis wsPeriod_nonneg : 0 <= wsPeriod.

Variable h : kv.AttestingHistory.
Hypothesis latest_uint64 : kv.latestEpochWritten h <= u64.MaxUint64.

(** The two scans never log a double vote. *)
Lemma isSurroundVote_logs fuel sourceEpoch targetEpoch lg r signingRoot target root :
  client.isSurroundVote wsPeriod fuel (kv.Enc h) (kv.latestEpochWritten h)
    sourceEpoch targetEpoch = Some (lg, r) ->
  lg <> [client.WarnDoubleVote signingRoot target root].
Proof.
  unfold client.isSurroundVote. intros Hrun.
  destruct (forU64 fuel targetEpoch _ sourceEpoch) as [[a|]|] eqn:H1; [| |discriminate].
  - injection Hrun as ->.
    apply forU64_returns_somewhere in H1. destruct H1 as (i & Hret).
    destruct (surroundingBody_returns_inv wsPeriod wsPeriod_nonneg h latest_uint64
                _ _ i _ Hret) as (hd & _ & _ & _ & Ha).
    injection Ha as -> _. discriminate.
  - destruct (forU64 fuel (kv.latestEpochWritten h) _ targetEpoch) as [[a|]|] eqn:H2;
      [| |discriminate].
    + injection Hrun as ->.
      apply forU64_returns_somewhere in H2. destruct H2 as (i & Hret).
      destruct (surroundedBody_returns_inv wsPeriod wsPeriod_nonneg h latest_uint64
                  _ _ i _ Hret) as (hd & _ & _ & _ & Ha).
      injection Ha as -> _. discriminate.
    + injection Hrun as <- _. discriminate.
Qed.

(** What the code does: outside the stale rule, a vote is rejected as a
    double vote exactly when the slot of its target epoch holds a
    non-empty record with another signing root.  The latest written epoch
    plays no part. *)
Lemma rejectedDoubleVote_iff sourceEpoch targetEpoch signingRoot :
  protect.rejectedDoubleVote wsPeriod h sourceEpoch targetEpoch signingRoot
  <-> protect.inWindow wsPeriod (kv.latestEpochWritten h) targetEpoch
      /\ exists hd, kv.slots h !! (targetEpoch mod wsPeriod) = Some hd
           /\ kv.IsEmpty (Some hd) = false
           /\ kv.SigningRoot hd <> signingRoot.
Proof.
  unfold protect.rejectedDoubleVote, client.isNewAttSlashable.
  cbn [kv.GetLatestEpochWritten kv.GetTargetData].
  fold (client.differenceOutsideWeakSubjectivityBounds wsPeriod
          (kv.latestEpochWritten h) targetEpoch).
  split.
  - intros (fuel & prev & Hrun).
    destruct (client.differenceOutsideWeakSubjectivityBounds _ _ _) eqn:Hwin;
      [discriminate|].
    apply differenceOutside_false in Hwin; [|assumption..].
    split; [assumption|].
    destruct (kv.slots h !! (targetEpoch mod wsPeriod)) as [hd|] eqn:Hslot.
    + exists hd. split; [reflexivity|].
      cbn [from_option] in Hrun.
      destruct (kv.IsEmpty (Some hd)) eqn:Hfull.
      * exfalso. cbn [negb andb] in Hrun.
        destruct (client.isSurroundVote _ _ _ _ _ _) as [[lg [b|err]]|] eqn:Hscan;
          try discriminate; injection Hrun as ->;
          eapply isSurroundVote_logs; eauto.
      * split; [reflexivity|]. cbn [negb andb] in Hrun.
        unfold client.bytesEqual in Hrun.
        destruct (decide (signingRoot = kv.SigningRoot hd)) as [Heq|Hne].
        -- exfalso. rewrite bool_decide_eq_true_2 in Hrun by assumption.
           cbn [negb] in Hrun.
           destruct (client.isSurroundVote _ _ _ _ _ _) as [[lg [b|err]]|] eqn:Hscan;
             try discriminate; injection Hrun as ->;
             eapply isSurroundVote_logs; eauto.
        -- congruence.
    + exfalso. cbn [kv.IsEmpty negb andb] in Hrun.
      destruct (client.isSurroundVote _ _ _ _ _ _) as [[lg [b|err]]|] eqn:Hscan;
        try discriminate; injection Hrun as ->;
        eapply isSurroundVote_logs; eauto.
  - intros (Hwin & hd & Hslot & Hfull & Hroot).
    apply differenceOutside_false in Hwin; [|assumption..].
    exists 0%nat, (kv.SigningRoot hd).
    rewrite Hwin, Hslot, Hfull. cbn [from_option negb andb].
    unfold client.bytesEqual.
    rewrite bool_decide_eq_false_2 by congruence. reflexivity.
Qed.

End protector_double_vote.

(** C1 is not what the code does.  With a period of 8, the vote [(4, 5)]
    with root [rootA] is accepted on a fresh database.  The later vote
    [(12, 13)] with root [rootB] is for another target epoch and surrounds
    nothing, yet the check reads slot [13 mod 8 = 5], finds the record of
    target epoch 5 and rejects the vote as a double vote: the target epoch
    that the slot stores a vote for is 5, not 13.  The same happens one
    period of 54000 epochs after the vote for target 5. *)
Theorem double_vote_false_positive :
  (exists st1 st2 lg,
     client.slashableAttestationCheck 8 2 sample.localOnly sample.freshState
       (sample.vote 4 5) sample.pubKey sample.rootA = Some (st1, Ok tt)
     /\ client.contents (client.db st1) !! sample.pubKey
        = Some (kv.Enc (kv.markHistory 8 kv.emptyHistory 5
                          {| kv.Source := 4; kv.SigningRoot := sample.rootA |}))
     /\ client.slashableAttestationCheck 8 0 sample.localOnly st1
          (sample.vote 12 13) sample.pubKey sample.rootB
        = Some (st2, Err (ErrNew client.failedAttLocalProtectionErr))
     /\ client.trace st2 = client.trace st1 ++ lg
     /\ lg = [client.EvLog (client.WarnDoubleVote sample.rootB 13 sample.rootA);
              client.EvAttestFailInc sample.pubKey])
  /\ client.isNewAttSlashable 8 0 (kv.Enc sample.history5) 12 13 sample.rootB
     = Some ([client.WarnDoubleVote sample.rootB 13 sample.rootA], Ok true)
  /\ protect.storedTargetEpoch 8 (kv.latestEpochWritten sample.history5) 13 = 5
  /\ client.isNewAttSlashable 54000 0 (kv.Enc sample.history5) 54004 54005 sample.rootB
     = Some ([client.WarnDoubleVote sample.rootB 54005 sample.rootA], Ok true)
  /\ protect.storedTargetEpoch 54000 (kv.latestEpochWritten sample.history5) 54005 = 5.
Proof.
  split.
  - eexists _, _, _. split; [vm_compute; reflexivity|].
    split; [vm_compute; reflexivity|].
    split; [vm_compute; reflexivity|].
    split; reflexivity.
  - repeat split; vm_compute; reflexivity.
Qed.

(** What the double-vote check of the code decides, for a positive
    period: the latest written epoch matters for the stale rule only. *)
Theorem double_vote_rejections (wsPeriod : Z) (h : kv.AttestingHistory)
    (sourceEpoch targetEpoch : Z) (signingRoot : list Z) :
  0 < wsPeriod ->
  kv.latestEpochWritten h <= u64.MaxUint64 ->
  protect.rejectedDoubleVote wsPeriod h sourceEpoch targetEpoch signingRoot
  <-> protect.inWindow wsPeriod (kv.latestEpochWritten h) targetEpoch
      /\ exists hd, kv.slots h !! (targetEpoch mod wsPeriod) = Some hd
           /\ kv.IsEmpty (Some hd) = false
           /\ kv.SigningRoot hd <> signingRoot.
Proof.
  intros Hp Hl. apply rejectedDoubleVote_iff; [lia | assumption].
Qed.

(** The vote [(4, 5)] with another root than the recorded one is a double
    vote. *)
Lemma double_vote_rejections_witness :
  protect.rejectedDoubleVote 8 sample.history5 4 5 sample.rootB.
Proof.
  apply (proj2 (double_vote_rejections 8 sample.history5 4 5 sample.rootB
                  ltac:(lia) ltac:(simpl; unfold u64.MaxUint64; lia))).
  split; [unfold protect.inWindow; simpl; lia|].
  exists {| kv.Source := 4; kv.SigningRoot := sample.rootA |}.
  split; [reflexivity|]. split; [reflexivity|]. discriminate.
Defined.

(** ** A target epoch equal to the largest [uint64] *)



(** ** The verdict of the local check *)

Section verdicts.

Variable wsPeriod : Z.
Hypothesis wsPeriod_nonneg : 0 <= wsPeriod.
Variable h : kv.AttestingHistory.
Hypothesis latest_uint64 : kv.latestEpochWritten h <= u64.MaxUint64.
Variables sourceEpoch targetEpoch : Z.

Local Abbreviation latest := (kv.latestEpochWritten h).

(** On a readable history [isSurroundVote] ends in one of three ways. *)
Lemma isSurroundVote_outcome fuel lg r :
  client.isSurroundVote wsPeriod fuel (kv.Enc h) latest sourceEpoch targetEpoch
    = Some (lg, r) ->
  (lg = [] /\ r = Ok false)
  \/ (r = Ok true /\ exists pt ps,
        lg = [client.WarnSurrounding targetEpoch sourceEpoch pt ps])
  \/ (r = Ok true /\ exists pt ps,
        lg = [client.WarnSurrounded targetEpoch sourceEpoch pt ps]).
Proof.
  unfold client.isSurroundVote. intros Hrun.
  destruct (forU64 fuel targetEpoch _ sourceEpoch) as [[a|]|] eqn:H1; [| |discriminate].
  - injection Hrun as ->.
    apply forU64_returns_somewhere in H1. destruct H1 as (i & Hret).
    destruct (surroundingBody_returns_inv wsPeriod wsPeriod_nonneg h latest_uint64
                _ _ i _ Hret) as (hd & _ & _ & _ & Ha).
    injection Ha as -> ->. right. left. eauto.
  - destruct (forU64 fuel latest _ targetEpoch) as [[a|]|] eqn:H2; [| |discriminate].
    + injection Hrun as ->.
      apply forU64_returns_somewhere in H2. destruct H2 as (i & Hret).
      destruct (surroundedBody_returns_inv wsPeriod wsPeriod_nonneg h latest_uint64
                  _ _ i _ Hret) as (hd & _ & _ & _ & Ha).
      injection Ha as -> ->. right. right. eauto.
    + injection Hrun as <- <-. left. auto.
Qed.

Hypothesis source_uint64 : 0 <= sourceEpoch.
Hypothesis target_uint64 : 0 <= targetEpoch < u64.MaxUint64.
Hypothesis latest_below_max : latest < u64.MaxUint64.

(** With both bounds below the largest [uint64] the two scans end. *)
Lemma isSurroundVote_returns :
  exists r,
    client.isSurroundVote wsPeriod
      (Z.to_nat (Z.max (targetEpoch - sourceEpoch + 1) (latest - targetEpoch + 1)))
      (kv.Enc h) latest sourceEpoch targetEpoch = Some r.
Proof.
  set (n := Z.to_nat (Z.max (targetEpoch - sourceEpoch + 1) (latest - targetEpoch + 1))).
  destruct (forU64_terminates targetEpoch
              (client.surroundingBody wsPeriod (kv.Enc h) latest sourceEpoch targetEpoch)
              ltac:(lia) n sourceEpoch source_uint64 ltac:(lia)) as [r1 Hr1].
  destruct (forU64_terminates latest
              (client.surroundedBody wsPeriod (kv.Enc h) latest sourceEpoch targetEpoch)
              latest_below_max n targetEpoch ltac:(lia) ltac:(lia)) as [r2 Hr2].
  unfold client.isSurroundVote. fold n. rewrite Hr1.
  destruct r1 as [r|]; [eauto|]. rewrite Hr2. destruct r2 as [r|]; eauto.
Qed.

Lemma passesSurround_iff :
  verdict.passesSurround wsPeriod h sourceEpoch targetEpoch
  <-> ~ protect.surroundsRecorded wsPeriod h sourceEpoch targetEpoch
      /\ ~ protect.surroundedByRecorded wsPeriod h sourceEpoch targetEpoch.
Proof.
  split.
  - intros (fuel & Hrun). split; intros Hsl.
    + apply (rejectedSurrounding_iff wsPeriod wsPeriod_nonneg h latest_uint64
               sourceEpoch targetEpoch source_uint64 target_uint64) in Hsl.
      destruct Hsl as (fuel' & pt & ps & Hrun').
      pose proof (isSurroundVote_deterministic wsPeriod h sourceEpoch targetEpoch
                    _ _ _ _ Hrun Hrun') as Heq.
      discriminate.
    + assert (~ protect.surroundsRecorded wsPeriod h sourceEpoch targetEpoch) as Hnone.
      { intros Hs.
        apply (rejectedSurrounding_iff wsPeriod wsPeriod_nonneg h latest_uint64
                 sourceEpoch targetEpoch source_uint64 target_uint64) in Hs.
        destruct Hs as (fuel' & pt & ps & Hrun').
        pose proof (isSurroundVote_deterministic wsPeriod h sourceEpoch targetEpoch
                      _ _ _ _ Hrun Hrun') as Heq.
        discriminate. }
      pose proof (proj2 (rejectedSurrounded_iff wsPeriod wsPeriod_nonneg h latest_uint64
                           sourceEpoch targetEpoch source_uint64 target_uint64)
                    (conj Hnone Hsl)) as (fuel' & pt & ps & Hrun').
      pose proof (isSurroundVote_deterministic wsPeriod h sourceEpoch targetEpoch
                    _ _ _ _ Hrun Hrun') as Heq.
      discriminate.
  - intros [Hnone Hnot].
    destruct isSurroundVote_returns as ([lg r] & Hrun).
    destruct (isSurroundVote_outcome _ _ _ Hrun)
      as [[-> ->]|[[-> (pt & ps & ->)]|[-> (pt & ps & ->)]]].
    + eexists. exact Hrun.
    + exfalso. apply Hnone.
      apply (rejectedSurrounding_iff wsPeriod wsPeriod_nonneg h latest_uint64
               sourceEpoch targetEpoch source_uint64 target_uint64).
      eexists _, _, _. exact Hrun.
    + exfalso.
      assert (protect.rejectedSurrounded wsPeriod h sourceEpoch targetEpoch) as Hrej
        by (eexists _, _, _; exact Hrun).
      apply (rejectedSurrounded_iff wsPeriod wsPeriod_nonneg h latest_uint64
               sourceEpoch targetEpoch source_uint64 target_uint64) in Hrej.
      tauto.
Qed.

Variable signingRoot : list Z.

Lemma isNewAttSlashable_deterministic fuel1 fuel2 r1 r2 :
  client.isNewAttSlashable wsPeriod fuel1 (kv.Enc h) sourceEpoch targetEpoch signingRoot
    = Some r1 ->
  client.isNewAttSlashable wsPeriod fuel2 (kv.Enc h) sourceEpoch targetEpoch signingRoot
    = Some r2 ->
  r1 = r2.
Proof.
  unfold client.isNewAttSlashable. cbn [kv.GetLatestEpochWritten kv.GetTargetData].
  destruct (_ && _); [congruence|].
  destruct (_ && _); [congruence|].
  intros H1 H2.
  destruct (client.isSurroundVote wsPeriod fuel1 _ _ _ _) as [[lg1 res1]|] eqn:Hs1;
    [|discriminate].
  destruct (client.isSurroundVote wsPeriod fuel2 _ _ _ _) as [[lg2 res2]|] eqn:Hs2;
    [|discriminate].
  pose proof (isSurroundVote_deterministic wsPeriod h sourceEpoch targetEpoch
                _ _ _ _ Hs1 Hs2) as Heq.
  injection Heq as -> ->. congruence.
Qed.

(** On a readable history the check answers, and without an error. *)
Lemma isNewAttSlashable_returns :
  exists b, verdict.answers wsPeriod h sourceEpoch targetEpoch signingRoot b.
Proof.
  unfold verdict.answers, client.isNewAttSlashable.
  cbn [kv.GetLatestEpochWritten kv.GetTargetData].
  destruct (_ && _); [exists false, 0%nat; eauto|].
  destruct (_ && _); [exists true, 0%nat; eauto|].
  destruct isSurroundVote_returns as ([lg r] & Hrun).
  destruct (isSurroundVote_outcome _ _ _ Hrun)
    as [[-> ->]|[[-> _]|[-> _]]].
  - exists false. eexists _, _. rewrite Hrun. reflexivity.
  - exists true. eexists _, _. rewrite Hrun. reflexivity.
  - exists true. eexists _, _. rewrite Hrun. reflexivity.
Qed.

Lemma answers_true_iff :
  verdict.answers wsPeriod h sourceEpoch targetEpoch signingRoot true
  <-> protect.inWindow wsPeriod latest targetEpoch
      /\ verdict.slashableAgainst wsPeriod h sourceEpoch targetEpoch signingRoot.
Proof.
  split.
  - intros (fuel & lg & Hrun). unfold client.isNewAttSlashable in Hrun.
    cbn [kv.GetLatestEpochWritten kv.GetTargetData] in Hrun.
    fold (client.differenceOutsideWeakSubjectivityBounds wsPeriod latest targetEpoch)
      in Hrun.
    destruct (client.differenceOutsideWeakSubjectivityBounds _ _ _) eqn:Hwin;
      [discriminate|].
    apply differenceOutside_false in Hwin; [|assumption..].
    split; [assumption|].
    destruct (negb (kv.IsEmpty _) && _) eqn:Hdouble.
    + left. apply andb_true_iff in Hdouble. destruct Hdouble as [Hfull Hroot].
      destruct (kv.slots h !! (targetEpoch mod wsPeriod)) as [hd|] eqn:Hslot;
        [|discriminate].
      exists hd. split; [exact Hslot|]. apply negb_true_iff in Hfull.
      split; [assumption|].
      cbn [from_option] in Hroot. unfold client.bytesEqual in Hroot.
      apply negb_true_iff, bool_decide_eq_false in Hroot. congruence.
    + right.
      destruct (client.isSurroundVote _ _ _ _ _ _) as [[lg' [b|err]]|] eqn:Hscan;
        [|discriminate..].
      injection Hrun as -> ->.
      destruct (isSurroundVote_outcome _ _ _ Hscan)
        as [[_ Hf]|[[_ (pt & ps & ->)]|[_ (pt & ps & ->)]]]; [discriminate| |].
      * left. apply (rejectedSurrounding_iff wsPeriod wsPeriod_nonneg h latest_uint64
                       sourceEpoch targetEpoch source_uint64 target_uint64).
        eexists _, _, _. exact Hscan.
      * right.
        assert (protect.rejectedSurrounded wsPeriod h sourceEpoch targetEpoch) as Hrej
          by (eexists _, _, _; exact Hscan).
        apply (rejectedSurrounded_iff wsPeriod wsPeriod_nonneg h latest_uint64
                 sourceEpoch targetEpoch source_uint64 target_uint64) in Hrej.
        tauto.
  - intros [Hwin Hsl].
    destruct isNewAttSlashable_returns as ([|] & Hans); [assumption|].
    exfalso. destruct Hans as (fuel & lg & Hrun).
    unfold client.isNewAttSlashable in Hrun.
    cbn [kv.GetLatestEpochWritten kv.GetTargetData] in Hrun.
    fold (client.differenceOutsideWeakSubjectivityBounds wsPeriod latest targetEpoch)
      in Hrun.
    apply differenceOutside_false in Hwin; [|assumption..]. rewrite Hwin in Hrun.
    destruct (negb (kv.IsEmpty _) && _) eqn:Hdouble; [discriminate|].
    destruct (client.isSurroundVote _ _ _ _ _ _) as [[lg' [b|err]]|] eqn:Hscan;
      [|discriminate..].
    injection Hrun as -> ->.
    destruct (isSurroundVote_outcome _ _ _ Hscan)
      as [[-> _]|[[Hf _]|[Hf _]]]; [|discriminate..].
    assert (verdict.passesSurround wsPeriod h sourceEpoch targetEpoch) as Hpass
      by (eexists; exact Hscan).
    apply passesSurround_iff in Hpass. destruct Hpass as [Hnone Hnot].
    destruct Hsl as [(hd & Hslot & Hfull & Hroot)|[Hs|Hs]]; [|tauto..].
    rewrite Hslot, Hfull in Hdouble. cbn [negb andb from_option] in Hdouble.
    unfold client.bytesEqual in Hdouble.
    apply negb_false_iff, bool_decide_eq_true in Hdouble. congruence.
Qed.

Lemma answers_false_iff :
  verdict.answers wsPeriod h sourceEpoch targetEpoch signingRoot false
  <-> ~ (protect.inWindow wsPeriod latest targetEpoch
         /\ verdict.slashableAgainst wsPeriod h sourceEpoch targetEpoch signingRoot).
Proof.
  split.
  - intros (fuel & lg & Hrun) Hsl. apply answers_true_iff in Hsl.
    destruct Hsl as (fuel' & lg' & Hrun').
    pose proof (isNewAttSlashable_deterministic _ _ _ _ Hrun Hrun'). discriminate.
  - intros Hnot. destruct isNewAttSlashable_returns as ([|] & Hans); [|assumption].
    apply answers_true_iff in Hans. contradiction.
Qed.

End verdicts.

(** ** What the warnings name *)

Section warnings.

Variable wsPeriod : Z.
Hypothesis wsPeriod_nonneg : 0 <= wsPeriod.
Variable h : kv.AttestingHistory.
Variables sourceEpoch targetEpoch : Z.
Hypothesis source_uint64 : 0 <= sourceEpoch.
Hypothesis target_uint64 : 0 <= targetEpoch < u64.MaxUint64.
Hypothesis latest_below_max : kv.latestEpochWritten h < u64.MaxUint64.

Local Abbreviation latest := (kv.latestEpochWritten h).

(** The scans report the first record they meet. *)
Lemma isSurroundVote_reports fuel lg r :
  client.isSurroundVote wsPeriod fuel (kv.Enc h) latest sourceEpoch targetEpoch
    = Some (lg, r) ->
  (lg = [] /\ r = Ok false)
  \/ (exists i hd,
        lg = [client.WarnSurrounding targetEpoch sourceEpoch i (kv.Source hd)]
        /\ r = Ok true
        /\ protect.holdsRecord wsPeriod h i hd
        /\ sourceEpoch <= i < targetEpoch /\ sourceEpoch < kv.Source hd
        /\ forall j hd', sourceEpoch <= j < i ->
             protect.holdsRecord wsPeriod h j hd' -> kv.Source hd' <= sourceEpoch)
  \/ (exists i hd,
        lg = [client.WarnSurrounded targetEpoch sourceEpoch i (kv.Source hd)]
        /\ r = Ok true
        /\ protect.holdsRecord wsPeriod h i hd
        /\ targetEpoch < i <= latest /\ kv.Source hd < sourceEpoch
        /\ ~ protect.surroundsRecorded wsPeriod h sourceEpoch targetEpoch
        /\ forall j hd', targetEpoch < j < i ->
             protect.holdsRecord wsPeriod h j hd' -> sourceEpoch <= kv.Source hd').
Proof.
  unfold client.isSurroundVote. intros Hrun.
  destruct (forU64 fuel targetEpoch _ sourceEpoch) as [[a|]|] eqn:H1; [| |discriminate].
  - injection Hrun as ->.
    apply forU64_returns_inv in H1; [|lia..].
    destruct H1 as (i & Hi & Hret & Hbefore).
    destruct (surroundingBody_returns_inv wsPeriod wsPeriod_nonneg h ltac:(lia)
                _ _ i _ Hret) as (hd & Hrec & Hsrc & Htgt & Ha).
    injection Ha as -> ->. right. left. exists i, hd.
    split; [reflexivity|]. split; [reflexivity|]. split; [assumption|].
    split; [lia|]. split; [assumption|].
    intros j hd' Hj Hrec'.
    destruct (Z.le_gt_cases (kv.Source hd') sourceEpoch) as [|Hgt]; [assumption|].
    pose proof (surroundingBody_returns wsPeriod wsPeriod_nonneg h ltac:(lia)
                  sourceEpoch targetEpoch j hd' Hrec' ltac:(lia) ltac:(lia)) as Hj'.
    rewrite Hbefore in Hj' by lia. discriminate.
  - pose proof (forU64_falls_through_inv targetEpoch _ (proj2 target_uint64) _ _
                  source_uint64 H1) as Hquiet.
    destruct (forU64 fuel latest _ targetEpoch) as [[a|]|] eqn:H2; [| |discriminate].
    + injection Hrun as ->.
      apply forU64_returns_inv in H2; [|lia..].
      destruct H2 as (i & Hi & Hret & Hbefore).
      destruct (surroundedBody_returns_inv wsPeriod wsPeriod_nonneg h ltac:(lia)
                  _ _ i _ Hret) as (hd & Hrec & Hsrc & Htgt & Ha).
      injection Ha as -> ->. right. right. exists i, hd.
      split; [reflexivity|]. split; [reflexivity|]. split; [assumption|].
      split; [lia|]. split; [assumption|]. split.
      * intros (j & hd' & Hj & Hrec' & Hsrc' & Htgt').
        pose proof (surroundingBody_returns wsPeriod wsPeriod_nonneg h ltac:(lia)
                      sourceEpoch targetEpoch j hd' Hrec' Hsrc' Htgt') as Hj'.
        rewrite Hquiet in Hj' by lia. discriminate.
      * intros j hd' Hj Hrec'.
        destruct (Z.le_gt_cases sourceEpoch (kv.Source hd')) as [|Hgt]; [assumption|].
        pose proof (surroundedBody_returns wsPeriod wsPeriod_nonneg h ltac:(lia)
                      sourceEpoch targetEpoch j hd' Hrec' ltac:(lia) ltac:(lia)) as Hj'.
        rewrite Hbefore in Hj' by lia. discriminate.
    + injection Hrun as <- <-. left. auto.
Qed.

Variable signingRoot : list Z.

(** Every way the local check ends on a readable history. *)
Lemma isNewAttSlashable_reports fuel lg r :
  client.isNewAttSlashable wsPeriod fuel (kv.Enc h) sourceEpoch targetEpoch signingRoot
    = Some (lg, r) ->
  (lg = [] /\ r = Ok false)
  \/ (exists hd,
        lg = [client.WarnDoubleVote signingRoot targetEpoch (kv.SigningRoot hd)]
        /\ r = Ok true
        /\ protect.inWindow wsPeriod latest targetEpoch
        /\ kv.slots h !! (targetEpoch mod wsPeriod) = Some hd
        /\ kv.IsEmpty (Some hd) = false
        /\ kv.SigningRoot hd <> signingRoot)
  \/ (exists i hd,
        lg = [client.WarnSurrounding targetEpoch sourceEpoch i (kv.Source hd)]
        /\ r = Ok true
        /\ protect.holdsRecord wsPeriod h i hd
        /\ sourceEpoch <= i < targetEpoch /\ sourceEpoch < kv.Source hd)
  \/ (exists i hd,
        lg = [client.WarnSurrounded targetEpoch sourceEpoch i (kv.Source hd)]
        /\ r = Ok true
        /\ protect.holdsRecord wsPeriod h i hd
        /\ targetEpoch < i <= latest /\ kv.Source hd < sourceEpoch).
Proof.
  unfold client.isNewAttSlashable. cbn [kv.GetLatestEpochWritten kv.GetTargetData].
  fold (client.differenceOutsideWeakSubjectivityBounds wsPeriod latest targetEpoch).
  destruct (client.differenceOutsideWeakSubjectivityBounds _ _ _) eqn:Hwin.
  { intros Hrun. injection Hrun as <- <-. left. auto. }
  apply differenceOutside_false in Hwin; [|lia..].
  destruct (negb (kv.IsEmpty _) && _) eqn:Hdouble.
  - intros Hrun. injection Hrun as <- <-. right. left.
    apply andb_true_iff in Hdouble. destruct Hdouble as [Hfull Hroot].
    destruct (kv.slots h !! (targetEpoch mod wsPeriod)) as [hd|] eqn:Hslot;
      [|discriminate].
    exists hd. split; [reflexivity|]. split; [reflexivity|]. split; [assumption|].
    split; [reflexivity|]. apply negb_true_iff in Hfull. split; [assumption|].
    cbn [from_option] in Hroot. unfold client.bytesEqual in Hroot.
    apply negb_true_iff, bool_decide_eq_false in Hroot. congruence.
  - destruct (client.isSurroundVote _ _ _ _ _ _) as [[lg' r']|] eqn:Hscan;
      [|discriminate].
    destruct (isSurroundVote_reports _ _ _ Hscan)
      as [[-> ->]|[(i & hd & -> & -> & Hrec & Hi & Hsrc & _)
                  |(i & hd & -> & -> & Hrec & Hi & Hsrc & _)]];
      intros Hrun; injection Hrun as <- <-.
    + left. auto.
    + right. right. left. exists i, hd. auto.
    + right. right. right. exists i, hd. auto.
Qed.

End warnings.

(** ** The window of readable epochs *)

Section window.

Variable wsPeriod : Z.
Hypothesis wsPeriod_nonneg : 0 <= wsPeriod.
Variables latest i : Z.
Hypothesis latest_uint64 : latest <= u64.MaxUint64.

Lemma checkHistory_outside history :
  ~ (i <= latest /\ protect.inWindow wsPeriod latest i) ->
  client.checkHistoryAtTargetEpoch wsPeriod history latest i = Ok None.
Proof.
  intros Hout. unfold client.checkHistoryAtTargetEpoch.
  destruct (client.differenceOutsideWeakSubjectivityBounds wsPeriod latest i) eqn:Hwin;
    [reflexivity|].
  apply differenceOutside_false in Hwin; [|assumption..].
  destruct (Z.ltb_spec latest i); [reflexivity|]. exfalso. apply Hout. split; [lia|assumption].
Qed.

Lemma checkHistory_inside history :
  i <= latest -> protect.inWindow wsPeriod latest i ->
  client.checkHistoryAtTargetEpoch wsPeriod history latest i
  = match history with
    | kv.Enc h => Ok (kv.slots h !! (i mod wsPeriod))
    | _ => Err (ErrWrapf kv.errDataCorruption
                  "could not get target data for target epoch: %d" i)
    end.
Proof.
  intros Hle Hwin. unfold client.checkHistoryAtTargetEpoch.
  apply differenceOutside_false in Hwin; [|assumption..]. rewrite Hwin.
  destruct (Z.ltb_spec latest i); [lia|].
  destruct history; cbn; rewrite ?Zmod_mod; reflexivity.
Qed.

End window.

(** ** A history without recorded votes *)

Section blank.

Variable wsPeriod : Z.
Hypothesis wsPeriod_pos : 0 < wsPeriod.
Variable h : kv.AttestingHistory.
Hypothesis latest_below_max : kv.latestEpochWritten h < u64.MaxUint64.
Hypothesis blank :
  forall k hd, kv.slots h !! k = Some hd -> kv.IsEmpty (Some hd) = true.

Lemma blank_not_slashable sourceEpoch targetEpoch signingRoot :
  ~ verdict.slashableAgainst wsPeriod h sourceEpoch targetEpoch signingRoot.
Proof.
  intros [(hd & Hslot & Hfull & _)|[(i & hd & _ & (_ & _ & Hslot & Hfull) & _)
                                   |(i & hd & _ & (_ & _ & Hslot & Hfull) & _)]];
    apply blank in Hslot; congruence.
Qed.

End blank.

(** ** The ways the check ends *)

Section check_effects.

Variable wsPeriod : Z.
Variable fuel : nat.
Variable v : client.validator.
Variable st : client.State.
Variable att : ethpb.IndexedAttestation.
Variables pubKey signingRoot : list Z.

Local Abbreviation run :=
  (client.slashableAttestationCheck wsPeriod fuel v st att pubKey signingRoot).
Local Abbreviation verdictOn hist :=
  (client.isNewAttSlashable wsPeriod fuel hist (sourceOf att) (targetOf att) signingRoot).
Local Abbreviation markOn hist :=
  (kv.MarkAllAsAttestedSinceLatestWrittenEpoch wsPeriod hist (targetOf att)
     (voteOf att signingRoot)).
Local Abbreviation failCount := (effects.failCount v pubKey).
Local Abbreviation slasherFailCount := (effects.slasherFailCount v pubKey).
Local Abbreviation slasherCalls := (effects.slasherCalls v att).
Local Abbreviation ending :=
  (effects.ending wsPeriod fuel v st att pubKey signingRoot).

(** The ways [externalCheck] ends. *)
Lemma externalCheck_cases (st0 : client.State) :
  (protect.slasherOf v = None
   /\ client.externalCheck v st0 att pubKey = (st0, Ok tt))
  \/ (exists p, protect.slasherOf v = Some p
      /\ client.CheckAttestationSafety p att = false
      /\ client.externalCheck v st0 att pubKey
         = ({| client.db := client.db st0;
               client.trace := client.trace st0
                 ++ [client.EvCheckAttestationSafety att] ++ slasherFailCount |},
            Err (ErrNew client.failedPreAttSignExternalErr)))
  \/ (exists p, protect.slasherOf v = Some p
      /\ client.CheckAttestationSafety p att = true
      /\ client.CommitAttestation p att = false
      /\ client.externalCheck v st0 att pubKey
         = ({| client.db := client.db st0;
               client.trace := client.trace st0
                 ++ [client.EvCheckAttestationSafety att; client.EvCommitAttestation att]
                 ++ slasherFailCount |},
            Err (ErrNew client.failedPostAttSignExternalErr)))
  \/ (exists p, protect.slasherOf v = Some p
      /\ client.CheckAttestationSafety p att = true
      /\ client.CommitAttestation p att = true
      /\ client.externalCheck v st0 att pubKey
         = ({| client.db := client.db st0;
               client.trace := client.trace st0
                 ++ [client.EvCheckAttestationSafety att; client.EvCommitAttestation att] |},
            Ok tt)).
Proof.
  unfold client.externalCheck, protect.slasherOf, effects.slasherFailCount.
  destruct (if client.SlasherProtection v then client.protector v else None) as [p|].
  - right. destruct (client.CheckAttestationSafety p att) eqn:Hsafe.
    + right. destruct (client.CommitAttestation p att) eqn:Hcommit.
      * right. exists p. split; [reflexivity|].
        split; [assumption|]. split; [assumption|].
        unfold client.emit. simpl. rewrite <- app_assoc. reflexivity.
      * left. exists p. split; [reflexivity|].
        split; [assumption|]. split; [assumption|].
        unfold client.emit. simpl. rewrite <- !app_assoc. reflexivity.
    + left. exists p. split; [reflexivity|]. split; [assumption|].
      unfold client.emit. simpl. rewrite <- !app_assoc. reflexivity.
  - left. auto.
Qed.

(** Every run of the check ends in one of the ways of [effects.ending]. *)
Lemma run_ending st' res : run = Some (st', res) -> ending st' res.
Proof.
  unfold client.slashableAttestationCheck.
  fold (sourceOf att) (targetOf att) (voteOf att signingRoot).
  destruct (client.AttestationHistoryForPubKeyV2 (client.db st) pubKey)
    as [hist|err] eqn:Hload.
  - destruct (verdictOn hist) as [[lg [[|]|err]]|] eqn:Hverdict; [| | |discriminate].
    + intros Hrun. injection Hrun as <- <-.
      replace (client.emit (client.emit st (client.EvLog <$> lg)) failCount)
        with (client.emit st ((client.EvLog <$> lg) ++ failCount))
        by (unfold client.emit; simpl; rewrite app_assoc; reflexivity).
      eapply effects.EndSlashable; eassumption.
    + destruct (markOn hist) as [newHistory|err] eqn:Hmark.
      * unfold client.SaveAttestationHistoryForPubKeyV2.
        cbn [client.db client.emit client.trace].
        destruct (client.writeFault (client.db st)) as [err|] eqn:Hwrite.
        -- intros Hrun. injection Hrun as <- <-.
           eapply effects.EndWriteFault; eassumption.
        -- intros Hrun. injection Hrun as Hrun.
           destruct (client.externalCheck v _ att pubKey) as [st2 res2] eqn:Hext.
           injection Hrun as <- <-.
           eapply effects.EndSaved; try eassumption.
           unfold saved, client.emit. cbn [client.db client.trace].
           rewrite Hwrite. exact Hext.
      * intros Hrun. injection Hrun as <- <-. eapply effects.EndMarkFailed; eassumption.
    + intros Hrun. injection Hrun as <- <-. eapply effects.EndCheckFailed; eassumption.
  - intros Hrun. injection Hrun as <- <-.
    unfold client.AttestationHistoryForPubKeyV2 in Hload.
    destruct (client.readFault (client.db st)) as [err'|] eqn:Hread; [|discriminate].
    injection Hload as ->. apply effects.EndReadFault. assumption.
Qed.


(** The database after the external part is the one before it. *)
Lemma externalCheck_db (st0 st' : client.State) res :
  client.externalCheck v st0 att pubKey = (st', res) ->
  client.db st' = client.db st0
  /\ exists evs, client.trace st' = client.trace st0 ++ evs
       /\ List.filter protect.isHistoryWrite evs = []
       /\ (List.filter protect.isSlasherCall evs = []
           /\ protect.slasherOf v = None /\ res = Ok tt
           \/ List.filter protect.isSlasherCall evs
              = [client.EvCheckAttestationSafety att]
              /\ res = Err (ErrNew client.failedPreAttSignExternalErr)
           \/ List.filter protect.isSlasherCall evs
              = [client.EvCheckAttestationSafety att; client.EvCommitAttestation att]
              /\ (res = Ok tt
                  \/ res = Err (ErrNew client.failedPostAttSignExternalErr))).
Proof.
  intros Hext.
  destruct (externalCheck_cases st0)
    as [[Hnone Hrun]|[(p & Hp & Hsafe & Hrun)|[(p & Hp & Hsafe & Hcommit & Hrun)
        |(p & Hp & Hsafe & Hcommit & Hrun)]]];
    rewrite Hrun in Hext; injection Hext as <- <-; (split; [reflexivity|]).
  - exists []. rewrite app_nil_r. split; [reflexivity|]. split; [reflexivity|].
    left. auto.
  - eexists. split; [reflexivity|]. unfold effects.slasherFailCount.
    destruct (client.emitAccountMetrics v); (split; [reflexivity|]);
      right; left; auto.
  - eexists. split; [reflexivity|]. unfold effects.slasherFailCount.
    destruct (client.emitAccountMetrics v); (split; [reflexivity|]);
      right; right; auto.
  - eexists. split; [reflexivity|]. split; [reflexivity|]. right. right. auto.
Qed.

(** What the check does once the local verdict is known. *)
Lemma run_slashable hist lg :
  client.AttestationHistoryForPubKeyV2 (client.db st) pubKey = Ok hist ->
  verdictOn hist = Some (lg, Ok true) ->
  run = Some (client.emit st ((client.EvLog <$> lg) ++ failCount),
              Err (ErrNew client.failedAttLocalProtectionErr)).
Proof.
  intros Hload Hver. unfold client.slashableAttestationCheck.
  fold (sourceOf att) (targetOf att). rewrite Hload, Hver.
  unfold client.emit. simpl. rewrite app_assoc. reflexivity.
Qed.

Lemma run_saved hist lg newHistory :
  client.AttestationHistoryForPubKeyV2 (client.db st) pubKey = Ok hist ->
  verdictOn hist = Some (lg, Ok false) ->
  markOn hist = Ok newHistory ->
  client.writeFault (client.db st) = None ->
  run = Some (client.externalCheck v
                (saved (client.emit st (client.EvLog <$> lg)) pubKey newHistory)
                att pubKey).
Proof.
  intros Hload Hver Hmark Hwrite. unfold client.slashableAttestationCheck.
  fold (sourceOf att) (targetOf att) (voteOf att signingRoot).
  rewrite Hload, Hver, Hmark. unfold client.SaveAttestationHistoryForPubKeyV2.
  cbn [client.db client.emit client.trace]. rewrite Hwrite at 1. reflexivity.
Qed.

(** An accepted vote passed every step. *)
Lemma run_accepted_inv hist st' :
  client.AttestationHistoryForPubKeyV2 (client.db st) pubKey = Ok hist ->
  run = Some (st', Ok tt) ->
  exists lg newHistory,
    verdictOn hist = Some (lg, Ok false)
    /\ markOn hist = Ok newHistory
    /\ client.writeFault (client.db st) = None
    /\ (forall p, protect.slasherOf v = Some p ->
          client.CheckAttestationSafety p att = true
          /\ client.CommitAttestation p att = true)
    /\ client.db st' = client.db (saved st pubKey newHistory)
    /\ client.trace st' =
         client.trace st ++ (client.EvLog <$> lg)
           ++ [client.EvSaveHistory pubKey newHistory] ++ slasherCalls.
Proof.
  intros Hload Hrun. apply run_ending in Hrun.
  inversion Hrun as [| | | | |hist' lg newHistory st2 res2 Hload' Hver Hmark Hwrite Hext];
    subst.
  rewrite Hload in Hload'. injection Hload' as <-.
  exists lg, newHistory. split; [assumption|]. split; [assumption|].
  split; [assumption|].
  split; [apply (externalCheck_accepts _ _ _ _ _ Hext)|].
  unfold effects.slasherCalls.
  destruct (externalCheck_cases
              (saved (client.emit st (client.EvLog <$> lg)) pubKey newHistory))
    as [[Hnone Hrun']|[(p & Hp & Hsafe & Hrun')|[(p & Hp & Hsafe & Hcommit & Hrun')
        |(p & Hp & Hsafe & Hcommit & Hrun')]]];
    rewrite Hrun' in Hext; try discriminate; injection Hext as <-.
  - rewrite Hnone. split; [reflexivity|]. simpl.
    rewrite <- ?app_assoc. reflexivity.
  - rewrite Hp. split; [reflexivity|]. simpl.
    rewrite <- ?app_assoc. reflexivity.
Qed.

(** A vote that passes every step is accepted. *)
Lemma run_accepted hist lg newHistory :
  client.AttestationHistoryForPubKeyV2 (client.db st) pubKey = Ok hist ->
  verdictOn hist = Some (lg, Ok false) ->
  markOn hist = Ok newHistory ->
  client.writeFault (client.db st) = None ->
  (forall p, protect.slasherOf v = Some p ->
     client.CheckAttestationSafety p att = true
     /\ client.CommitAttestation p att = true) ->
  exists st', run = Some (st', Ok tt).
Proof.
  intros Hload Hver Hmark Hwrite Hslasher.
  rewrite (run_saved hist lg newHistory Hload Hver Hmark Hwrite).
  destruct (externalCheck_cases
              (saved (client.emit st (client.EvLog <$> lg)) pubKey newHistory))
    as [[Hnone Hrun']|[(p & Hp & Hsafe & Hrun')|[(p & Hp & Hsafe & Hcommit & Hrun')
        |(p & Hp & Hsafe & Hcommit & Hrun')]]];
    rewrite Hrun'; eauto;
    destruct (Hslasher p Hp); congruence.
Qed.

End check_effects.

(** ** The history after a vote is recorded *)

Section marked.

Variable wsPeriod : Z.
Hypothesis wsPeriod_pos : 0 < wsPeriod.

Lemma clearEpochs_cleared (n : nat) :
  forall e (s : gmap Z kv.HistoryData) j,
  e <= j < e + Z.of_nat n ->
  kv.clearEpochs wsPeriod n e s !! (j mod wsPeriod) = Some kv.emptyRecord.
Proof.
  induction n as [|n IH]; intros e s j Hj; [lia|]. cbn [kv.clearEpochs].
  destruct (Z.eq_dec j e) as [->|Hne].
  - clear IH Hj. generalize (e + 1). revert s.
    induction n as [|n IHn]; intros s e'; cbn [kv.clearEpochs].
    + apply lookup_insert_eq.
    + destruct (Z.eq_dec (e' mod wsPeriod) (e mod wsPeriod)) as [Heq|Hneq].
      * rewrite <- Heq at 2. rewrite insert_insert_eq.
        rewrite Heq. apply (IHn _ (e' + 1)).
      * rewrite insert_insert_ne by congruence. apply IHn.
  - apply IH. lia.
Qed.

Lemma clearEpochs_keeps (n : nat) :
  forall e (s : gmap Z kv.HistoryData) k hd,
  kv.clearEpochs wsPeriod n e s !! k = Some hd ->
  hd = kv.emptyRecord \/ s !! k = Some hd.
Proof.
  induction n as [|n IH]; intros e s k hd Hlook; cbn [kv.clearEpochs] in Hlook.
  - right. assumption.
  - apply IH in Hlook. destruct Hlook as [Hempty|Hlook]; [left; assumption|].
    destruct (Z.eq_dec (e mod wsPeriod) k) as [<-|Hne].
    + rewrite lookup_insert_eq in Hlook. left. congruence.
    + rewrite lookup_insert_ne in Hlook by assumption. right. assumption.
Qed.

Variable h : kv.AttestingHistory.
Variable target : Z.
Variable vote : kv.HistoryData.

Local Abbreviation h' := (kv.markHistory wsPeriod h target vote).

Lemma marked_latest :
  kv.latestEpochWritten h' = Z.max (kv.latestEpochWritten h) target.
Proof. reflexivity. Qed.

Lemma marked_slot : kv.slots h' !! (target mod wsPeriod) = Some vote.
Proof. apply lookup_insert_eq. Qed.

Lemma inWindow_earlier latest latest' i :
  latest <= latest' ->
  protect.inWindow wsPeriod latest' i -> protect.inWindow wsPeriod latest i.
Proof. unfold protect.inWindow. lia. Qed.

Lemma inWindow_marked :
  protect.inWindow wsPeriod (kv.latestEpochWritten h) target ->
  protect.inWindow wsPeriod (kv.latestEpochWritten h') target.
Proof. rewrite marked_latest. unfold protect.inWindow. lia. Qed.

(** A non-empty record of the marked history is the vote itself or a
    record that the history held before. *)
Lemma holdsRecord_marked i hd :
  protect.holdsRecord wsPeriod h' i hd ->
  (i mod wsPeriod = target mod wsPeriod /\ hd = vote)
  \/ protect.holdsRecord wsPeriod h i hd.
Proof.
  intros (Hle & Hwin & Hslot & Hfull). rewrite marked_latest in Hle, Hwin.
  destruct (Z.eq_dec (i mod wsPeriod) (target mod wsPeriod)) as [Heq|Hne].
  - left. split; [assumption|]. rewrite Heq, marked_slot in Hslot. congruence.
  - right. cbn [kv.markHistory kv.slots] in Hslot.
    rewrite lookup_insert_ne in Hslot by congruence.
    assert (hd <> kv.emptyRecord) as Hnonempty.
    { intros ->. cbn in Hfull. rewrite Z.eqb_refl in Hfull. discriminate. }
    assert (i <= kv.latestEpochWritten h) as Hold.
    { destruct (Z.le_gt_cases i (kv.latestEpochWritten h)) as [|Hnew]; [assumption|].
      exfalso. assert (i <> target) by congruence.
      rewrite (clearEpochs_cleared _ _ _ i) in Hslot by lia. congruence. }
    apply clearEpochs_keeps in Hslot. destruct Hslot as [Hempty|Hslot]; [contradiction|].
    split; [assumption|]. split; [|split; assumption].
    eapply inWindow_earlier; [|exact Hwin]. lia.
Qed.

(** The marked history holds the vote for its target epoch. *)
Lemma holdsRecord_vote :
  kv.Source vote <> kv.FarFutureEpoch ->
  protect.inWindow wsPeriod (kv.latestEpochWritten h) target ->
  protect.holdsRecord wsPeriod h' target vote.
Proof.
  intros Hsrc Hwin. split; [rewrite marked_latest; lia|].
  split; [apply inWindow_marked; assumption|].
  split; [apply marked_slot|].
  cbn. apply Z.eqb_neq. assumption.
Qed.

(** Marking the same vote again changes nothing. *)
Lemma markHistory_again : kv.markHistory wsPeriod h' target vote = h'.
Proof.
  unfold kv.markHistory at 1. rewrite marked_latest.
  replace (Z.to_nat (target - Z.max (kv.latestEpochWritten h) target - 1)) with O by lia.
  cbn [kv.clearEpochs]. rewrite Z.max_l by lia.
  unfold kv.markHistory. cbn [kv.slots kv.latestEpochWritten].
  rewrite insert_insert_eq. reflexivity.
Qed.

End marked.

(** ** Votes after an accepted vote *)

Section after_accept.

Variable wsPeriod : Z.
Hypothesis wsPeriod_pos : 0 < wsPeriod.

Variable v : client.validator.
Variable st : client.State.
Variable pubKey : list Z.
Variable h : kv.AttestingHistory.
Hypothesis loaded :
  client.AttestationHistoryForPubKeyV2 (client.db st) pubKey = Ok (kv.Enc h).
Hypothesis latest_below_max : kv.latestEpochWritten h < u64.MaxUint64.

Variable att1 : ethpb.IndexedAttestation.
Variable root1 : list Z.
Hypothesis source1_uint64 : 0 <= sourceOf att1.
Hypothesis target1_uint64 : 0 <= targetOf att1 < u64.MaxUint64.

Variable fuel1 : nat.
Variable st1 : client.State.
Hypothesis accepted :
  client.slashableAttestationCheck wsPeriod fuel1 v st att1 pubKey root1
  = Some (st1, Ok tt).

Local Abbreviation h1 :=
  (kv.markHistory wsPeriod h (targetOf att1) (voteOf att1 root1)).

Lemma accepted_steps :
  exists lg,
    client.isNewAttSlashable wsPeriod fuel1 (kv.Enc h) (sourceOf att1) (targetOf att1)
      root1 = Some (lg, Ok false)
    /\ client.readFault (client.db st) = None
    /\ client.writeFault (client.db st) = None
    /\ (forall p, protect.slasherOf v = Some p ->
          client.CheckAttestationSafety p att1 = true
          /\ client.CommitAttestation p att1 = true)
    /\ client.db st1 = client.db (saved st pubKey (kv.Enc h1)).
Proof.
  destruct (run_accepted_inv wsPeriod fuel1 v st att1 pubKey root1 _ _ loaded accepted)
    as (lg & newHistory & Hver & Hmark & Hwrite & Hslasher & Hdb & _).
  cbn in Hmark. injection Hmark as <-.
  exists lg. split; [assumption|]. split; [|auto].
  unfold client.AttestationHistoryForPubKeyV2 in loaded.
  destruct (client.readFault (client.db st)); [discriminate|reflexivity].
Qed.

Lemma accepted_loaded :
  client.AttestationHistoryForPubKeyV2 (client.db st1) pubKey = Ok (kv.Enc h1).
Proof.
  destruct accepted_steps as (_ & _ & Hread & _ & _ & ->).
  unfold client.AttestationHistoryForPubKeyV2, saved.
  cbn [client.db client.readFault client.contents].
  rewrite Hread, lookup_insert_eq. reflexivity.
Qed.

Lemma marked_latest_below_max : kv.latestEpochWritten h1 < u64.MaxUint64.
Proof. rewrite marked_latest. lia. Qed.

(** The vote was inside the window of the history it was checked against,
    or the stale rule let it pass. *)
Lemma accepted_not_slashable :
  ~ (protect.inWindow wsPeriod (kv.latestEpochWritten h) (targetOf att1)
     /\ verdict.slashableAgainst wsPeriod h (sourceOf att1) (targetOf att1) root1).
Proof.
  destruct accepted_steps as (lg & Hver & _).
  apply (answers_false_iff wsPeriod ltac:(lia) h ltac:(lia) _ _
           source1_uint64 target1_uint64 latest_below_max root1).
  exists fuel1, lg. exact Hver.
Qed.

Section later_vote.

Variable att2 : ethpb.IndexedAttestation.
Variable root2 : list Z.
Hypothesis source2_uint64 : 0 <= sourceOf att2.
Hypothesis target2_uint64 : 0 <= targetOf att2 < u64.MaxUint64.

(** A vote that the local check finds slashable against the recorded
    history is refused, and the database is left as it is, by every check
    that is given the recorded history for the key. *)
Lemma later_vote_refused (v2 : client.validator) (st2 : client.State) :
  client.AttestationHistoryForPubKeyV2 (client.db st2) pubKey
  = client.AttestationHistoryForPubKeyV2 (client.db st1) pubKey ->
  protect.inWindow wsPeriod (kv.latestEpochWritten h1) (targetOf att2) ->
  verdict.slashableAgainst wsPeriod h1 (sourceOf att2) (targetOf att2) root2 ->
  exists fuel2 st3,
    client.slashableAttestationCheck wsPeriod fuel2 v2 st2 att2 pubKey root2
    = Some (st3, Err (ErrNew client.failedAttLocalProtectionErr))
    /\ client.db st3 = client.db st2.
Proof.
  intros Hsame Hwin Hsl. rewrite accepted_loaded in Hsame.
  destruct (proj2 (answers_true_iff wsPeriod ltac:(lia) h1
                     ltac:(pose proof marked_latest_below_max; lia) _ _
                     source2_uint64 target2_uint64 marked_latest_below_max root2)
              (conj Hwin Hsl)) as (fuel2 & lg & Hver).
  exists fuel2. eexists. split.
  - apply (run_slashable _ _ _ _ _ _ _ _ _ Hsame Hver).
  - reflexivity.
Qed.

(** A second vote for the same target with another signing root. *)
Lemma double_vote_after_accept :
  sourceOf att1 < u64.MaxUint64 ->
  protect.inWindow wsPeriod (kv.latestEpochWritten h) (targetOf att1) ->
  targetOf att2 = targetOf att1 -> root2 <> root1 ->
  protect.inWindow wsPeriod (kv.latestEpochWritten h1) (targetOf att2)
  /\ verdict.slashableAgainst wsPeriod h1 (sourceOf att2) (targetOf att2) root2.
Proof.
  intros Hsrc Hwin Htarget Hroot. rewrite Htarget.
  split; [apply inWindow_marked; assumption|].
  left. exists (voteOf att1 root1).
  split; [apply marked_slot|]. split; [|cbn; congruence].
  cbn. apply Z.eqb_neq. unfold kv.FarFutureEpoch. lia.
Qed.

(** A vote that surrounds the accepted one. *)
Lemma surrounding_vote_after_accept :
  sourceOf att1 <= targetOf att1 ->
  protect.inWindow wsPeriod (kv.latestEpochWritten h) (targetOf att1) ->
  sourceOf att2 < sourceOf att1 -> targetOf att1 < targetOf att2 ->
  protect.inWindow wsPeriod (kv.latestEpochWritten h1) (targetOf att2)
  /\ verdict.slashableAgainst wsPeriod h1 (sourceOf att2) (targetOf att2) root2.
Proof.
  intros Hle Hwin Hsrc Htgt. split.
  - rewrite marked_latest. unfold protect.inWindow in *. lia.
  - right. left. exists (targetOf att1), (voteOf att1 root1).
    split; [lia|]. split; [|split; [exact Hsrc | exact Htgt]].
    apply holdsRecord_vote; [assumption| |assumption].
    cbn. unfold kv.FarFutureEpoch. lia.
Qed.

(** A vote that the accepted one surrounds. *)
Lemma surrounded_vote_after_accept :
  sourceOf att1 < u64.MaxUint64 ->
  protect.inWindow wsPeriod (kv.latestEpochWritten h) (targetOf att1) ->
  sourceOf att1 < sourceOf att2 -> targetOf att2 < targetOf att1 ->
  verdict.slashableAgainst wsPeriod h1 (sourceOf att2) (targetOf att2) root2.
Proof.
  intros Hmax Hwin Hsrc Htgt.
  right. right. exists (targetOf att1), (voteOf att1 root1).
  split; [rewrite marked_latest; lia|]. split; [|split; [exact Hsrc | exact Htgt]].
  apply holdsRecord_vote; [assumption| |assumption].
  cbn. unfold kv.FarFutureEpoch. lia.
Qed.

End later_vote.

(** The accepted vote is not slashable against the history that records
    it. *)
Lemma accepted_vote_stays_safe :
  ~ (protect.inWindow wsPeriod (kv.latestEpochWritten h1) (targetOf att1)
     /\ verdict.slashableAgainst wsPeriod h1 (sourceOf att1) (targetOf att1) root1).
Proof.
  intros [Hwin1 Hsl]. apply accepted_not_slashable.
  assert (protect.inWindow wsPeriod (kv.latestEpochWritten h) (targetOf att1)) as Hwin.
  { eapply inWindow_earlier; [|exact Hwin1]. rewrite marked_latest. lia. }
  split; [exact Hwin|].
  destruct Hsl as [(hd & Hslot & _ & Hroot)|[(i & hd & Hi & Hrec & Hsrc & Htgt)
                                          |(i & hd & Hi & Hrec & Hsrc & Htgt)]].
  - rewrite marked_slot in Hslot. injection Hslot as <-. cbn in Hroot. congruence.
  - right. left. apply holdsRecord_marked in Hrec.
    destruct Hrec as [[_ ->]|Hrec]; [cbn in Hsrc; lia|].
    exists i, hd. auto.
  - right. right. apply holdsRecord_marked in Hrec.
    destruct Hrec as [[_ ->]|Hrec]; [cbn in Hsrc; lia|].
    exists i, hd. split; [|auto]. destruct Hrec as (Hle & _). lia.
Qed.

(** The accepted vote, submitted again, is accepted again and leaves the
    database as it is. *)
Lemma revote_accepted :
  exists fuel2 st2,
    client.slashableAttestationCheck wsPeriod fuel2 v st1 att1 pubKey root1
    = Some (st2, Ok tt)
    /\ client.db st2 = client.db st1.
Proof.
  destruct (proj2 (answers_false_iff wsPeriod ltac:(lia) h1
                     ltac:(pose proof marked_latest_below_max; lia) _ _
                     source1_uint64 target1_uint64 marked_latest_below_max root1)
              accepted_vote_stays_safe) as (fuel2 & lg & Hver).
  destruct accepted_steps as (_ & _ & _ & Hwrite & Hslasher & Hdb1).
  destruct (run_accepted wsPeriod fuel2 v st1 att1 pubKey root1 _ _ _
              accepted_loaded Hver eq_refl) as (st2 & Hrun);
    [rewrite Hdb1; exact Hwrite | exact Hslasher |].
  exists fuel2, st2. split; [exact Hrun|].
  destruct (run_accepted_inv wsPeriod fuel2 v st1 att1 pubKey root1 _ _
              accepted_loaded Hrun) as (_ & newHistory & _ & Hmark & _ & _ & Hdb & _).
  cbn in Hmark. injection Hmark as <-. rewrite Hdb.
  fold (voteOf att1 root1). rewrite markHistory_again.
  unfold saved at 1. cbn [client.db]. rewrite !Hdb1.
  unfold saved. cbn [client.db client.contents client.readFault client.writeFault].
  rewrite insert_insert_eq. reflexivity.
Qed.

End after_accept.

(** ** Executions of the loop bodies that the check needs *)

Section check_returns.

Variable wsPeriod : Z.
Hypothesis wsPeriod_pos : 0 < wsPeriod.

Lemma isNewAttSlashable_fuel_mono hist sourceEpoch targetEpoch signingRoot fuel r :
  client.isNewAttSlashable wsPeriod fuel hist sourceEpoch targetEpoch signingRoot
    = Some r ->
  forall fuel', (fuel <= fuel')%nat ->
  client.isNewAttSlashable wsPeriod fuel' hist sourceEpoch targetEpoch signingRoot
    = Some r.
Proof.
  intros Hrun fuel' Hle. destruct hist as [| |h]; [exact Hrun..|].
  revert Hrun. unfold client.isNewAttSlashable.
  cbn [kv.GetLatestEpochWritten kv.GetTargetData].
  destruct (_ && _); [auto|]. destruct (_ && _); [auto|].
  destruct (client.isSurroundVote wsPeriod fuel _ _ _ _) as [out|] eqn:Hscan;
    [|discriminate].
  rewrite (isSurroundVote_fuel_mono wsPeriod h sourceEpoch targetEpoch fuel out
             Hscan fuel' Hle).
  auto.
Qed.

Lemma slashableAttestationCheck_fuel_mono v st att pubKey signingRoot fuel out :
  client.slashableAttestationCheck wsPeriod fuel v st att pubKey signingRoot
    = Some out ->
  forall fuel', (fuel <= fuel')%nat ->
  client.slashableAttestationCheck wsPeriod fuel' v st att pubKey signingRoot
    = Some out.
Proof.
  unfold client.slashableAttestationCheck. intros Hrun fuel' Hle.
  destruct (client.AttestationHistoryForPubKeyV2 (client.db st) pubKey)
    as [hist|err]; [|exact Hrun].
  destruct (client.isNewAttSlashable wsPeriod fuel hist _ _ signingRoot)
    as [r|] eqn:Hver; [|discriminate].
  rewrite (isNewAttSlashable_fuel_mono _ _ _ _ _ _ Hver fuel' Hle). exact Hrun.
Qed.

Lemma isNewAttSlashable_some hist sourceEpoch targetEpoch signingRoot :
  0 <= sourceEpoch -> 0 <= targetEpoch < u64.MaxUint64 ->
  (forall h, hist = kv.Enc h -> kv.latestEpochWritten h < u64.MaxUint64) ->
  exists fuel r,
    client.isNewAttSlashable wsPeriod fuel hist sourceEpoch targetEpoch signingRoot
    = Some r.
Proof.
  intros Hs Ht Hl. destruct hist as [| |h].
  - exists 0%nat. eexists. reflexivity.
  - exists 0%nat. eexists. reflexivity.
  - pose proof (Hl h eq_refl) as Hlatest.
    destruct (isNewAttSlashable_returns wsPeriod ltac:(lia) h ltac:(lia)
                sourceEpoch targetEpoch Hs Ht Hlatest signingRoot)
      as (b & fuel & lg & Hrun).
    eauto.
Qed.

Lemma slashableAttestationCheck_some v st att pubKey signingRoot :
  0 <= sourceOf att -> 0 <= targetOf att < u64.MaxUint64 ->
  (forall h, client.contents (client.db st) !! pubKey = Some (kv.Enc h) ->
     kv.latestEpochWritten h < u64.MaxUint64) ->
  exists fuel out,
    forall fuel', (fuel <= fuel')%nat ->
    client.slashableAttestationCheck wsPeriod fuel' v st att pubKey signingRoot
    = Some out.
Proof.
  intros Hs Ht Hl.
  assert (exists fuel out,
            client.slashableAttestationCheck wsPeriod fuel v st att pubKey signingRoot
            = Some out) as (fuel & out & Hrun).
  { unfold client.slashableAttestationCheck.
    fold (sourceOf att) (targetOf att) (voteOf att signingRoot).
    destruct (client.AttestationHistoryForPubKeyV2 (client.db st) pubKey)
      as [hist|err] eqn:Hload; [|exists 0%nat; eauto].
    destruct (isNewAttSlashable_some hist (sourceOf att) (targetOf att) signingRoot
                Hs Ht) as (fuel & [lg r] & Hver).
    { intros h ->. unfold client.AttestationHistoryForPubKeyV2 in Hload.
      destruct (client.readFault (client.db st)); [discriminate|].
      injection Hload as Hload.
      destruct (client.contents (client.db st) !! pubKey) as [stored|] eqn:Hstored.
      - cbn in Hload. subst stored. apply Hl. reflexivity.
      - cbn in Hload. injection Hload as <-. cbn. unfold u64.MaxUint64. lia. }
    exists fuel. rewrite Hver.
    destruct r as [[|]|err]; [eauto| |eauto].
    destruct (kv.MarkAllAsAttestedSinceLatestWrittenEpoch _ _ _ _); [|eauto].
    destruct (client.SaveAttestationHistoryForPubKeyV2 _ _ _); eauto. }
  exists fuel, out. intros fuel' Hle.
  eapply slashableAttestationCheck_fuel_mono; eassumption.
Qed.

End check_returns.

(** ** The outcomes of the surround scans and of the local check *)

(** On a readable history whose latest written epoch and the target epoch
    are below the largest [uint64], [isSurroundVote] returns within
    [max (targetEpoch - sourceEpoch + 1) (latestEpochWritten - targetEpoch + 1)]
    executions of a loop body per scan, and never with an error.  It
    answers [false] exactly when no recorded vote of the window is
    surrounded by the new vote and none surrounds it. *)
Theorem surround_scan_passes (wsPeriod : Z) (h : kv.AttestingHistory)
    (sourceEpoch targetEpoch : Z) :
  0 < wsPeriod ->
  kv.latestEpochWritten h < u64.MaxUint64 ->
  0 <= sourceEpoch ->
  0 <= targetEpoch < u64.MaxUint64 ->
  (exists lg b,
     client.isSurroundVote wsPeriod
       (Z.to_nat (Z.max (targetEpoch - sourceEpoch + 1)
                        (kv.latestEpochWritten h - targetEpoch + 1)))
       (kv.Enc h) (kv.latestEpochWritten h) sourceEpoch targetEpoch
     = Some (lg, Ok b))
  /\ (verdict.passesSurround wsPeriod h sourceEpoch targetEpoch
      <-> ~ protect.surroundsRecorded wsPeriod h sourceEpoch targetEpoch
          /\ ~ protect.surroundedByRecorded wsPeriod h sourceEpoch targetEpoch).
Proof.
  intros Hp Hl Hs Ht. split.
  - destruct (isSurroundVote_returns wsPeriod h sourceEpoch targetEpoch Hs Ht Hl)
      as ([lg r] & Hrun).
    destruct (isSurroundVote_outcome wsPeriod ltac:(lia) h ltac:(lia) _ _ _ _ _ Hrun)
      as [[_ ->]|[[-> _]|[-> _]]]; eauto.
  - apply passesSurround_iff; first [assumption | lia].
Qed.

(** With a period of 8 and the vote [(4, 5)] on record, the vote [(5, 6)]
    is scanned within two executions per loop. *)
Lemma surround_scan_passes_witness :
  (exists lg b,
     client.isSurroundVote 8 (Z.to_nat (Z.max (6 - 5 + 1) (5 - 6 + 1)))
       (kv.Enc sample.history5) 5 5 6 = Some (lg, Ok b))
  /\ (verdict.passesSurround 8 sample.history5 5 6
      <-> ~ protect.surroundsRecorded 8 sample.history5 5 6
          /\ ~ protect.surroundedByRecorded 8 sample.history5 5 6).
Proof.
  apply (surround_scan_passes 8 sample.history5 5 6);
    simpl; unfold u64.MaxUint64; lia.
Defined.

(** The first scan of [isSurroundVote] reports the recorded vote with the
    lowest target epoch that the new vote surrounds; the second scan, run
    only when the first found nothing, reports the recorded vote with the
    lowest target epoch that surrounds the new vote.  The warning names
    the target and source epochs of that record. *)
Theorem surround_scan_reports_first (wsPeriod : Z) (h : kv.AttestingHistory)
    (sourceEpoch targetEpoch : Z) (fuel : nat) (lg : list client.LogEntry)
    (r : result bool) :
  0 < wsPeriod ->
  kv.latestEpochWritten h < u64.MaxUint64 ->
  0 <= sourceEpoch ->
  0 <= targetEpoch < u64.MaxUint64 ->
  client.isSurroundVote wsPeriod fuel (kv.Enc h) (kv.latestEpochWritten h)
    sourceEpoch targetEpoch = Some (lg, r) ->
  (lg = [] /\ r = Ok false)
  \/ (exists i hd,
        lg = [client.WarnSurrounding targetEpoch sourceEpoch i (kv.Source hd)]
        /\ r = Ok true
        /\ protect.holdsRecord wsPeriod h i hd
        /\ sourceEpoch <= i < targetEpoch /\ sourceEpoch < kv.Source hd
        /\ forall j hd', sourceEpoch <= j < i ->
             protect.holdsRecord wsPeriod h j hd' -> kv.Source hd' <= sourceEpoch)
  \/ (exists i hd,
        lg = [client.WarnSurrounded targetEpoch sourceEpoch i (kv.Source hd)]
        /\ r = Ok true
        /\ protect.holdsRecord wsPeriod h i hd
        /\ targetEpoch < i <= kv.latestEpochWritten h /\ kv.Source hd < sourceEpoch
        /\ ~ protect.surroundsRecorded wsPeriod h sourceEpoch targetEpoch
        /\ forall j hd', targetEpoch < j < i ->
             protect.holdsRecord wsPeriod h j hd' -> sourceEpoch <= kv.Source hd').
Proof.
  intros Hp Hl Hs Ht. apply isSurroundVote_reports; first [assumption | lia].
Qed.

(** With a period of 8 and the votes [(15, 16)] and [(3, 20)] on record,
    the vote [(14, 17)] is reported as surrounding the record of target
    epoch 16. *)
Lemma surround_scan_reports_first_witness :
  exists hd,
    protect.holdsRecord 8 sample.historyBoth 16 hd /\ kv.Source hd = 15.
Proof.
  destruct (surround_scan_reports_first 8 sample.historyBoth 14 17 4
              [client.WarnSurrounding 17 14 16 15] (Ok true)
              ltac:(lia) ltac:(simpl; unfold u64.MaxUint64; lia) ltac:(lia)
              ltac:(unfold u64.MaxUint64; lia) eq_refl)
    as [[Hlog _]|[(i & hd & Hlog & _ & Hrec & _)|(i & hd & Hlog & _)]];
    [discriminate| |discriminate].
  injection Hlog as <- Hsrc. exists hd. split; [exact Hrec | symmetry; exact Hsrc].
Defined.

(** On a readable history, with the latest written epoch and the target
    epoch below the largest [uint64], [isNewAttSlashable] returns an
    answer and no error.  The answer is [true] exactly when the target
    epoch is inside the window and one of the three tests fires: the slot
    of the target epoch holds a record with another signing root, the vote
    surrounds a recorded vote, or a recorded vote surrounds it. *)
Theorem local_check_decides (wsPeriod : Z) (h : kv.AttestingHistory)
    (sourceEpoch targetEpoch : Z) (signingRoot : list Z) :
  0 < wsPeriod ->
  kv.latestEpochWritten h < u64.MaxUint64 ->
  0 <= sourceEpoch ->
  0 <= targetEpoch < u64.MaxUint64 ->
  (exists b, verdict.answers wsPeriod h sourceEpoch targetEpoch signingRoot b)
  /\ (verdict.answers wsPeriod h sourceEpoch targetEpoch signingRoot true
      <-> protect.inWindow wsPeriod (kv.latestEpochWritten h) targetEpoch
          /\ verdict.slashableAgainst wsPeriod h sourceEpoch targetEpoch signingRoot)
  /\ (verdict.answers wsPeriod h sourceEpoch targetEpoch signingRoot false
      <-> ~ (protect.inWindow wsPeriod (kv.latestEpochWritten h) targetEpoch
             /\ verdict.slashableAgainst wsPeriod h sourceEpoch targetEpoch
                  signingRoot)).
Proof.
  intros Hp Hl Hs Ht.
  split; [apply isNewAttSlashable_returns; first [assumption | lia]|].
  split; [apply answers_true_iff | apply answers_false_iff];
    first [assumption | lia].
Qed.

(** With a period of 8 and the vote [(4, 5)] on record, the check decides
    on the vote [(3, 6)]. *)
Lemma local_check_decides_witness :
  (exists b, verdict.answers 8 sample.history5 3 6 sample.rootB b)
  /\ (verdict.answers 8 sample.history5 3 6 sample.rootB true
      <-> protect.inWindow 8 5 6
          /\ verdict.slashableAgainst 8 sample.history5 3 6 sample.rootB)
  /\ (verdict.answers 8 sample.history5 3 6 sample.rootB false
      <-> ~ (protect.inWindow 8 5 6
             /\ verdict.slashableAgainst 8 sample.history5 3 6 sample.rootB)).
Proof.
  apply (local_check_decides 8 sample.history5 3 6 sample.rootB);
    simpl; unfold u64.MaxUint64; lia.
Defined.

(** Whatever [isNewAttSlashable] returns on a readable history is one of
    four things: [false] with nothing logged, or [true] with exactly one
    warning.  A double-vote warning names the signing root that the slot
    of the target epoch holds, which differs from the new one; a surround
    warning names the target and source epochs of a record of the history
    that the new vote surrounds, or that surrounds it. *)
Theorem local_check_warnings (wsPeriod : Z) (h : kv.AttestingHistory)
    (sourceEpoch targetEpoch : Z) (signingRoot : list Z) (fuel : nat)
    (lg : list client.LogEntry) (r : result bool) :
  0 < wsPeriod ->
  kv.latestEpochWritten h < u64.MaxUint64 ->
  0 <= sourceEpoch ->
  0 <= targetEpoch < u64.MaxUint64 ->
  client.isNewAttSlashable wsPeriod fuel (kv.Enc h) sourceEpoch targetEpoch signingRoot
    = Some (lg, r) ->
  (lg = [] /\ r = Ok false)
  \/ (exists hd,
        lg = [client.WarnDoubleVote signingRoot targetEpoch (kv.SigningRoot hd)]
        /\ r = Ok true
        /\ protect.inWindow wsPeriod (kv.latestEpochWritten h) targetEpoch
        /\ kv.slots h !! (targetEpoch mod wsPeriod) = Some hd
        /\ kv.IsEmpty (Some hd) = false
        /\ kv.SigningRoot hd <> signingRoot)
  \/ (exists i hd,
        lg = [client.WarnSurrounding targetEpoch sourceEpoch i (kv.Source hd)]
        /\ r = Ok true
        /\ protect.holdsRecord wsPeriod h i hd
        /\ sourceEpoch <= i < targetEpoch /\ sourceEpoch < kv.Source hd)
  \/ (exists i hd,
        lg = [client.WarnSurrounded targetEpoch sourceEpoch i (kv.Source hd)]
        /\ r = Ok true
        /\ protect.holdsRecord wsPeriod h i hd
        /\ targetEpoch < i <= kv.latestEpochWritten h /\ kv.Source hd < sourceEpoch).
Proof.
  intros Hp Hl Hs Ht. apply isNewAttSlashable_reports; first [assumption | lia].
Qed.

(** With a period of 8 and the vote [(4, 5)] with root [rootA] on record,
    the double-vote warning for the vote [(4, 5)] with root [rootB] names
    the recorded root. *)
Lemma local_check_warnings_witness :
  exists hd,
    kv.slots sample.history5 !! (5 mod 8) = Some hd
    /\ kv.SigningRoot hd = sample.rootA.
Proof.
  destruct (local_check_warnings 8 sample.history5 4 5 sample.rootB 0
              [client.WarnDoubleVote sample.rootB 5 sample.rootA] (Ok true)
              ltac:(lia) ltac:(simpl; unfold u64.MaxUint64; lia) ltac:(lia)
              ltac:(unfold u64.MaxUint64; lia) eq_refl)
    as [[Hlog _]|[(hd & Hlog & _ & _ & Hslot & _)
                 |[(i & hd & Hlog & _)|(i & hd & Hlog & _)]]];
    [discriminate| |discriminate..].
  injection Hlog as Hroot. exists hd. split; [exact Hslot | symmetry; exact Hroot].
Defined.

(** ** The window that [checkHistoryAtTargetEpoch] reads *)

(** For epochs that are [uint64] values:
    [differenceOutsideWeakSubjectivityBounds] holds exactly when the epoch
    is at least one period behind the latest written one, the subtraction
    never wrapping; [checkHistoryAtTargetEpoch] returns [nil] with no
    error, and without reading the history, for every epoch that is after
    the latest written one or at least one period behind it; for every
    other epoch it returns what the slot [epoch mod WeakSubjectivityPeriod]
    holds, or the wrapped error of a history that cannot be read. *)
Theorem checkHistoryAtTargetEpoch_window (wsPeriod : Z)
    (history : kv.EncHistoryData) (latestEpochWritten targetEpoch : Z) :
  0 < wsPeriod ->
  latestEpochWritten <= u64.MaxUint64 ->
  0 <= targetEpoch ->
  (client.differenceOutsideWeakSubjectivityBounds wsPeriod latestEpochWritten
     targetEpoch = true
   <-> targetEpoch + wsPeriod <= latestEpochWritten)
  /\ (latestEpochWritten < targetEpoch
      \/ targetEpoch + wsPeriod <= latestEpochWritten ->
      client.checkHistoryAtTargetEpoch wsPeriod history latestEpochWritten targetEpoch
      = Ok None)
  /\ (latestEpochWritten - wsPeriod < targetEpoch <= latestEpochWritten ->
      client.checkHistoryAtTargetEpoch wsPeriod history latestEpochWritten targetEpoch
      = match history with
        | kv.Enc h => Ok (kv.slots h !! (targetEpoch mod wsPeriod))
        | _ => Err (ErrWrapf kv.errDataCorruption
                      "could not get target data for target epoch: %d" targetEpoch)
        end).
Proof.
  intros Hp Hl Ht. split; [|split].
  - rewrite differenceOutside_true by lia. lia.
  - intros Hout. apply checkHistory_outside; [lia | assumption |].
    unfold protect.inWindow. lia.
  - intros Hin. apply checkHistory_inside; [lia | assumption | lia |].
    unfold protect.inWindow. lia.
Qed.

(** With a period of 8 and a latest written epoch of 20, the epochs 13 to
    20 are read. *)
Lemma checkHistoryAtTargetEpoch_window_witness :
  client.checkHistoryAtTargetEpoch 8 (kv.Enc sample.historyBoth) 20 12 = Ok None
  /\ client.checkHistoryAtTargetEpoch 8 (kv.Enc sample.historyBoth) 20 21 = Ok None
  /\ client.checkHistoryAtTargetEpoch 8 (kv.Enc sample.historyBoth) 20 16
     = Ok (kv.slots sample.historyBoth !! (16 mod 8)).
Proof.
  split; [|split].
  - apply (proj1 (proj2 (checkHistoryAtTargetEpoch_window 8
                           (kv.Enc sample.historyBoth) 20 12 ltac:(lia)
                           ltac:(unfold u64.MaxUint64; lia) ltac:(lia)))).
    right. reflexivity.
  - apply (proj1 (proj2 (checkHistoryAtTargetEpoch_window 8
                           (kv.Enc sample.historyBoth) 20 21 ltac:(lia)
                           ltac:(unfold u64.MaxUint64; lia) ltac:(lia)))).
    left. reflexivity.
  - apply (proj2 (proj2 (checkHistoryAtTargetEpoch_window 8
                           (kv.Enc sample.historyBoth) 20 16 ltac:(lia)
                           ltac:(unfold u64.MaxUint64; lia) ltac:(lia)))).
    split; [reflexivity | discriminate].
Defined.

(** ** No vote for the largest [uint64] passes *)

(** A scan up to the largest [uint64] is never left normally. *)
Lemma forU64_max_never_exits {A : Type} (body : Z -> step A) :
  forall fuel i, 0 <= i <= u64.MaxUint64 ->
  forU64 fuel u64.MaxUint64 body i <> Some None.
Proof.
  induction fuel as [|fuel IH]; intros i Hi; simpl.
  - destruct (Z.ltb_spec u64.MaxUint64 i); [lia | discriminate].
  - destruct (Z.ltb_spec u64.MaxUint64 i); [lia|].
    destruct (body i); [|discriminate].
    apply IH. unfold u64.incr, u64.wrap.
    pose proof (Z.mod_pos_bound (i + 1) (2 ^ 64) ltac:(lia)).
    unfold u64.MaxUint64. lia.
Qed.

(** For a vote whose target epoch is the largest [uint64],
    [isNewAttSlashable] never answers [false] on a readable history:
    whatever the number of executions allowed to the loops, it either
    does not return or finds the vote slashable.  The first scan of
    [isSurroundVote] runs up to the largest [uint64], so its loop
    condition always holds. *)
Theorem max_target_never_safe (wsPeriod : Z) (fuel : nat) (h : kv.AttestingHistory)
    (sourceEpoch : Z) (signingRoot : list Z) :
  0 < wsPeriod ->
  kv.latestEpochWritten h <= u64.MaxUint64 ->
  0 <= sourceEpoch <= u64.MaxUint64 ->
  client.isNewAttSlashable wsPeriod fuel (kv.Enc h) sourceEpoch u64.MaxUint64 signingRoot
    = None
  \/ exists lg,
       client.isNewAttSlashable wsPeriod fuel (kv.Enc h) sourceEpoch u64.MaxUint64
         signingRoot = Some (lg, Ok true).
Proof.
  intros Hp Hl Hs. unfold client.isNewAttSlashable.
  cbn [kv.GetLatestEpochWritten kv.GetTargetData].
  fold (client.differenceOutsideWeakSubjectivityBounds wsPeriod
          (kv.latestEpochWritten h) u64.MaxUint64).
  destruct (client.differenceOutsideWeakSubjectivityBounds _ _ _) eqn:Hwin.
  { apply differenceOutside_true in Hwin; lia. }
  destruct (_ && _); [right; eauto|].
  unfold client.isSurroundVote.
  destruct (forU64 fuel u64.MaxUint64 _ sourceEpoch) as [[a|]|] eqn:H1.
  - right. apply forU64_returns_somewhere in H1. destruct H1 as (i & Hret).
    destruct (surroundingBody_returns_inv wsPeriod ltac:(lia) h Hl _ _ i _ Hret)
      as (hd & _ & _ & _ & ->). eauto.
  - exfalso. eapply forU64_max_never_exits; [|exact H1]. lia.
  - left. reflexivity.
Qed.

(** With a period of 8 and the vote [(4, 5)] on record. *)
Lemma max_target_never_safe_witness :
  client.isNewAttSlashable 8 3 (kv.Enc sample.history5) 4 u64.MaxUint64 sample.rootB
    = None
  \/ exists lg,
       client.isNewAttSlashable 8 3 (kv.Enc sample.history5) 4 u64.MaxUint64
         sample.rootB = Some (lg, Ok true).
Proof.
  apply (max_target_never_safe 8 3 sample.history5 4 sample.rootB);
    simpl; unfold u64.MaxUint64; lia.
Defined.

(** ** What the check does to the database and to the trace *)

Section check_properties.

Variable wsPeriod : Z.
Variable fuel : nat.
Variable v : client.validator.
Variable st : client.State.
Variable att : ethpb.IndexedAttestation.
Variables pubKey signingRoot : list Z.

Local Abbreviation run :=
  (client.slashableAttestationCheck wsPeriod fuel v st att pubKey signingRoot).
Local Abbreviation verdictOn hist :=
  (client.isNewAttSlashable wsPeriod fuel hist (sourceOf att) (targetOf att) signingRoot).
Local Abbreviation markOn hist :=
  (kv.MarkAllAsAttestedSinceLatestWrittenEpoch wsPeriod hist (targetOf att)
     (voteOf att signingRoot)).

(** Whatever the check returns, it has touched the history of its own key
    only, it has left the other keys and the faults of the store as they
    were, and it has only added to the trace. *)
Theorem check_touches_own_key_only st' res :
  0 < wsPeriod ->
  run = Some (st', res) ->
  (forall k, k <> pubKey ->
     client.contents (client.db st') !! k = client.contents (client.db st) !! k)
  /\ client.readFault (client.db st') = client.readFault (client.db st)
  /\ client.writeFault (client.db st') = client.writeFault (client.db st)
  /\ exists evs, client.trace st' = client.trace st ++ evs.
Proof.
  intros _ Hrun. apply run_ending in Hrun.
  destruct Hrun as [err Hread|hist lg err Hload Hver|hist lg Hload Hver
                    |hist lg err Hload Hver Hmark
                    |hist lg newHistory err msg Hload Hver Hmark Hwrite
                    |hist lg newHistory st' res Hload Hver Hmark Hwrite Hext];
    try (split; [intros; reflexivity|]; split; [reflexivity|]; split; [reflexivity|];
         solve [ exists []; symmetry; apply app_nil_r
               | unfold client.emit; simpl; eauto ]).
  apply externalCheck_db in Hext. destruct Hext as (-> & evs & -> & _).
  unfold saved, client.emit. cbn [client.db client.trace client.contents
                                  client.readFault client.writeFault].
  split; [intros k Hk; apply lookup_insert_ne; congruence|].
  split; [reflexivity|]. split; [reflexivity|].
  rewrite <- !app_assoc. eauto.
Qed.

(** The check writes all or nothing.  Either the database is unchanged, no
    history is written and the external slasher is not called, and the
    result is an error other than the two of the external slasher; or the
    local check passed, exactly the marked history was saved for the key,
    once, and then the external slasher was called: not at all when none
    is configured, the pre-check alone when it refuses, the pre-check and
    then the commit otherwise. *)
Theorem check_writes_all_or_nothing st' res :
  0 < wsPeriod ->
  run = Some (st', res) ->
  exists evs, client.trace st' = client.trace st ++ evs
  /\ ((client.db st' = client.db st
       /\ List.filter protect.isHistoryWrite evs = []
       /\ List.filter protect.isSlasherCall evs = []
       /\ exists err, res = Err err
            /\ err <> ErrNew client.failedPreAttSignExternalErr
            /\ err <> ErrNew client.failedPostAttSignExternalErr)
      \/ (exists hist lg newHistory,
            client.AttestationHistoryForPubKeyV2 (client.db st) pubKey = Ok hist
            /\ verdictOn hist = Some (lg, Ok false)
            /\ markOn hist = Ok newHistory
            /\ client.db st' = client.db (saved st pubKey newHistory)
            /\ List.filter protect.isHistoryWrite evs
               = [client.EvSaveHistory pubKey newHistory]
            /\ (List.filter protect.isSlasherCall evs = []
                /\ protect.slasherOf v = None /\ res = Ok tt
                \/ List.filter protect.isSlasherCall evs
                   = [client.EvCheckAttestationSafety att]
                   /\ res = Err (ErrNew client.failedPreAttSignExternalErr)
                \/ List.filter protect.isSlasherCall evs
                   = [client.EvCheckAttestationSafety att;
                      client.EvCommitAttestation att]
                   /\ (res = Ok tt
                       \/ res = Err (ErrNew client.failedPostAttSignExternalErr))))).
Proof.
  intros _ Hrun. apply run_ending in Hrun.
  destruct Hrun as [err Hread|hist lg err Hload Hver|hist lg Hload Hver
                    |hist lg err Hload Hver Hmark
                    |hist lg newHistory err msg Hload Hver Hmark Hwrite
                    |hist lg newHistory st' res Hload Hver Hmark Hwrite Hext].
  - exists []. split; [symmetry; apply app_nil_r|]. left.
    repeat split; try reflexivity. eexists. repeat split; discriminate.
  - eexists. split; [reflexivity|]. left.
    split; [reflexivity|]. rewrite !filter_logs by reflexivity.
    repeat split; try reflexivity. eexists. repeat split; discriminate.
  - eexists. split; [reflexivity|]. left.
    split; [reflexivity|]. rewrite !List.filter_app, !filter_logs by reflexivity.
    unfold effects.failCount.
    split; [destruct (client.emitAccountMetrics v); reflexivity|].
    split; [destruct (client.emitAccountMetrics v); reflexivity|].
    eexists. repeat split; discriminate.
  - eexists. split; [reflexivity|]. left.
    split; [reflexivity|]. rewrite !filter_logs by reflexivity.
    repeat split; try reflexivity. eexists. repeat split; discriminate.
  - eexists. split; [reflexivity|]. left.
    split; [reflexivity|]. rewrite !filter_logs by reflexivity.
    repeat split; try reflexivity. eexists. repeat split; discriminate.
  - apply externalCheck_db in Hext.
    destruct Hext as (Hdb & evs & Htrace & Hwrites & Hcalls).
    exists ((client.EvLog <$> lg) ++ [client.EvSaveHistory pubKey newHistory] ++ evs).
    split.
    { rewrite Htrace. unfold saved, client.emit. cbn [client.trace].
      rewrite <- !app_assoc. reflexivity. }
    right. exists hist, lg, newHistory.
    split; [assumption|]. split; [assumption|]. split; [assumption|].
    split; [rewrite Hdb; reflexivity|].
    rewrite !List.filter_app, !filter_logs by reflexivity.
    cbn [List.filter protect.isHistoryWrite protect.isSlasherCall app].
    rewrite Hwrites. split; [reflexivity|]. exact Hcalls.
Qed.

(** Once the history of the key is loaded and the local check has
    returned, the check returns [nil] exactly when the local check
    answered [false] with no error, the history could be marked, the
    store takes the write, and every configured external check agrees.
    The state is then the one before with the marked history saved for
    the key, and the trace has grown by the log lines, the save and the
    two calls to the external slasher, in this order. *)
Theorem check_accepts_exactly_when hist lg r :
  0 < wsPeriod ->
  client.AttestationHistoryForPubKeyV2 (client.db st) pubKey = Ok hist ->
  verdictOn hist = Some (lg, r) ->
  ((exists st', run = Some (st', Ok tt))
   <-> r = Ok false
       /\ (exists newHistory, markOn hist = Ok newHistory)
       /\ client.writeFault (client.db st) = None
       /\ forall p, protect.slasherOf v = Some p ->
            client.CheckAttestationSafety p att = true
            /\ client.CommitAttestation p att = true)
  /\ forall st', run = Some (st', Ok tt) ->
       exists newHistory, markOn hist = Ok newHistory
         /\ client.db st' = client.db (saved st pubKey newHistory)
         /\ client.trace st' =
              client.trace st ++ (client.EvLog <$> lg)
                ++ [client.EvSaveHistory pubKey newHistory]
                ++ effects.slasherCalls v att.
Proof.
  intros _ Hload Hver. split; [split|].
  - intros (st' & Hrun).
    destruct (run_accepted_inv _ _ _ _ _ _ _ _ _ Hload Hrun)
      as (lg' & newHistory & Hver' & Hmark & Hwrite & Hslasher & _).
    rewrite Hver in Hver'. injection Hver' as _ ->. eauto.
  - intros (-> & (newHistory & Hmark) & Hwrite & Hslasher).
    eapply run_accepted; eassumption.
  - intros st' Hrun.
    destruct (run_accepted_inv _ _ _ _ _ _ _ _ _ Hload Hrun)
      as (lg' & newHistory & Hver' & Hmark & _ & _ & Hdb & Htrace).
    rewrite Hver in Hver'. injection Hver' as <- _. eauto.
Qed.

(** When the vote passes locally, is marked and saved, and the external
    slasher passes the pre-check but refuses the commit, the check returns
    the error of the commit; the database keeps the marked history of the
    key, and the trace shows the save, the pre-check, the commit and the
    failure counter, in this order. *)
Theorem commit_refusal_keeps_saved_vote hist lg newHistory p :
  0 < wsPeriod ->
  client.AttestationHistoryForPubKeyV2 (client.db st) pubKey = Ok hist ->
  verdictOn hist = Some (lg, Ok false) ->
  markOn hist = Ok newHistory ->
  client.writeFault (client.db st) = None ->
  protect.slasherOf v = Some p ->
  client.CheckAttestationSafety p att = true ->
  client.CommitAttestation p att = false ->
  run = Some ({| client.db := client.db (saved st pubKey newHistory);
                 client.trace :=
                   client.trace st ++ (client.EvLog <$> lg)
                     ++ [client.EvSaveHistory pubKey newHistory;
                         client.EvCheckAttestationSafety att;
                         client.EvCommitAttestation att]
                     ++ effects.slasherFailCount v pubKey |},
              Err (ErrNew client.failedPostAttSignExternalErr))
  /\ client.contents (client.db (saved st pubKey newHistory)) !! pubKey
     = Some newHistory
  /\ kv.GetTargetData wsPeriod newHistory (targetOf att)
     = Ok (Some (voteOf att signingRoot)).
Proof.
  intros _ Hload Hver Hmark Hwrite Hp Hsafe Hcommit.
  split; [|split; [apply lookup_insert_eq
                  |eapply marked_history_records_vote; eassumption]].
  rewrite (run_saved _ _ _ _ _ _ _ hist lg newHistory Hload Hver Hmark Hwrite).
  destruct (externalCheck_cases v att pubKey
              (saved (client.emit st (client.EvLog <$> lg)) pubKey newHistory))
    as [[Hnone Hrun']|[(p' & Hp' & Hsafe' & Hrun')|[(p' & Hp' & Hsafe' & Hcommit' & Hrun')
        |(p' & Hp' & Hsafe' & Hcommit' & Hrun')]]];
    rewrite Hrun'; try congruence.
  f_equal. f_equal. unfold saved, client.emit. cbn [client.db client.trace].
  f_equal. rewrite <- !app_assoc. reflexivity.
Qed.

(** A failure of the store never lets a vote through.  When the history
    cannot be read, the check returns the wrapped read error and changes
    nothing; when the stored history cannot be decoded, it logs the error
    and returns it wrapped, for every vote; when the store refuses the
    write, it returns an error that wraps the write error.  In the three
    cases the database is the one before. *)
Theorem storage_failures_block_vote :
  0 < wsPeriod ->
  (forall err, client.readFault (client.db st) = Some err ->
     run = Some (st, Err (ErrWrap err "could not get attester history")))
  /\ (client.AttestationHistoryForPubKeyV2 (client.db st) pubKey = Ok kv.Corrupt ->
      run = Some ({| client.db := client.db st;
                     client.trace := client.trace st
                       ++ [client.EvLog
                             (client.ErrorLatestEpochWritten kv.errDataCorruption)] |},
                  Err (ErrWrap kv.errDataCorruption
                         "could not check if attestation is slashable")))
  /\ (forall hist lg newHistory err,
        client.AttestationHistoryForPubKeyV2 (client.db st) pubKey = Ok hist ->
        verdictOn hist = Some (lg, Ok false) ->
        markOn hist = Ok newHistory ->
        client.writeFault (client.db st) = Some err ->
        exists msg,
          run = Some ({| client.db := client.db st;
                         client.trace := client.trace st ++ (client.EvLog <$> lg) |},
                      Err (ErrWrap err msg))).
Proof.
  intros _. split; [|split].
  - intros err Hread. unfold client.slashableAttestationCheck,
      client.AttestationHistoryForPubKeyV2. rewrite Hread. reflexivity.
  - intros Hload. unfold client.slashableAttestationCheck. rewrite Hload.
    reflexivity.
  - intros hist lg newHistory err Hload Hver Hmark Hwrite.
    unfold client.slashableAttestationCheck.
    fold (sourceOf att) (targetOf att) (voteOf att signingRoot).
    rewrite Hload, Hver, Hmark. unfold client.SaveAttestationHistoryForPubKeyV2.
    cbn [client.db client.emit client.trace]. rewrite Hwrite.
    eexists. reflexivity.
Qed.

End check_properties.

(** With a period of 8 and the vote [(4, 5)] on record, the vote [(5, 6)]
    is saved before the external slasher refuses it: the other keys and
    the faults of the store are as before. *)
Lemma check_touches_own_key_only_witness :
  exists st' res,
    client.slashableAttestationCheck 8 2 sample.refusing
      (sample.stateOf (kv.Enc sample.history5)) (sample.vote 5 6)
      sample.pubKey sample.rootB = Some (st', res)
    /\ (forall k, k <> sample.pubKey ->
          client.contents (client.db st') !! k
          = client.contents (client.db (sample.stateOf (kv.Enc sample.history5))) !! k)
    /\ client.readFault (client.db st') = None
    /\ client.writeFault (client.db st') = None.
Proof.
  eexists _, _. split; [reflexivity|].
  destruct (check_touches_own_key_only 8 2 sample.refusing
              (sample.stateOf (kv.Enc sample.history5)) (sample.vote 5 6)
              sample.pubKey sample.rootB _ _ ltac:(lia) eq_refl)
    as (Hkeys & Hread & Hwrite & _).
  split; [exact Hkeys|]. split; [exact Hread | exact Hwrite].
Defined.

(** With a period of 8 and the vote [(4, 5)] on record, a second vote for
    target 5 with another root changes nothing and calls nobody. *)
Lemma check_writes_all_or_nothing_witness :
  exists st' res,
    client.slashableAttestationCheck 8 0 sample.refusing
      (sample.stateOf (kv.Enc sample.history5)) (sample.vote 4 5)
      sample.pubKey sample.rootB = Some (st', res)
    /\ client.db st' = client.db (sample.stateOf (kv.Enc sample.history5))
    /\ List.filter protect.isHistoryWrite (client.trace st') = []
    /\ List.filter protect.isSlasherCall (client.trace st') = [].
Proof.
  eexists _, _. split; [reflexivity|].
  destruct (check_writes_all_or_nothing 8 0 sample.refusing
              (sample.stateOf (kv.Enc sample.history5)) (sample.vote 4 5)
              sample.pubKey sample.rootB _ _ ltac:(lia) eq_refl)
    as (evs & Htrace & [(Hdb & Hwrites & Hcalls & _)
                       |(hist & lg & newHistory & Hload & Hver & _)]).
  - split; [exact Hdb|]. rewrite Htrace.
    split; [exact Hwrites | exact Hcalls].
  - injection Hload as <-. discriminate Hver.
Defined.

(** With a period of 8, the vote [(4, 5)] on record and an external
    slasher that agrees, the vote [(5, 6)] is accepted. *)
Lemma check_accepts_exactly_when_witness :
  exists st',
    client.slashableAttestationCheck 8 2 fixture.agreeing
      (sample.stateOf (kv.Enc sample.history5)) (sample.vote 5 6)
      sample.pubKey sample.rootB = Some (st', Ok tt).
Proof.
  apply (proj2 (proj1 (check_accepts_exactly_when 8 2 fixture.agreeing
                         (sample.stateOf (kv.Enc sample.history5)) (sample.vote 5 6)
                         sample.pubKey sample.rootB (kv.Enc sample.history5) []
                         (Ok false) ltac:(lia) eq_refl eq_refl))).
  split; [reflexivity|]. split; [eexists; reflexivity|]. split; [reflexivity|].
  intros p Hp. injection Hp as <-. split; reflexivity.
Defined.

(** With a period of 8, the vote [(4, 5)] on record and an external
    slasher that refuses the commit, the vote [(5, 6)] is rejected, and
    recorded. *)
Lemma commit_refusal_keeps_saved_vote_witness :
  exists st',
    client.slashableAttestationCheck 8 2 fixture.commitRefusing
      (sample.stateOf (kv.Enc sample.history5)) (sample.vote 5 6)
      sample.pubKey sample.rootB
    = Some (st', Err (ErrNew client.failedPostAttSignExternalErr))
    /\ exists newHistory,
         client.contents (client.db st') !! sample.pubKey = Some newHistory
         /\ kv.GetTargetData 8 newHistory 6
            = Ok (Some {| kv.Source := 5; kv.SigningRoot := sample.rootB |}).
Proof.
  destruct (commit_refusal_keeps_saved_vote 8 2 fixture.commitRefusing
              (sample.stateOf (kv.Enc sample.history5)) (sample.vote 5 6)
              sample.pubKey sample.rootB (kv.Enc sample.history5) [] _ _
              ltac:(lia) eq_refl eq_refl eq_refl eq_refl eq_refl eq_refl eq_refl)
    as (Hrun & Hdb & Hvote).
  eexists. split; [exact Hrun|]. eexists. split; [exact Hdb | exact Hvote].
Defined.

(** With a period of 8: a store that cannot be read, a history that cannot
    be decoded and a store that cannot be written each make the check
    return an error. *)
Lemma storage_failures_block_vote_witness :
  client.slashableAttestationCheck 8 2 sample.localOnly
    (fixture.unreadable (kv.Enc sample.history5)) (sample.vote 5 6)
    sample.pubKey sample.rootB
  = Some (fixture.unreadable (kv.Enc sample.history5),
          Err (ErrWrap fixture.ioError "could not get attester history"))
  /\ (exists st',
        client.slashableAttestationCheck 8 2 sample.localOnly
          (sample.stateOf kv.Corrupt) (sample.vote 5 6) sample.pubKey sample.rootB
        = Some (st', Err (ErrWrap kv.errDataCorruption
                            "could not check if attestation is slashable"))
        /\ client.db st' = client.db (sample.stateOf kv.Corrupt))
  /\ (exists st' msg,
        client.slashableAttestationCheck 8 2 sample.localOnly
          (fixture.readOnly (kv.Enc sample.history5)) (sample.vote 5 6)
          sample.pubKey sample.rootB
        = Some (st', Err (ErrWrap fixture.ioError msg))
        /\ client.db st' = client.db (fixture.readOnly (kv.Enc sample.history5))).
Proof.
  split; [|split].
  - apply (proj1 (storage_failures_block_vote 8 2 sample.localOnly
                    (fixture.unreadable (kv.Enc sample.history5)) (sample.vote 5 6)
                    sample.pubKey sample.rootB ltac:(lia))).
    reflexivity.
  - eexists. split.
    + apply (proj1 (proj2 (storage_failures_block_vote 8 2 sample.localOnly
                             (sample.stateOf kv.Corrupt) (sample.vote 5 6)
                             sample.pubKey sample.rootB ltac:(lia)))).
      reflexivity.
    + reflexivity.
  - destruct (proj2 (proj2 (storage_failures_block_vote 8 2 sample.localOnly
                               (fixture.readOnly (kv.Enc sample.history5))
                               (sample.vote 5 6) sample.pubKey sample.rootB
                               ltac:(lia)))
                 (kv.Enc sample.history5) [] _ fixture.ioError
                 eq_refl eq_refl eq_refl eq_refl) as (msg & Hrun).
    eexists _, msg. split; [exact Hrun | reflexivity].
Defined.

(** ** Sequences of votes *)

(** A vote against a history without any recorded vote is accepted, when
    the store takes the write and every configured external check agrees:
    the check returns [nil] and the database then holds the history marked
    with the vote.  A key that the database does not know is such a case. *)
Theorem unvoted_history_accepts (wsPeriod : Z) (v : client.validator)
    (st : client.State) (att : ethpb.IndexedAttestation)
    (pubKey signingRoot : list Z) (h : kv.AttestingHistory) :
  0 < wsPeriod ->
  client.AttestationHistoryForPubKeyV2 (client.db st) pubKey = Ok (kv.Enc h) ->
  verdict.unvoted h ->
  kv.latestEpochWritten h < u64.MaxUint64 ->
  client.writeFault (client.db st) = None ->
  (forall p, protect.slasherOf v = Some p ->
     client.CheckAttestationSafety p att = true
     /\ client.CommitAttestation p att = true) ->
  0 <= sourceOf att ->
  0 <= targetOf att < u64.MaxUint64 ->
  exists fuel st',
    client.slashableAttestationCheck wsPeriod fuel v st att pubKey signingRoot
    = Some (st', Ok tt)
    /\ client.contents (client.db st') !! pubKey
       = Some (kv.Enc (kv.markHistory wsPeriod h (targetOf att)
                         (voteOf att signingRoot))).
Proof.
  intros Hp Hload Hblank Hl Hwrite Hslasher Hs Ht.
  destruct (proj2 (answers_false_iff wsPeriod ltac:(lia) h ltac:(lia) _ _ Hs Ht Hl
                     signingRoot)) as (fuel & lg & Hver).
  { intros [_ Hsl]. revert Hsl. apply blank_not_slashable. exact Hblank. }
  destruct (run_accepted wsPeriod fuel v st att pubKey signingRoot _ _ _
              Hload Hver eq_refl Hwrite Hslasher) as (st' & Hrun).
  exists fuel, st'. split; [exact Hrun|].
  destruct (run_accepted_inv wsPeriod fuel v st att pubKey signingRoot _ _ Hload Hrun)
    as (_ & newHistory & _ & Hmark & _ & _ & Hdb & _).
  cbn in Hmark. injection Hmark as <-. rewrite Hdb. apply lookup_insert_eq.
Qed.

(** With a period of 8, the first vote [(4, 5)] of a key that the database
    does not know is accepted and recorded. *)
Lemma unvoted_history_accepts_witness :
  exists fuel st',
    client.slashableAttestationCheck 8 fuel fixture.agreeing sample.freshState
      (sample.vote 4 5) sample.pubKey sample.rootA = Some (st', Ok tt)
    /\ client.contents (client.db st') !! sample.pubKey
       = Some (kv.Enc (kv.markHistory 8 kv.emptyHistory 5
                         {| kv.Source := 4; kv.SigningRoot := sample.rootA |})).
Proof.
  apply (unvoted_history_accepts 8 fixture.agreeing sample.freshState
           (sample.vote 4 5) sample.pubKey sample.rootA kv.emptyHistory).
  - lia.
  - reflexivity.
  - intros k hd Hslot. cbn in Hslot. rewrite lookup_empty in Hslot.
    discriminate Hslot.
  - unfold sourceOf, targetOf, u64.MaxUint64. simpl. lia.
  - reflexivity.
  - intros p Hp. injection Hp as <-. split; reflexivity.
  - unfold sourceOf, targetOf. simpl. lia.
  - unfold sourceOf, targetOf, u64.MaxUint64. simpl. lia.
Defined.

(** After the check has accepted a vote with [source <= target] that the
    stale rule did not let through, every check that is given, for the
    same key, the history that the accepting check saved -- the next
    check on the state it left, or a check on any state whose database
    returns that history -- refuses, with the error of the local
    protection and without touching the database, a vote that is a double
    vote (same target epoch, another signing root), that surrounds the
    accepted vote, or that the accepted vote surrounds (the later vote
    being inside the window).  Nothing is stated of a check that finds
    the history changed by a vote accepted in between. *)
Theorem conflicting_vote_refused_after_accept (wsPeriod : Z)
    (v : client.validator) (st : client.State) (pubKey : list Z)
    (h : kv.AttestingHistory) (att1 : ethpb.IndexedAttestation) (root1 : list Z)
    (fuel1 : nat) (st1 : client.State)
    (v2 : client.validator) (st2 : client.State)
    (att2 : ethpb.IndexedAttestation) (root2 : list Z) :
  0 < wsPeriod ->
  client.AttestationHistoryForPubKeyV2 (client.db st) pubKey = Ok (kv.Enc h) ->
  kv.latestEpochWritten h < u64.MaxUint64 ->
  0 <= sourceOf att1 <= targetOf att1 ->
  targetOf att1 < u64.MaxUint64 ->
  protect.inWindow wsPeriod (kv.latestEpochWritten h) (targetOf att1) ->
  client.slashableAttestationCheck wsPeriod fuel1 v st att1 pubKey root1
    = Some (st1, Ok tt) ->
  client.AttestationHistoryForPubKeyV2 (client.db st2) pubKey
    = client.AttestationHistoryForPubKeyV2 (client.db st1) pubKey ->
  0 <= sourceOf att2 ->
  0 <= targetOf att2 < u64.MaxUint64 ->
  (targetOf att2 = targetOf att1 /\ root2 <> root1)
  \/ (sourceOf att2 < sourceOf att1 /\ targetOf att1 < targetOf att2)
  \/ (sourceOf att1 < sourceOf att2 /\ targetOf att2 < targetOf att1
      /\ protect.inWindow wsPeriod
           (Z.max (kv.latestEpochWritten h) (targetOf att1)) (targetOf att2)) ->
  exists fuel2 st3,
    client.slashableAttestationCheck wsPeriod fuel2 v2 st2 att2 pubKey root2
    = Some (st3, Err (ErrNew client.failedAttLocalProtectionErr))
    /\ client.db st3 = client.db st2.
Proof.
  intros Hp Hload Hl Hs1 Ht1 Hwin Hrun1 Hsame Hs2 Ht2 Hcase.
  assert (protect.inWindow wsPeriod
            (kv.latestEpochWritten
               (kv.markHistory wsPeriod h (targetOf att1) (voteOf att1 root1)))
            (targetOf att2)
          /\ verdict.slashableAgainst wsPeriod
               (kv.markHistory wsPeriod h (targetOf att1) (voteOf att1 root1))
               (sourceOf att2) (targetOf att2) root2) as [Hwin2 Hsl].
  { destruct Hcase as [[Htgt Hroot]|[[Hsrc Htgt]|(Hsrc & Htgt & Hwin2)]].
    - apply double_vote_after_accept; first [assumption | lia].
    - apply surrounding_vote_after_accept; first [assumption | lia].
    - split; [rewrite marked_latest; exact Hwin2|].
      apply surrounded_vote_after_accept; first [assumption | lia]. }
  exact (later_vote_refused wsPeriod Hp v st pubKey h Hload Hl att1 root1
           ltac:(lia) fuel1 st1 Hrun1 att2 root2 Hs2 Ht2 v2 st2 Hsame Hwin2 Hsl).
Qed.

(** With a period of 8, after the vote [(4, 5)] was accepted on a fresh
    database, the vote [(3, 6)], which surrounds it, is refused by the
    next check. *)
Lemma conflicting_vote_refused_after_accept_witness :
  exists fuel2 st3,
    client.slashableAttestationCheck 8 fuel2 sample.localOnly fixture.afterVote45
      (sample.vote 3 6) sample.pubKey sample.rootB
    = Some (st3, Err (ErrNew client.failedAttLocalProtectionErr))
    /\ client.db st3 = client.db fixture.afterVote45.
Proof.
  apply (conflicting_vote_refused_after_accept 8 sample.localOnly sample.freshState
           sample.pubKey kv.emptyHistory (sample.vote 4 5) sample.rootA 2
           fixture.afterVote45 sample.localOnly fixture.afterVote45
           (sample.vote 3 6) sample.rootB).
  - lia.
  - reflexivity.
  - unfold sourceOf, targetOf, u64.MaxUint64. simpl. lia.
  - unfold sourceOf, targetOf. simpl. lia.
  - unfold sourceOf, targetOf, u64.MaxUint64. simpl. lia.
  - unfold protect.inWindow, targetOf. simpl. lia.
  - reflexivity.
  - reflexivity.
  - unfold sourceOf, targetOf. simpl. lia.
  - unfold sourceOf, targetOf, u64.MaxUint64. simpl. lia.
  - right. left. unfold sourceOf, targetOf. simpl. lia.
Defined.

(** A vote that the check has accepted is accepted again when it is
    submitted unchanged, and the database stays as it is: the record of a
    vote never makes that vote slashable. *)
Theorem repeated_vote_accepted_again (wsPeriod : Z) (v : client.validator)
    (st : client.State) (pubKey : list Z) (h : kv.AttestingHistory)
    (att : ethpb.IndexedAttestation) (signingRoot : list Z)
    (fuel1 : nat) (st1 : client.State) :
  0 < wsPeriod ->
  client.AttestationHistoryForPubKeyV2 (client.db st) pubKey = Ok (kv.Enc h) ->
  kv.latestEpochWritten h < u64.MaxUint64 ->
  0 <= sourceOf att ->
  0 <= targetOf att < u64.MaxUint64 ->
  client.slashableAttestationCheck wsPeriod fuel1 v st att pubKey signingRoot
    = Some (st1, Ok tt) ->
  exists fuel2 st2,
    client.slashableAttestationCheck wsPeriod fuel2 v st1 att pubKey signingRoot
    = Some (st2, Ok tt)
    /\ client.db st2 = client.db st1.
Proof.
  intros Hp Hload Hl Hs Ht Hrun1.
  exact (revote_accepted wsPeriod Hp v st pubKey h Hload Hl att signingRoot
           Hs Ht fuel1 st1 Hrun1).
Qed.

(** With a period of 8, the vote [(4, 5)] is accepted a second time. *)
Lemma repeated_vote_accepted_again_witness :
  exists fuel2 st2,
    client.slashableAttestationCheck 8 fuel2 sample.localOnly fixture.afterVote45
      (sample.vote 4 5) sample.pubKey sample.rootA = Some (st2, Ok tt)
    /\ client.db st2 = client.db fixture.afterVote45.
Proof.
  apply (repeated_vote_accepted_again 8 sample.localOnly sample.freshState
           sample.pubKey kv.emptyHistory (sample.vote 4 5) sample.rootA 2
           fixture.afterVote45).
  - lia.
  - reflexivity.
  - unfold sourceOf, targetOf, u64.MaxUint64. simpl. lia.
  - unfold sourceOf, targetOf. simpl. lia.
  - unfold sourceOf, targetOf, u64.MaxUint64. simpl. lia.
  - reflexivity.
Defined.

(** ** The check returns *)

(** When the target epoch of the vote and the latest written epoch of the
    stored history are below the largest [uint64], the check returns:
    some number of executions of the loop bodies is enough, and with more
    the outcome is the same. *)
Theorem slashableAttestationCheck_returns (wsPeriod : Z) (v : client.validator)
    (st : client.State) (att : ethpb.IndexedAttestation)
    (pubKey signingRoot : list Z) :
  0 < wsPeriod ->
  0 <= sourceOf att ->
  0 <= targetOf att < u64.MaxUint64 ->
  (forall h, client.contents (client.db st) !! pubKey = Some (kv.Enc h) ->
     kv.latestEpochWritten h < u64.MaxUint64) ->
  exists fuel out,
    forall fuel', (fuel <= fuel')%nat ->
    client.slashableAttestationCheck wsPeriod fuel' v st att pubKey signingRoot
    = Some out.
Proof.
  intros Hp Hs Ht Hl. apply slashableAttestationCheck_some; assumption.
Qed.

(** With a period of 8 and the vote [(4, 5)] on record, the check of the
    vote [(5, 6)] returns. *)
Lemma slashableAttestationCheck_returns_witness :
  exists fuel out,
    forall fuel', (fuel <= fuel')%nat ->
    client.slashableAttestationCheck 8 fuel' sample.localOnly
      (sample.stateOf (kv.Enc sample.history5)) (sample.vote 5 6)
      sample.pubKey sample.rootB = Some out.
Proof.
  apply (slashableAttestationCheck_returns 8 sample.localOnly
           (sample.stateOf (kv.Enc sample.history5)) (sample.vote 5 6)
           sample.pubKey sample.rootB).
  - lia.
  - unfold sourceOf, targetOf. simpl. lia.
  - unfold sourceOf, targetOf, u64.MaxUint64. simpl. lia.
  - intros h Hstored.
    change (Some (kv.Enc sample.history5) = Some (kv.Enc h)) in Hstored.
    injection Hstored as <-. unfold u64.MaxUint64. simpl. lia.
Defined.

(** * Properties of the aggregator *)

(** ** Bit vectors *)

Section bitfield_facts.

Lemma lt_pow2_of_bits z n :
  0 <= z -> 0 <= n -> (forall i, n <= i -> Z.testbit z i = false) -> z < 2 ^ n.
Proof.
  intros Hz Hn Hhigh.
  destruct (Z.eq_dec z 0) as [->|Hne]; [apply Z.pow_pos_nonneg; lia|].
  apply Z.log2_lt_pow2; [lia|].
  destruct (Z.lt_ge_cases (Z.log2 z) n) as [Hlt|Hge]; [assumption|].
  pose proof (Z.bit_log2 z ltac:(lia)) as Hbit. rewrite Hhigh in Hbit by assumption. discriminate.
Qed.

Lemma toZ_nonneg bs : 0 <= bitfield.toZ bs.
Proof.
  induction bs as [|b bs IH]; simpl; [lia|].
  apply Z.lor_nonneg. split.
  - apply Z.land_nonneg. right. lia.
  - apply Z.shiftl_nonneg. assumption.
Qed.

Lemma testbit_toZ_cons b bs i :
  0 <= i ->
  Z.testbit (bitfield.toZ (b :: bs)) i
  = if i <? 8 then Z.testbit b i else Z.testbit (bitfield.toZ bs) (i - 8).
Proof.
  intros Hi. simpl. rewrite Z.lor_spec, Z.land_spec.
  change 255 with (Z.ones 8).
  destruct (Z.ltb_spec i 8).
  - rewrite Z.ones_spec_low by lia. rewrite Z.shiftl_spec_low by lia.
    rewrite andb_true_r, orb_false_r. reflexivity.
  - rewrite Z.ones_spec_high by lia. rewrite Z.shiftl_spec by lia.
    rewrite andb_false_r. reflexivity.
Qed.

Lemma toZ_high bs i :
  8 * Z.of_nat (length bs) <= i -> Z.testbit (bitfield.toZ bs) i = false.
Proof.
  revert i. induction bs as [|b bs IH]; intros i Hi.
  - simpl. apply Z.testbit_0_l.
  - rewrite testbit_toZ_cons by (simpl length in Hi; lia).
    simpl length in Hi. destruct (Z.ltb_spec i 8); [lia|].
    apply IH. lia.
Qed.

Lemma toZ_bound bs : bitfield.toZ bs < 2 ^ (8 * Z.of_nat (length bs)).
Proof.
  apply lt_pow2_of_bits; [apply toZ_nonneg | lia | apply toZ_high].
Qed.

Lemma toZ_ofZ n z :
  bitfield.toZ (bitfield.ofZ n z) = Z.land z (Z.ones (8 * Z.of_nat n)).
Proof.
  revert z. induction n as [|n IH]; intros z.
  - simpl. rewrite Z.land_0_r. reflexivity.
  - apply Z.bits_inj'. intros i Hi.
    cbn [bitfield.ofZ]. rewrite testbit_toZ_cons by assumption.
    rewrite IH. rewrite !Z.land_spec.
    change 255 with (Z.ones 8).
    destruct (Z.ltb_spec i 8).
    + rewrite !Z.ones_spec_low by lia. rewrite !andb_true_r. reflexivity.
    + rewrite Z.shiftr_spec by lia. replace (i - 8 + 8) with i by lia.
      f_equal.
      destruct (Z.lt_ge_cases i (8 * Z.of_nat (S n))).
      * rewrite !Z.ones_spec_low by lia. reflexivity.
      * rewrite !Z.ones_spec_high by lia. reflexivity.
Qed.

Lemma toZ_ofZ_small n z :
  0 <= z < 2 ^ (8 * Z.of_nat n) -> bitfield.toZ (bitfield.ofZ n z) = z.
Proof.
  intros Hz. rewrite toZ_ofZ, Z.land_ones by lia. apply Z.mod_small. assumption.
Qed.

Lemma length_ofZ n z : length (bitfield.ofZ n z) = n.
Proof. revert z. induction n; intros; simpl; auto. Qed.

(** flags *)
Lemma flags_range bs :
  0 <= bitfield.flags bs < 2 ^ bitfield.Len bs.
Proof.
  unfold bitfield.flags, bitfield.Len.
  pose proof (toZ_nonneg bs) as Hv. set (v := bitfield.toZ bs) in *.
  destruct (Z.eq_dec v 0) as [->|Hne]; [simpl; lia|].
  assert (0 < v) as Hpos by lia.
  pose proof (Z.log2_nonneg v) as Hlog.
  split.
  - rewrite Z.clearbit_spec'. apply Z.ldiff_nonneg. left. assumption. 
  - apply lt_pow2_of_bits; [ rewrite Z.clearbit_spec'; apply Z.ldiff_nonneg; left; assumption | assumption |].
    intros i Hi. rewrite Z.clearbit_eqb.
    destruct (Z.eqb_spec (Z.log2 v) i) as [Heq|Hneq]; [apply andb_false_r|].
    rewrite (Z.bits_above_log2 v i) by lia. reflexivity.
Qed.

Lemma testbit_high_of_lt z n i :
  0 <= z < 2 ^ n -> n <= i -> Z.testbit z i = false.
Proof.
  intros Hz Hi. destruct (Z.eq_dec z 0) as [->|Hne]; [apply Z.testbit_0_l|].
  apply Z.bits_above_log2; [lia|].
  assert (Z.log2 z < n); [|lia].
  apply Z.log2_lt_pow2; lia.
Qed.

Lemma lor_range a b n :
  0 <= n -> 0 <= a < 2 ^ n -> 0 <= b < 2 ^ n -> 0 <= Z.lor a b < 2 ^ n.
Proof.
  intros Hn Ha Hb.
  assert (0 <= Z.lor a b) as Hnn by (apply Z.lor_nonneg; lia).
  split; [assumption|].
  apply lt_pow2_of_bits; [assumption..|].
  intros i Hi. rewrite Z.lor_spec.
  rewrite (testbit_high_of_lt a n i), (testbit_high_of_lt b n i) by assumption.
  reflexivity.
Qed.

Lemma setbit_range f n :
  0 <= n -> 0 <= f < 2 ^ n -> 2 ^ n <= Z.setbit f n < 2 ^ (n + 1).
Proof.
  intros Hn Hf.
  assert (0 <= Z.setbit f n) as Hnn.
  { rewrite Z.setbit_spec'. apply Z.lor_nonneg. split; [lia|].
    apply Z.pow_nonneg. lia. }
  split.
  - destruct (Z.lt_ge_cases (Z.setbit f n) (2 ^ n)) as [Hlt|]; [|assumption].
    pose proof (testbit_high_of_lt (Z.setbit f n) n n (conj Hnn Hlt) (Z.le_refl n)) as Hbit.
    rewrite Z.setbit_eq in Hbit by assumption. discriminate.
  - apply lt_pow2_of_bits; [assumption | lia |].
    intros i Hi. rewrite Z.setbit_neq by lia.
    apply (testbit_high_of_lt f n i); [assumption | lia].
Qed.

Lemma log2_setbit f n :
  0 <= n -> 0 <= f < 2 ^ n -> Z.log2 (Z.setbit f n) = n.
Proof.
  intros Hn Hf. apply Z.log2_unique; [assumption|].
  replace (Z.succ n) with (n + 1) by lia. apply setbit_range; assumption.
Qed.

Lemma clearbit_setbit f n :
  0 <= n -> 0 <= f < 2 ^ n -> Z.clearbit (Z.setbit f n) n = f.
Proof.
  intros Hn Hf. apply Z.bits_inj'. intros i Hi.
  rewrite Z.clearbit_eqb, Z.setbit_eqb by assumption.
  destruct (Z.eqb_spec n i) as [Heq|Hne].
  - subst i. rewrite (testbit_high_of_lt f n n) by (auto; lia). reflexivity.
  - rewrite orb_false_l. apply andb_true_r.
Qed.

Lemma Len_nonneg bs : 0 <= bitfield.Len bs.
Proof. apply Z.log2_nonneg. Qed.

(** A vector whose value is a sentinel above flags. *)
Lemma Len_flags_of_value bs f n :
  0 <= n -> 0 <= f < 2 ^ n ->
  bitfield.toZ bs = Z.setbit f n ->
  bitfield.Len bs = n /\ bitfield.flags bs = f.
Proof.
  intros Hn Hf Hv. unfold bitfield.flags, bitfield.Len. rewrite Hv.
  rewrite log2_setbit by assumption. split; [reflexivity|].
  apply clearbit_setbit; assumption.
Qed.

Lemma Or_spec a b :
  bitfield.Len a = bitfield.Len b ->
  bitfield.Len (bitfield.Or a b) = bitfield.Len a
  /\ bitfield.flags (bitfield.Or a b) = Z.lor (bitfield.flags a) (bitfield.flags b).
Proof.
  intros Hlen.
  pose proof (flags_range a) as Hfa. pose proof (flags_range b) as Hfb.
  rewrite <- Hlen in Hfb.
  pose proof (Len_nonneg a) as Hn.
  pose proof (lor_range _ _ _ Hn Hfa Hfb) as Hu.
  pose proof (setbit_range _ _ Hn Hu) as Hset.
  assert (bitfield.toZ (bitfield.Or a b)
          = Z.land (Z.setbit (Z.lor (bitfield.flags a) (bitfield.flags b))
                      (bitfield.Len a))
                   (Z.ones (8 * Z.of_nat (length a)))) as Hval
    by (unfold bitfield.Or; apply toZ_ofZ).
  destruct (Z.eq_dec (bitfield.toZ a) 0) as [Hzero|Hpos].
  - (* no bit at all in [a] *)
    assert (bitfield.Len a = 0) as Hlen0 by (unfold bitfield.Len; rewrite Hzero; reflexivity).
    rewrite Hlen0 in *. 
    assert (Z.lor (bitfield.flags a) (bitfield.flags b) = 0) as Hlor by (simpl in Hu; lia).
    rewrite Hlor in *.
    change (Z.setbit 0 0) with 1 in Hval.
    assert (bitfield.toZ (bitfield.Or a b) = 0 \/ bitfield.toZ (bitfield.Or a b) = 1) as Hcases.
    { rewrite Hval. rewrite Z.land_ones by lia.
      destruct (length a) as [|k]; [left; reflexivity|right].
      apply Z.mod_small. split; [lia|].
      apply (Z.pow_gt_1 2); lia. }
    unfold bitfield.flags, bitfield.Len.
    destruct Hcases as [-> | ->]; split; reflexivity.
  - (* the sentinel of [a] fits into its bytes *)
    pose proof (toZ_nonneg a) as Hnn. pose proof (toZ_bound a) as Hbound.
    assert (0 < bitfield.toZ a) as Hgt by lia.
    pose proof (Z.log2_spec _ Hgt) as Hspec. fold (bitfield.Len a) in Hspec.
    assert (bitfield.Len a < 8 * Z.of_nat (length a)) as Hfit.
    { apply (Z.pow_lt_mono_r_iff 2); lia. }
    assert (2 ^ (bitfield.Len a + 1) <= 2 ^ (8 * Z.of_nat (length a))) as Hpow
      by (apply Z.pow_le_mono_r; lia).
    rewrite Z.land_ones, Z.mod_small in Hval by lia.
    apply Len_flags_of_value; assumption.
Qed.
End bitfield_facts.

Lemma Or_length a b : length (bitfield.Or a b) = length a.
Proof. unfold bitfield.Or. apply length_ofZ. Qed.

(** The sentinel is set in the union of two vectors of the same length,
    provided the first one has a byte to hold it. *)
Lemma Or_sentinel a b :
  bitfield.Len a = bitfield.Len b -> a <> [] ->
  Z.testbit (bitfield.toZ (bitfield.Or a b)) (bitfield.Len a) = true.
Proof.
  intros Hlen Hne.
  pose proof (flags_range a) as Hfa. pose proof (flags_range b) as Hfb.
  rewrite <- Hlen in Hfb.
  pose proof (Len_nonneg a) as Hn.
  pose proof (lor_range _ _ _ Hn Hfa Hfb) as Hu.
  pose proof (setbit_range _ _ Hn Hu) as Hset.
  unfold bitfield.Or. rewrite toZ_ofZ, Z.land_spec.
  rewrite Z.setbit_eq by assumption. rewrite andb_true_l.
  apply Z.ones_spec_low. split; [assumption|].
  destruct (Z.eq_dec (bitfield.toZ a) 0) as [Hzero|Hpos].
  - unfold bitfield.Len. rewrite Hzero. simpl Z.log2.
    destruct a as [|x a]; [congruence|]. simpl length. lia.
  - pose proof (toZ_nonneg a) as Hnn. pose proof (toZ_bound a) as Hbound.
    pose proof (Z.log2_spec (bitfield.toZ a) ltac:(lia)) as Hspec.
    fold (bitfield.Len a) in Hspec.
    apply (Z.pow_lt_mono_r_iff 2); lia.
Qed.

Section aggregate_pair.

Import attaggregation.

Lemma AggregatePair_ok (a1 a2 : Attestation) :
  lenOf a1 = lenOf a2 -> Z.land (flagsOf a1) (flagsOf a2) = 0 ->
  exists m, AggregatePair a1 a2 = Ok m
    /\ AggregationBits m = bitfield.Or (AggregationBits a1) (AggregationBits a2)
    /\ lenOf m = lenOf a1
    /\ flagsOf m = Z.lor (flagsOf a1) (flagsOf a2).
Proof.
  unfold lenOf, flagsOf. intros Hlen Hdisj.
  unfold AggregatePair, bitfield.Overlaps.
  rewrite Hlen, Z.eqb_refl, Hdisj. simpl.
  eexists. split; [reflexivity|]. simpl. split; [reflexivity|].
  rewrite <- Hlen. apply Or_spec. assumption.
Qed.

(** C5.  [AggregatePair] fails with [ErrBitsDifferentLen] when the logical
    lengths differ, and with [ErrBitsOverlap] when they agree and the flag
    bits intersect.  Otherwise it returns an attestation of the same
    logical length whose flag bits are the union of the flag bits of the
    two, bit by bit, with the sentinel set at that length and the vote
    content of the first.  The vectors of the tests behave accordingly. *)
Theorem AggregatePair_spec :
  (forall a1 a2 : Attestation,
     (lenOf a1 <> lenOf a2 -> AggregatePair a1 a2 = Err ErrBitsDifferentLen)
     /\ (lenOf a1 = lenOf a2 -> Z.land (flagsOf a1) (flagsOf a2) <> 0 ->
         AggregatePair a1 a2 = Err ErrBitsOverlap)
     /\ (lenOf a1 = lenOf a2 -> Z.land (flagsOf a1) (flagsOf a2) = 0 ->
         exists m, AggregatePair a1 a2 = Ok m
           /\ lenOf m = lenOf a1
           /\ flagsOf m = Z.lor (flagsOf a1) (flagsOf a2)
           /\ (forall i, bitfield.BitAt (AggregationBits m) i
                         = bitfield.BitAt (AggregationBits a1) i
                           || bitfield.BitAt (AggregationBits a2) i)
           /\ (AggregationBits a1 <> [] ->
               Z.testbit (bitfield.toZ (AggregationBits m)) (lenOf a1) = true)
           /\ length (AggregationBits m) = length (AggregationBits a1)
           /\ sourceEpoch m = sourceEpoch a1 /\ targetEpoch m = targetEpoch a1
           /\ signingRoot m = signingRoot a1))
  /\ AggregatePair (ofBits []) (ofBits []) = Ok (ofBits [])
  /\ AggregatePair (ofBits [0x03]) (ofBits [0x02]) = Ok (ofBits [0x03])
  /\ AggregatePair (ofBits [0x02]) (ofBits [0x03]) = Ok (ofBits [0x03])
  /\ AggregatePair (ofBits [0x1F]) (ofBits [0x11]) = Err ErrBitsOverlap
  /\ AggregatePair (ofBits [0x0F]) (ofBits [0x11]) = Err ErrBitsDifferentLen
  /\ ErrBitsOverlap <> ErrBitsDifferentLen.
Proof.
  split; [|repeat split; try reflexivity; discriminate].
  intros a1 a2. split; [|split].
  - unfold lenOf. intros Hne. unfold AggregatePair.
    destruct (Z.eqb_spec (bitfield.Len (AggregationBits a1))
                         (bitfield.Len (AggregationBits a2))); [contradiction|].
    reflexivity.
  - unfold lenOf, flagsOf. intros Heq Hmeet. unfold AggregatePair, bitfield.Overlaps.
    rewrite Heq, Z.eqb_refl.
    destruct (Z.eqb_spec (Z.land (bitfield.flags (AggregationBits a1))
                                 (bitfield.flags (AggregationBits a2))) 0);
      [contradiction|].
    reflexivity.
  - intros Heq Hdisj.
    destruct (AggregatePair_ok a1 a2 Heq Hdisj) as (m & Hrun & Hbits & Hlen & Hflags).
    exists m. split; [assumption|]. split; [assumption|]. split; [assumption|].
    split.
    { intros i. unfold bitfield.BitAt. fold (flagsOf m) (flagsOf a1) (flagsOf a2).
      rewrite Hflags. apply Z.lor_spec. }
    split.
    { intros Hne. rewrite Hbits. apply Or_sentinel; assumption. }
    split; [rewrite Hbits; apply Or_length|].
    unfold AggregatePair in Hrun.
    destruct (negb _); [discriminate|]. destruct (bitfield.Overlaps _ _); [discriminate|].
    injection Hrun as <-. auto.
Qed.

End aggregate_pair.

(** ** Aggregation of a list of attestations *)

Section aggregation.

Import attaggregation.

Lemma land_lor_zero a b c :
  Z.land a (Z.lor b c) = 0 <-> Z.land a b = 0 /\ Z.land a c = 0.
Proof. rewrite Z.land_lor_distr_r. apply Z.lor_eq_0_iff. Qed.

Lemma land_lor_keeps g x a :
  Z.land g a = a -> Z.land (Z.lor g x) a = a.
Proof.
  intros Hsub. rewrite <- Hsub. apply Z.bits_inj'. intros i _.
  rewrite !Z.land_spec, Z.lor_spec.
  destruct (Z.testbit g i), (Z.testbit x i), (Z.testbit a i); reflexivity.
Qed.

Lemma land_lor_self g a : Z.land (Z.lor g a) a = a.
Proof.
  apply Z.bits_inj'. intros i _. rewrite Z.land_spec, Z.lor_spec.
  destruct (Z.testbit g i), (Z.testbit a i); reflexivity.
Qed.

Lemma disjoint_from_union x ms :
  Z.land (flagsOf x) (unionOf ms) = 0 ->
  Forall (fun y => Z.land (flagsOf x) (flagsOf y) = 0) ms.
Proof.
  induction ms as [|m ms IH]; simpl; intros Hdisj; constructor.
  - apply land_lor_zero in Hdisj. tauto.
  - apply IH. apply land_lor_zero in Hdisj. tauto.
Qed.

Lemma builtFrom_incl (l l' : list Attestation) g :
  (forall x, In x l -> In x l') -> builtFrom l g -> builtFrom l' g.
Proof.
  intros Hincl (ms & Hne & Hmem & Hdisj & Hflags).
  exists ms. split; [assumption|]. split; [|auto].
  intros m Hm. destruct (Hmem m Hm). auto.
Qed.

Lemma builtFrom_single (l : list Attestation) att :
  In att l -> builtFrom l att.
Proof.
  intros Hin. exists [att]. split; [discriminate|]. split.
  - intros m [<-|[]]. auto.
  - split.
    + constructor; constructor.
    + simpl. symmetry. apply Z.lor_0_r.
Qed.

(** A group that takes in an attestation it does not overlap stays the
    union of non-overlapping inputs. *)
Lemma builtFrom_merge (l : list Attestation) g att m :
  builtFrom l g -> In att l ->
  lenOf att = lenOf g -> lenOf m = lenOf g ->
  Z.land (flagsOf g) (flagsOf att) = 0 ->
  flagsOf m = Z.lor (flagsOf g) (flagsOf att) ->
  builtFrom l m.
Proof.
  intros (ms & Hne & Hmem & Hdisj & Hflags) Hin Hlen_att Hlen_m Hmeet Hunion.
  exists (att :: ms). split; [discriminate|]. split; [|split].
  - intros x [<-|Hx]; [split; [assumption|congruence]|].
    destruct (Hmem x Hx). split; [assumption|congruence].
  - constructor; [|assumption].
    apply disjoint_from_union. rewrite <- Hflags, Z.land_comm. assumption.
  - simpl. rewrite Hunion, Hflags. apply Z.lor_comm.
Qed.

Lemma mergeIntoGroups_inv n (seen : list Attestation) att :
  lenOf att = n -> In att seen ->
  forall groups,
  (forall g, In g groups -> lenOf g = n /\ builtFrom seen g) ->
  exists groups', mergeIntoGroups att groups = Ok groups'
    /\ (forall g', In g' groups' -> lenOf g' = n /\ builtFrom seen g')
    /\ (forall g, In g groups ->
          exists g', In g' groups' /\ lenOf g' = lenOf g
            /\ forall a, Z.land (flagsOf g) a = a -> Z.land (flagsOf g') a = a)
    /\ (exists g', In g' groups' /\ covers g' att).
Proof.
  intros Hlen Hseen. induction groups as [|g rest IH]; intros Hgroups.
  - exists [att]. split; [reflexivity|]. split; [|split].
    + intros g' [<-|[]]. split; [assumption|]. apply builtFrom_single. assumption.
    + intros g [].
    + exists att. split; [left; reflexivity|]. split; [reflexivity|]. apply Z.land_diag.
  - cbn [mergeIntoGroups].
    destruct (Hgroups g (or_introl eq_refl)) as [Hg_len Hg_built].
    destruct (bitfield.Overlaps (AggregationBits g) (AggregationBits att)) eqn:Hover.
    + destruct (IH (fun x Hx => Hgroups x (or_intror Hx)))
        as (rest' & -> & Hout & Hkeep & g' & Hg' & Hcov).
      exists (g :: rest'). split; [reflexivity|]. split; [|split].
      * intros x [<-|Hx]; [auto|apply Hout; assumption].
      * intros x [<-|Hx].
        -- exists g. split; [left; reflexivity|]. auto.
        -- destruct (Hkeep x Hx) as (x' & Hx' & Hrest). exists x'.
           split; [right; assumption|assumption].
      * exists g'. split; [right; assumption|assumption].
    + unfold bitfield.Overlaps in Hover. apply negb_false_iff, Z.eqb_eq in Hover.
      fold (flagsOf g) (flagsOf att) in Hover.
      destruct (AggregatePair_ok g att ltac:(congruence) Hover)
        as (m & -> & _ & Hm_len & Hm_flags).
      exists (m :: rest). split; [reflexivity|]. split; [|split].
      * intros x [<-|Hx]; [|apply Hgroups; right; assumption].
        split; [congruence|].
        apply (builtFrom_merge seen g att); auto; congruence.
      * intros x [<-|Hx].
        -- exists m. split; [left; reflexivity|]. split; [assumption|].
           intros a Ha. rewrite Hm_flags. apply land_lor_keeps. assumption.
        -- exists x. split; [right; assumption|]. auto.
      * exists m. split; [left; reflexivity|]. split; [congruence|].
        rewrite Hm_flags. apply land_lor_self.
Qed.

(** One step of the grouping keeps the invariant of the class. *)
Lemma mergeIntoGroups_step n (seen groups : list Attestation) att :
  lenOf att = n ->
  classInvariant n seen groups ->
  exists groups', mergeIntoGroups att groups = Ok groups'
    /\ classInvariant n (att :: seen) groups'.
Proof.
  intros Hlen [Hgroups Hseen].
  destruct (mergeIntoGroups_inv n (att :: seen) att Hlen (or_introl eq_refl) groups)
    as (groups' & Hrun & Hout & Hkeep & g' & Hg' & Hcov).
  { intros g Hg. destruct (Hgroups g Hg) as [Hg_len Hg_built].
    split; [assumption|]. apply (builtFrom_incl seen); [|assumption].
    intros x Hx. right. assumption. }
  exists groups'. split; [assumption|]. split; [assumption|].
  intros a [<-|Ha].
  - split; [assumption|]. exists g'. auto.
  - destruct (Hseen a Ha) as (Ha_len & g & Hg & Hg_len & Hg_cov).
    split; [assumption|].
    destruct (Hkeep g Hg) as (g2 & Hg2 & Hg2_len & Hg2_cov).
    exists g2. split; [assumption|]. split; [congruence|]. apply Hg2_cov. assumption.
Qed.

Lemma aggregateFrom_inv n :
  forall (rest seen groups : list Attestation),
  (forall a, In a rest -> lenOf a = n) ->
  classInvariant n seen groups ->
  exists out, aggregateFrom groups rest = Ok out
    /\ classInvariant n (rev rest ++ seen) out.
Proof.
  induction rest as [|att rest IH]; intros seen groups Hrest Hinv.
  - exists groups. split; [reflexivity|assumption].
  - cbn [aggregateFrom].
    destruct (mergeIntoGroups_step n seen groups att (Hrest att (or_introl eq_refl)) Hinv)
      as (groups' & -> & Hinv').
    destruct (IH (att :: seen) groups' (fun a Ha => Hrest a (or_intror Ha)) Hinv')
      as (out & Hrun & Hout).
    exists out. split; [assumption|].
    simpl rev. rewrite <- app_assoc. exact Hout.
Qed.

(** *** Duplicate elimination and subset absorption *)

Lemma Contains_true (g a : Attestation) :
  bitfield.Contains (AggregationBits g) (AggregationBits a) = true
  <-> Z.land (flagsOf g) (flagsOf a) = flagsOf a.
Proof. unfold bitfield.Contains, flagsOf. apply Z.eqb_eq. Qed.

Lemma Contains_false (g a : Attestation) :
  bitfield.Contains (AggregationBits g) (AggregationBits a) = false ->
  ~ covers g a.
Proof.
  intros Hnot [_ Hsub]. apply Contains_true in Hsub. congruence.
Qed.

Lemma land_sub_trans h g a :
  Z.land g a = a -> Z.land h g = g -> Z.land h a = a.
Proof.
  intros Ha Hg. rewrite <- Ha. rewrite Z.land_assoc, Hg. reflexivity.
Qed.

Lemma ForallOrdPairs_filter {B : Type} (R : B -> B -> Prop) (f : B -> bool) l :
  ForallOrdPairs R l -> ForallOrdPairs R (List.filter f l).
Proof.
  induction 1 as [|a l Ha Hl IH]; simpl; [constructor|].
  destruct (f a); [|assumption]. constructor; [|assumption].
  apply List.Forall_forall. intros x Hx. apply List.filter_In in Hx.
  rewrite List.Forall_forall in Ha. apply Ha. tauto.
Qed.

Lemma ForallOrdPairs_app {B : Type} (R : B -> B -> Prop) l l' :
  ForallOrdPairs R l -> ForallOrdPairs R l' ->
  (forall x y, In x l -> In y l' -> R x y) ->
  ForallOrdPairs R (l ++ l').
Proof.
  induction 1 as [|a l Ha Hl IH]; intros Hl' Hcross; simpl; [assumption|].
  constructor.
  - apply List.Forall_app. split; [assumption|].
    apply List.Forall_forall. intros y Hy. apply Hcross; [left; reflexivity|assumption].
  - apply IH; [assumption|]. intros x y Hx Hy. apply Hcross; [right|]; assumption.
Qed.

(** What [absorbInto] keeps: nothing new but the group, something that
    contains every group it had and the new one, and no group that
    another one covers. *)
Lemma absorbInto_spec (kept : list Attestation) g :
  noneSubsumed kept ->
  noneSubsumed (absorbInto kept g)
  /\ (forall x, In x (absorbInto kept g) -> In x kept \/ x = g)
  /\ (forall x, In x kept \/ x = g ->
        exists y, In y (absorbInto kept g)
          /\ Z.land (flagsOf y) (flagsOf x) = flagsOf x).
Proof.
  intros Hkept. unfold absorbInto.
  destruct (existsb _ kept) eqn:Hsub.
  - split; [assumption|]. split; [auto|].
    intros x [Hx| ->].
    + exists x. split; [assumption | apply Z.land_diag].
    + apply existsb_exists in Hsub. destruct Hsub as (k & Hk & Hcontains).
      exists k. split; [assumption | apply Contains_true; assumption].
  - assert (forall k, In k kept ->
              bitfield.Contains (AggregationBits k) (AggregationBits g) = false)
      as Hnone.
    { intros k Hk.
      destruct (bitfield.Contains (AggregationBits k) (AggregationBits g)) eqn:Hc;
        [|reflexivity].
      assert (existsb (fun k => bitfield.Contains (AggregationBits k)
                                  (AggregationBits g)) kept = true) as Hex
        by (apply existsb_exists; exists k; auto).
      congruence. }
    split; [|split].
    + apply ForallOrdPairs_app.
      * apply ForallOrdPairs_filter. assumption.
      * constructor; constructor.
      * intros x y Hx [<-|[]]. apply List.filter_In in Hx. destruct Hx as [Hx Hkeep].
        apply negb_true_iff in Hkeep.
        split; apply Contains_false; [apply Hnone|]; assumption.
    + intros x Hx. apply in_app_or in Hx. destruct Hx as [Hx|[<-|[]]]; [|auto].
      apply List.filter_In in Hx. tauto.
    + intros x [Hx| ->].
      * destruct (bitfield.Contains (AggregationBits g) (AggregationBits x)) eqn:Hc.
        -- exists g. split; [apply in_or_app; right; left; reflexivity|].
           apply Contains_true. assumption.
        -- exists x. split; [|apply Z.land_diag].
           apply in_or_app. left. apply List.filter_In. rewrite Hc. auto.
      * exists g. split; [apply in_or_app; right; left; reflexivity|].
        apply Z.land_diag.
Qed.

Lemma absorb_from (groups : list Attestation) :
  forall kept, noneSubsumed kept ->
  noneSubsumed (fold_left absorbInto groups kept)
  /\ (forall x, In x (fold_left absorbInto groups kept) -> In x kept \/ In x groups)
  /\ (forall x, In x kept \/ In x groups ->
        exists y, In y (fold_left absorbInto groups kept)
          /\ Z.land (flagsOf y) (flagsOf x) = flagsOf x).
Proof.
  induction groups as [|g groups IH]; intros kept Hkept; simpl.
  - split; [assumption|]. split; [auto|].
    intros x [Hx|[]]. exists x. split; [assumption | apply Z.land_diag].
  - destruct (absorbInto_spec kept g Hkept) as (Hnone & Hin & Hcover).
    destruct (IH (absorbInto kept g) Hnone) as (Hnone' & Hin' & Hcover').
    split; [assumption|]. split.
    + intros x Hx. destruct (Hin' x Hx) as [Hk|Hg]; [|auto].
      destruct (Hin x Hk) as [Hk'| ->]; auto.
    + intros x Hx.
      assert (exists y, In y (absorbInto kept g)
                /\ Z.land (flagsOf y) (flagsOf x) = flagsOf x
              \/ In x groups) as Hstep.
      { destruct Hx as [Hx|[<-|Hx]].
        - destruct (Hcover x (or_introl Hx)) as (y & Hy & Hsub). eauto.
        - destruct (Hcover g (or_intror eq_refl)) as (y & Hy & Hsub). eauto.
        - exists x. auto. }
      destruct Hstep as (y & [[Hy Hsub]|Hgroups]).
      * destruct (Hcover' y (or_introl Hy)) as (z & Hz & Hsub').
        exists z. split; [assumption|]. eapply land_sub_trans; eassumption.
      * apply Hcover'. auto.
Qed.

(** The groups that [absorb] emits are groups it was given, contain every
    group it was given, and none of them is covered by another. *)
Lemma absorb_spec (groups : list Attestation) :
  noneSubsumed (absorb groups)
  /\ (forall x, In x (absorb groups) -> In x groups)
  /\ (forall x, In x groups ->
        exists y, In y (absorb groups)
          /\ Z.land (flagsOf y) (flagsOf x) = flagsOf x).
Proof.
  destruct (absorb_from groups []) as (Hnone & Hin & Hcover); [constructor|].
  split; [assumption|]. split.
  - intros x Hx. destruct (Hin x Hx) as [[]|Hg]. assumption.
  - intros x Hx. apply Hcover. auto.
Qed.

(** A class is aggregated without error into groups of its own length
    that cover every attestation of the class, none of them covered by
    another. *)
Lemma aggregateClass_inv n (cls : list Attestation) :
  (forall a, In a cls -> lenOf a = n) ->
  exists out, aggregateClass cls = Ok out
    /\ (forall g, In g out -> lenOf g = n /\ builtFrom cls g)
    /\ (forall a, In a cls -> exists g, In g out /\ covers g a)
    /\ noneSubsumed out.
Proof.
  intros Hcls.
  destruct (aggregateFrom_inv n cls [] [] Hcls) as (groups & Hrun & Hgroups & Hseen).
  { split; intros x []. }
  destruct (absorb_spec groups) as (Hnone & Hin & Hcover).
  exists (absorb groups). unfold aggregateClass. rewrite Hrun.
  split; [reflexivity|]. split; [|split; [|assumption]].
  - intros g Hg. destruct (Hgroups g (Hin g Hg)) as [Hlen Hbuilt].
    split; [assumption|]. apply (builtFrom_incl (rev cls ++ [])); [|assumption].
    intros x Hx. rewrite app_nil_r in Hx. apply in_rev. assumption.
  - intros a Ha.
    destruct (Hseen a) as (Ha_len & g & Hg & Hg_len & Hg_cov).
    { rewrite app_nil_r. apply in_rev in Ha. assumption. }
    destruct (Hcover g Hg) as (y & Hy & Hsub).
    exists y. split; [assumption|]. split.
    + destruct (Hgroups y (Hin y Hy)) as [Hy_len _].
      destruct (Hgroups g Hg) as [Hg_len' _]. congruence.
    + eapply land_sub_trans; eassumption.
Qed.


Lemma hasLen_true n a : hasLen n a = true <-> lenOf a = n.
Proof. unfold hasLen, lenOf. apply Z.eqb_eq. Qed.

Lemma In_filter_hasLen n a (atts : list Attestation) :
  In a (List.filter (hasLen n) atts) <-> In a atts /\ lenOf a = n.
Proof. rewrite List.filter_In, hasLen_true. reflexivity. Qed.

Lemma filter_hasLen_all n (l : list Attestation) :
  (forall a, In a l -> lenOf a = n) -> List.filter (hasLen n) l = l.
Proof.
  induction l as [|a l IH]; intros Hall; [reflexivity|]. simpl.
  rewrite (proj2 (hasLen_true n a)) by (apply Hall; left; reflexivity).
  f_equal. apply IH. intros x Hx. apply Hall. right. assumption.
Qed.

Lemma filter_hasLen_none n m (l : list Attestation) :
  (forall a, In a l -> lenOf a = m) -> n <> m -> List.filter (hasLen n) l = [].
Proof.
  induction l as [|a l IH]; intros Hall Hne; [reflexivity|]. simpl.
  destruct (hasLen n a) eqn:Hlen.
  - apply hasLen_true in Hlen. rewrite (Hall a (or_introl eq_refl)) in Hlen. congruence.
  - apply IH; [|assumption]. intros x Hx. apply Hall. right. assumption.
Qed.

Lemma lengthClasses_In n (atts : list Attestation) :
  In n (lengthClasses atts) <-> exists a, In a atts /\ lenOf a = n.
Proof.
  induction atts as [|a atts IH]; simpl.
  - split; [intros [] | intros (x & [] & _)].
  - fold (lenOf a). rewrite List.filter_In, IH, negb_true_iff, Z.eqb_neq. split.
    + intros [<-|[(x & Hx & Hlen) _]]; [exists a; auto | exists x; auto].
    + intros (x & [<-|Hx] & Hlen); [left; assumption|].
      destruct (Z.eq_dec (lenOf a) n); [left; assumption|right].
      split; [exists x; auto | congruence].
Qed.

Lemma lengthClasses_NoDup (atts : list Attestation) : List.NoDup (lengthClasses atts).
Proof.
  induction atts as [|a atts IH]; simpl; constructor.
  - rewrite List.filter_In, negb_true_iff, Z.eqb_neq. intros [_ Hne]. congruence.
  - apply List.NoDup_filter. assumption.
Qed.

Lemma existsb_eqb_In n (classes : list Z) :
  existsb (Z.eqb n) classes = true <-> In n classes.
Proof.
  rewrite existsb_exists. split.
  - intros (x & Hx & Heq). apply Z.eqb_eq in Heq. congruence.
  - intros Hin. exists n. split; [assumption | apply Z.eqb_refl].
Qed.

(** The groups of one length in the output of several classes are the
    groups of the class of that length; every group has the length of a
    class, and no group is covered by another. *)
Lemma aggregateClasses_spec (atts : list Attestation) :
  forall classes, List.NoDup classes ->
  exists out, aggregateClasses classes atts = Ok out
    /\ (forall n, List.filter (hasLen n) out
                  = if existsb (Z.eqb n) classes
                    then outputsOf (aggregateClass (List.filter (hasLen n) atts))
                    else [])
    /\ (forall g, In g out -> In (lenOf g) classes)
    /\ noneSubsumed out.
Proof.
  induction classes as [|c classes IH]; intros Hnodup.
  - exists []. split; [reflexivity|]. split; [intros n; reflexivity|].
    split; [intros g []|constructor].
  - inversion Hnodup as [|? ? Hfresh Hnodup']; subst.
    destruct (aggregateClass_inv c (List.filter (hasLen c) atts))
      as (outc & Hrunc & Hgroups & _ & Hnonec).
    { intros a Ha. apply In_filter_hasLen in Ha. tauto. }
    destruct (IH Hnodup') as (outs & Hruns & Hfilter & Hlens & Hnones).
    exists (outc ++ outs). cbn [aggregateClasses]. rewrite Hrunc, Hruns.
    split; [reflexivity|]. split; [|split].
    + intros n. rewrite List.filter_app, Hfilter.
      cbn [existsb]. destruct (Z.eqb_spec n c) as [->|Hne].
      * rewrite filter_hasLen_all by (intros a Ha; apply Hgroups; assumption).
        rewrite Hrunc. cbn [orb outputsOf].
        destruct (existsb (Z.eqb c) classes) eqn:Hin.
        -- apply existsb_eqb_In in Hin. contradiction.
        -- apply app_nil_r.
      * rewrite (filter_hasLen_none n c) by
          (try assumption; intros a Ha; apply Hgroups; assumption).
        reflexivity.
    + intros g Hg. apply in_app_or in Hg. destruct Hg as [Hg|Hg].
      * left. symmetry. apply Hgroups. assumption.
      * right. apply Hlens. assumption.
    + apply ForallOrdPairs_app; [assumption..|].
      intros x y Hx Hy.
      assert (lenOf x <> lenOf y) as Hne.
      { destruct (Hgroups x Hx) as [-> _]. intros Heq. apply Hfresh.
        rewrite Heq. apply Hlens. assumption. }
      split; intros [Hlen _]; congruence.
Qed.

(** [Aggregate] never fails; its groups of any one length are the groups
    that the attestations of that length yield on their own; and none of
    its groups is covered by another. *)
Lemma Aggregate_by_class (atts : list Attestation) :
  exists out, Aggregate atts = Ok out
    /\ noneSubsumed out
    /\ forall n, exists outn,
         aggregateClass (List.filter (hasLen n) atts) = Ok outn
         /\ List.filter (hasLen n) out = outn
         /\ (forall g, In g outn ->
               lenOf g = n /\ builtFrom (List.filter (hasLen n) atts) g)
         /\ (forall a, In a (List.filter (hasLen n) atts) ->
               exists g, In g outn /\ covers g a).
Proof.
  destruct (aggregateClasses_spec atts (lengthClasses atts) (lengthClasses_NoDup atts))
    as (out & Hrun & Hfilter & _ & Hnone).
  exists out. split; [exact Hrun|]. split; [exact Hnone|]. intros n.
  destruct (aggregateClass_inv n (List.filter (hasLen n) atts))
    as (outn & Hrunn & Hgroups & Hcover & _).
  { intros a Ha. apply In_filter_hasLen in Ha. tauto. }
  exists outn. split; [assumption|]. split; [|split; assumption].
  rewrite Hfilter, Hrunn. cbn [outputsOf].
  destruct (existsb (Z.eqb n) (lengthClasses atts)) eqn:Hin; [reflexivity|].
  destruct (List.filter (hasLen n) atts) as [|a rest] eqn:Hcls.
  - injection Hrunn as <-. reflexivity.
  - exfalso. assert (In a (List.filter (hasLen n) atts)) as Ha
      by (rewrite Hcls; left; reflexivity).
    apply In_filter_hasLen in Ha.
    assert (In n (lengthClasses atts)) as Hn
      by (apply lengthClasses_In; exists a; assumption).
    apply existsb_eqb_In in Hn. congruence.
Qed.

Lemma lengthClasses_uniform (atts : list Attestation) len :
  (forall a, In a atts -> lenOf a = len) -> atts <> [] -> lengthClasses atts = [len].
Proof.
  induction atts as [|a atts IH]; intros Hall Hne; [congruence|].
  cbn [lengthClasses]. fold (lenOf a).
  rewrite (Hall a (or_introl eq_refl)).
  destruct atts as [|b atts]; [reflexivity|].
  rewrite IH; [|intros x Hx; apply Hall; right; assumption|discriminate].
  simpl. rewrite Z.eqb_refl. reflexivity.
Qed.

(** On attestations of one length, [Aggregate] is the aggregation of the
    class. *)
Lemma Aggregate_uniform n (cls : list Attestation) :
  (forall a, In a cls -> lenOf a = n) ->
  outputsOf (Aggregate cls) = outputsOf (aggregateClass cls).
Proof.
  intros Hcls. destruct cls as [|a cls]; [reflexivity|].
  unfold Aggregate. rewrite (lengthClasses_uniform _ n Hcls) by discriminate.
  cbn [aggregateClasses]. rewrite filter_hasLen_all by assumption.
  destruct (aggregateClass (a :: cls)) as [out|err]; [|reflexivity].
  cbn [outputsOf]. apply app_nil_r.
Qed.

End aggregation.

(** ** The vectors with a single flag set *)

Section single_bits.

Import attaggregation.

Lemma toZ_bitlistOf N f :
  0 <= N -> 0 <= f < 2 ^ N -> bitfield.toZ (bitlistOf N f) = Z.setbit f N.
Proof.
  intros HN Hf. unfold bitlistOf. apply toZ_ofZ_small.
  pose proof (setbit_range f N HN Hf) as Hset.
  pose proof (Z.mul_succ_div_gt N 8 ltac:(lia)) as Hdiv.
  pose proof (Z.div_pos N 8 HN ltac:(lia)) as Hq.
  rewrite Z2Nat.id by lia.
  assert (2 ^ (N + 1) <= 2 ^ (8 * (N / 8 + 1))) by (apply Z.pow_le_mono_r; lia).
  pose proof (Z.pow_pos_nonneg 2 N ltac:(lia) HN). lia.
Qed.

Lemma bitlistOf_Len_flags N f :
  0 <= N -> 0 <= f < 2 ^ N ->
  bitfield.Len (bitlistOf N f) = N /\ bitfield.flags (bitlistOf N f) = f.
Proof.
  intros HN Hf. apply Len_flags_of_value; [assumption..|].
  apply toZ_bitlistOf; assumption.
Qed.

Lemma single_flag_range N i : 0 <= i < N -> 0 <= Z.setbit 0 i < 2 ^ N.
Proof.
  intros Hi. rewrite Z.setbit_spec', Z.lor_0_l.
  split; [apply Z.pow_nonneg; lia|]. apply Z.pow_lt_mono_r; lia.
Qed.

Lemma ones_range N k : 0 <= k <= N -> 0 <= Z.ones k < 2 ^ N.
Proof.
  intros Hk. rewrite Z.ones_equiv.
  pose proof (Z.pow_pos_nonneg 2 k ltac:(lia) ltac:(lia)).
  assert (2 ^ k <= 2 ^ N) by (apply Z.pow_le_mono_r; lia). lia.
Qed.

Lemma ones_single_disjoint k : 0 <= k -> Z.land (Z.ones k) (Z.setbit 0 k) = 0.
Proof.
  intros Hk. apply Z.bits_inj'. intros i Hi.
  rewrite Z.land_spec, Z.setbit_eqb, !Z.testbit_0_l by assumption.
  destruct (Z.eqb_spec k i) as [<-|Hne].
  - rewrite Z.ones_spec_high by lia. reflexivity.
  - rewrite orb_false_r. apply andb_false_r.
Qed.

Lemma ones_single_union k : 0 <= k -> Z.lor (Z.ones k) (Z.setbit 0 k) = Z.ones (k + 1).
Proof.
  intros Hk. apply Z.bits_inj'. intros i Hi.
  rewrite Z.lor_spec, Z.setbit_eqb, Z.testbit_0_l by assumption.
  destruct (Z.eqb_spec k i) as [<-|Hne].
  - rewrite (Z.ones_spec_low (k + 1) k) by lia. apply orb_true_r.
  - rewrite !orb_false_r. destruct (Z.lt_ge_cases i k).
    + rewrite !Z.ones_spec_low by lia. reflexivity.
    + rewrite !Z.ones_spec_high by lia. reflexivity.
Qed.

Variable n : nat.

Local Abbreviation N := (Z.of_nat n).
Local Abbreviation group k := (ofBits (bitlistOf N (Z.ones (Z.of_nat k)))).
Local Abbreviation single i := (ofBits (bitlistOf N (Z.setbit 0 (Z.of_nat i)))).

Lemma single_step k :
  (k < n)%nat ->
  mergeIntoGroups (single k) [group k] = Ok [group (S k)].
Proof.
  intros Hk.
  destruct (bitlistOf_Len_flags N (Z.ones (Z.of_nat k)) ltac:(lia)
              (ones_range N (Z.of_nat k) ltac:(lia))) as [HlenG HflagsG].
  destruct (bitlistOf_Len_flags N (Z.setbit 0 (Z.of_nat k)) ltac:(lia)
              (single_flag_range N (Z.of_nat k) ltac:(lia))) as [HlenA HflagsA].
  pose proof (ones_single_disjoint (Z.of_nat k) ltac:(lia)) as Hdisj.
  unfold mergeIntoGroups, AggregatePair, bitfield.Overlaps.
  cbn [AggregationBits ofBits].
  rewrite HlenG, HlenA, HflagsG, HflagsA, Hdisj, !Z.eqb_refl.
  cbn [negb]. unfold ofBits, bitfield.Or. cbn [sourceEpoch targetEpoch signingRoot].
  rewrite HlenG, HflagsG, HflagsA.
  rewrite ones_single_union by lia.
  unfold bitlistOf at 1. rewrite length_ofZ.
  rewrite Nat2Z.inj_succ. unfold Z.succ. reflexivity.
Qed.

Lemma single_run :
  forall m k, (1 <= k)%nat -> (k + m <= n)%nat ->
  aggregateFrom [group k] (map (fun i => single i) (seq k m)) = Ok [group (k + m)].
Proof.
  induction m as [|m IH]; intros k Hk Hkm.
  - simpl. rewrite Nat.add_0_r. reflexivity.
  - replace (k + S m)%nat with (S k + m)%nat by lia.
    cbn [seq map aggregateFrom]. rewrite single_step by lia.
    apply IH; lia.
Qed.

(** The [n] vectors of length [n] with a single flag set aggregate to the
    one vector with every flag set. *)
Lemma single_bits_aggregate :
  (1 <= n)%nat ->
  Aggregate (makeAttestationsFromBitlists (bitlistsWithSingleBitSet n))
  = Ok [ofBits (bitlistWithAllBitsSet n)].
Proof.
  intros Hn. unfold makeAttestationsFromBitlists, bitlistsWithSingleBitSet.
  rewrite map_map.
  assert (forall a, In a (map (fun i => single i) (seq 0 n)) -> lenOf a = N) as Hlen.
  { intros a Ha. apply in_map_iff in Ha. destruct Ha as (i & <- & Hi).
    apply in_seq in Hi. unfold lenOf.
    apply bitlistOf_Len_flags; [lia|]. apply single_flag_range. lia. }
  unfold Aggregate. rewrite (lengthClasses_uniform _ N Hlen).
  2:{ destruct n; [lia|]. discriminate. }
  cbn [aggregateClasses]. rewrite filter_hasLen_all by assumption.
  assert (seq 0 n = 0%nat :: seq 1 (n - 1)) as Hseq.
  { clear Hlen. destruct n; [lia|]. simpl. rewrite Nat.sub_0_r. reflexivity. }
  rewrite Hseq. unfold aggregateClass. cbn [map aggregateFrom mergeIntoGroups].
  change (single 0) with (group 1).
  rewrite (single_run (n - 1) 1) by lia.
  unfold bitlistWithAllBitsSet.
  replace (1 + (n - 1))%nat with n by lia. reflexivity.
Qed.

End single_bits.

(** ** The claims about [Aggregate] *)

Section aggregate_claims.

Import attaggregation.

Lemma covers_bit (g a : Attestation) i :
  covers g a ->
  bitfield.BitAt (AggregationBits a) i = true ->
  bitfield.BitAt (AggregationBits g) i = true.
Proof.
  unfold covers, bitfield.BitAt, flagsOf. intros [_ Hsub] Hbit.
  rewrite <- Hsub, Z.land_spec in Hbit. apply andb_true_iff in Hbit. tauto.
Qed.

(** The table of [TestAggregate_Aggregate], but for its two rows of
    vectors with a single flag set, which [single_bits_aggregate] covers.
    The test sorts the result and the wanted vectors by their first byte
    before it compares them; the groups are given here in the order in
    which [Aggregate] returns them. *)
Lemma Aggregate_test_table :
  Aggregate (makeAttestationsFromBitlists [[0x01; 0x01]; [0x02; 0x01]])
  = Ok (makeAttestationsFromBitlists [[0x03; 0x01]])
  /\ Aggregate (makeAttestationsFromBitlists [[0x05; 0x01]; [0x06; 0x01]])
     = Ok (makeAttestationsFromBitlists [[0x05; 0x01]; [0x06; 0x01]])
  /\ Aggregate (makeAttestationsFromBitlists
                  [[0x09; 0x01]; [0x16; 0x01]; [0x0A; 0x01]; [0x31; 0x01]])
     = Ok (makeAttestationsFromBitlists [[0x1F; 0x01]; [0x3B; 0x01]])
  /\ Aggregate (makeAttestationsFromBitlists
                  [[0x05; 0x01]; [0x06; 0x01]; [0x0A; 0x01]; [0x09; 0x01]])
     = Ok (makeAttestationsFromBitlists [[0x0F; 0x01]])
  /\ Aggregate (makeAttestationsFromBitlists [[0x01; 0x01]; [0x03; 0x01]])
     = Ok (makeAttestationsFromBitlists [[0x03; 0x01]])
  /\ Aggregate (makeAttestationsFromBitlists [[0x03; 0x01]; [0x01; 0x01]])
     = Ok (makeAttestationsFromBitlists [[0x03; 0x01]])
  /\ Aggregate (makeAttestationsFromBitlists [[0x03; 0x02]; [0x07; 0x04]; [0x04; 0x01]])
     = Ok (makeAttestationsFromBitlists [[0x03; 0x02]; [0x07; 0x04]; [0x04; 0x01]]).
Proof. repeat split; reflexivity. Qed.


(** C7.  [Aggregate] never fails, whatever the logical lengths of the
    inputs, although [AggregatePair] fails on two attestations of
    different lengths: such attestations are never merged.  The groups of
    any length [n] in the result are exactly what [Aggregate] returns for
    the inputs of length [n] alone, so every class is aggregated on its
    own, its outputs are all in the result, and the inputs of other
    lengths play no part in them; every group is a union of inputs of its
    own length.  Three vectors of three lengths come out untouched. *)
Theorem Aggregate_partitions_by_length :
  (forall atts : list Attestation,
     exists out, Aggregate atts = Ok out
       /\ (forall n, List.filter (hasLen n) out
                     = outputsOf (Aggregate (List.filter (hasLen n) atts)))
       /\ (forall g, In g out ->
             builtFrom (List.filter (hasLen (lenOf g)) atts) g))
  /\ (forall a1 a2 : Attestation,
        lenOf a1 <> lenOf a2 -> AggregatePair a1 a2 = Err ErrBitsDifferentLen)
  /\ (forall (atts1 atts2 : list Attestation) n,
        List.filter (hasLen n) atts1 = List.filter (hasLen n) atts2 ->
        List.filter (hasLen n) (outputsOf (Aggregate atts1))
        = List.filter (hasLen n) (outputsOf (Aggregate atts2)))
  /\ Aggregate (makeAttestationsFromBitlists [[0x03; 0x02];
                                              [0x07; 0x04];
                                              [0x04; 0x01]])
     = Ok (makeAttestationsFromBitlists [[0x03; 0x02];
                                         [0x07; 0x04];
                                         [0x04; 0x01]])
  /\ bitfield.Len [0x03; 0x02] = 9
  /\ bitfield.Len [0x07; 0x04] = 10
  /\ bitfield.Len [0x04; 0x01] = 8.
Proof.
  split; [|split; [|split; [|repeat split; reflexivity]]].
  - intros atts. destruct (Aggregate_by_class atts) as (out & Hrun & _ & Hclass).
    exists out. split; [assumption|]. split.
    + intros n. destruct (Hclass n) as (outn & Hrunn & Hfilter & _).
      rewrite (Aggregate_uniform n)
        by (intros a Ha; apply In_filter_hasLen in Ha; tauto).
      rewrite Hrunn. exact Hfilter.
    + intros g Hg. destruct (Hclass (lenOf g)) as (outn & _ & Hfilter & Hgroups & _).
      apply Hgroups. rewrite <- Hfilter. apply In_filter_hasLen. auto.
  - intros a1 a2 Hne. unfold AggregatePair. fold (lenOf a1) (lenOf a2).
    destruct (Z.eqb_spec (lenOf a1) (lenOf a2)); [contradiction|reflexivity].
  - intros atts1 atts2 n Hsame.
    destruct (Aggregate_by_class atts1) as (out1 & -> & _ & Hclass1).
    destruct (Aggregate_by_class atts2) as (out2 & -> & _ & Hclass2).
    destruct (Hclass1 n) as (outn1 & Hrun1 & <- & _).
    destruct (Hclass2 n) as (outn2 & Hrun2 & <- & _).
    rewrite Hsame in Hrun1. cbn [outputsOf]. congruence.
Qed.

(** C6, as amended.  [Aggregate] returns groups such that every input is
    covered by a group of its own length (every flag bit of the input is a
    flag bit of that group), and every group is the union of inputs of its
    own length no two of which overlap.  The 256, and the 1024, vectors
    with a single flag set aggregate to the one vector with every flag
    set. *)
Theorem Aggregate_covers_inputs :
  (forall atts : list Attestation,
     exists out, Aggregate atts = Ok out
       /\ (forall a, In a atts -> exists g, In g out /\ covers g a)
       /\ (forall g, In g out -> builtFrom atts g))
  /\ (forall (g a : Attestation) i,
        covers g a ->
        bitfield.BitAt (AggregationBits a) i = true ->
        bitfield.BitAt (AggregationBits g) i = true)
  /\ Aggregate (makeAttestationsFromBitlists (bitlistsWithSingleBitSet 256))
     = Ok [ofBits (bitlistWithAllBitsSet 256)]
  /\ bitfield.flags (bitlistWithAllBitsSet 256) = Z.ones 256
  /\ Aggregate (makeAttestationsFromBitlists (bitlistsWithSingleBitSet 1024))
     = Ok [ofBits (bitlistWithAllBitsSet 1024)]
  /\ bitfield.flags (bitlistWithAllBitsSet 1024) = Z.ones 1024.
Proof.
  split; [|split; [exact covers_bit|]].
  - intros atts. destruct (Aggregate_by_class atts) as (out & Hrun & _ & Hclass).
    exists out. split; [assumption|]. split.
    + intros a Ha. destruct (Hclass (lenOf a)) as (outn & _ & Hfilter & _ & Hcover).
      destruct (Hcover a) as (g & Hg & Hcov); [apply In_filter_hasLen; auto|].
      exists g. split; [|assumption].
      rewrite <- Hfilter in Hg. apply In_filter_hasLen in Hg. tauto.
    + intros g Hg. destruct (Hclass (lenOf g)) as (outn & _ & Hfilter & Hgroups & _).
      apply (builtFrom_incl (List.filter (hasLen (lenOf g)) atts)).
      * intros x Hx. apply In_filter_hasLen in Hx. tauto.
      * apply Hgroups. rewrite <- Hfilter. apply In_filter_hasLen. auto.
  - split; [apply (single_bits_aggregate 256); lia|].
    split; [apply (bitlistOf_Len_flags 256 (Z.ones 256)); [lia|apply ones_range; lia]|].
    split; [apply (single_bits_aggregate 1024); lia|].
    apply (bitlistOf_Len_flags 1024 (Z.ones 1024)); [lia|apply ones_range; lia].
Qed.

(** C6 as stated fails: two inputs of one length that overlap end up in
    two groups, and the flag bit they share (bit 2) is in both, as the
    test "two attestations with overlap" wants. *)
Lemma Aggregate_shared_bit_counterexample :
  Aggregate (makeAttestationsFromBitlists [[0x05; 0x01]; [0x06; 0x01]])
  = Ok [ofBits [0x05; 0x01]; ofBits [0x06; 0x01]]
  /\ ofBits [0x05; 0x01] <> ofBits [0x06; 0x01]
  /\ lenOf (ofBits [0x05; 0x01]) = lenOf (ofBits [0x06; 0x01])
  /\ bitfield.BitAt [0x05; 0x01] 2 = true
  /\ bitfield.BitAt [0x06; 0x01] 2 = true.
Proof.
  split; [reflexivity|]. split; [discriminate|]. repeat split; reflexivity.
Qed.



End aggregate_claims.
